(** * WABridge: scheduling and dispatch engine, connection manager, vault

    A shallow embedding of the parts of the server that the specification's
    testable properties talk about:

    - [Store]: the [scheduled_messages] table (db/schema.ts) and the drizzle
      query shapes the services use;
    - [RateLimiter]: rate-limit/rate-limiter.ts;
    - [Jobs]: scheduler/jobs.ts;
    - [Dispatcher]: scheduler/worker.ts ([processSendJob], the [failed] handler);
    - [SchedulingService]: [cancelMessage] and [retryMessage] of the
      scheduling service;
    - [DeliveryListener]: delivery/delivery.listener.ts;
    - [Reconnect] and [Bridge]: bridge/reconnect.ts and bridge/socket.ts;
    - [Vault]: crypto/vault.ts;
    - [Recurring]: [buildCronExpression] and [updateRecurringRule] of the
      scheduling service;
    - [Phone]: contacts/phone.ts;
    - [Scheduling]: [resolveContactId], [scheduleMessage], [bulkScheduleMessages],
      [editMessage] and [getMessage] of the scheduling service;
    - [Payload] and [RecurringWorker]: [buildMessagePayload] and
      [processRecurringSendJob] of scheduler/worker.ts;
    - [RecurringLifecycle]: [createRecurringRule], [deleteRecurringRule] and
      [getRecurringRule] of the scheduling service;
    - [BridgeInvariant] and [DeliveryMarks]: the predicates in which the
      properties of the manager's runs and of a batch of delivery updates are
      stated.

    Conventions.  Instants are epoch milliseconds in [Z]; a nullable column or
    an optional key is an [option], [None] being null or undefined.  Rows are
    the objects the ORM hands to JavaScript; the integer it keeps in the
    database file is seen by the rate limiter's raw SQL only, and is a
    parameter there; the repository's [sent_at] column keeps epoch seconds
    ([Examples.epochSeconds]).  JavaScript runs every segment of code between two
    [await]s to completion, so an [async] function is embedded as one function
    per segment, and the interleavings of two operations are the orders in
    which their segments can be composed.  Database and logging failures, which
    the code catches and logs, are not modelled.  The clock readings of one
    segment are taken as one instant; what [crypto.randomUUID()] returns is a
    parameter, and an insert whose key is taken is refused. *)

From stdpp Require Import base numbers list strings gmap pretty.
From Stdlib Require Import Ascii QArith Qminmax Lqa.
From Stdlib.Strings Require Import Byte.

Open Scope Z_scope.

(* ===================================================================== *)
(** * Part I: the program                                                 *)
(* ===================================================================== *)

(** ** The message table *)
Module Store.

(** status: pending | sent | delivered | failed | cancelled *)
Inductive Status := pending | sent | delivered | failed | cancelled.

#[global] Instance Status_eq_dec : EqDecision Status.
Proof. solve_decision. Defined.

(** One row of [scheduled_messages]. *)
Record ScheduledMessage := mkScheduledMessage {
  id : string;
  contactId : option string;
  groupId : option string;
  recurringRuleId : option string;
  content : string;
  scheduledAt : Z;
  status : Status;
  whatsappMessageId : option string;
  sentAt : option Z;
  deliveredAt : option Z;
  failedAt : option Z;
  failureReason : option string;
  attempts : Z;
  mediaUrl : option string;
  mediaType : option string;
  createdAt : Z;
  updatedAt : Z
}.

(** Column assignments of a drizzle [.set({...})] clause. *)
Definition with_status (v : Status) (m : ScheduledMessage) : ScheduledMessage :=
  mkScheduledMessage (id m) (contactId m) (groupId m) (recurringRuleId m) (content m)
    (scheduledAt m) v (whatsappMessageId m) (sentAt m) (deliveredAt m) (failedAt m)
    (failureReason m) (attempts m) (mediaUrl m) (mediaType m) (createdAt m) (updatedAt m).

Definition with_updatedAt (v : Z) (m : ScheduledMessage) : ScheduledMessage :=
  mkScheduledMessage (id m) (contactId m) (groupId m) (recurringRuleId m) (content m)
    (scheduledAt m) (status m) (whatsappMessageId m) (sentAt m) (deliveredAt m) (failedAt m)
    (failureReason m) (attempts m) (mediaUrl m) (mediaType m) (createdAt m) v.

Definition with_scheduledAt (v : Z) (m : ScheduledMessage) : ScheduledMessage :=
  mkScheduledMessage (id m) (contactId m) (groupId m) (recurringRuleId m) (content m)
    v (status m) (whatsappMessageId m) (sentAt m) (deliveredAt m) (failedAt m)
    (failureReason m) (attempts m) (mediaUrl m) (mediaType m) (createdAt m) (updatedAt m).

Definition with_whatsappMessageId (v : option string) (m : ScheduledMessage) : ScheduledMessage :=
  mkScheduledMessage (id m) (contactId m) (groupId m) (recurringRuleId m) (content m)
    (scheduledAt m) (status m) v (sentAt m) (deliveredAt m) (failedAt m)
    (failureReason m) (attempts m) (mediaUrl m) (mediaType m) (createdAt m) (updatedAt m).

Definition with_sentAt (v : option Z) (m : ScheduledMessage) : ScheduledMessage :=
  mkScheduledMessage (id m) (contactId m) (groupId m) (recurringRuleId m) (content m)
    (scheduledAt m) (status m) (whatsappMessageId m) v (deliveredAt m) (failedAt m)
    (failureReason m) (attempts m) (mediaUrl m) (mediaType m) (createdAt m) (updatedAt m).

Definition with_deliveredAt (v : option Z) (m : ScheduledMessage) : ScheduledMessage :=
  mkScheduledMessage (id m) (contactId m) (groupId m) (recurringRuleId m) (content m)
    (scheduledAt m) (status m) (whatsappMessageId m) (sentAt m) v (failedAt m)
    (failureReason m) (attempts m) (mediaUrl m) (mediaType m) (createdAt m) (updatedAt m).

Definition with_failedAt (v : option Z) (m : ScheduledMessage) : ScheduledMessage :=
  mkScheduledMessage (id m) (contactId m) (groupId m) (recurringRuleId m) (content m)
    (scheduledAt m) (status m) (whatsappMessageId m) (sentAt m) (deliveredAt m) v
    (failureReason m) (attempts m) (mediaUrl m) (mediaType m) (createdAt m) (updatedAt m).

Definition with_failureReason (v : option string) (m : ScheduledMessage) : ScheduledMessage :=
  mkScheduledMessage (id m) (contactId m) (groupId m) (recurringRuleId m) (content m)
    (scheduledAt m) (status m) (whatsappMessageId m) (sentAt m) (deliveredAt m) (failedAt m)
    v (attempts m) (mediaUrl m) (mediaType m) (createdAt m) (updatedAt m).

Definition with_attempts (v : Z) (m : ScheduledMessage) : ScheduledMessage :=
  mkScheduledMessage (id m) (contactId m) (groupId m) (recurringRuleId m) (content m)
    (scheduledAt m) (status m) (whatsappMessageId m) (sentAt m) (deliveredAt m) (failedAt m)
    (failureReason m) v (mediaUrl m) (mediaType m) (createdAt m) (updatedAt m).

(** The table, in rowid order. *)
Abbreviation Table := (list ScheduledMessage).

(** [db.select().from(t).where(w).get()]: the first matching row. *)
Definition selectGet (w : ScheduledMessage -> bool) (rows : Table) : option ScheduledMessage :=
  head (List.filter w rows).

(** [db.update(t).set(s).where(w).run()]: every matching row is rewritten. *)
Definition updateRun (w : ScheduledMessage -> bool) (s : ScheduledMessage -> ScheduledMessage)
    (rows : Table) : Table :=
  List.map (fun r => if w r then s r else r) rows.

(** [db.update(t).set(s).where(w).returning().get()]: the same write, and the
    first of the rewritten rows (undefined when none matched). *)
Definition updateReturningGet (w : ScheduledMessage -> bool)
    (s : ScheduledMessage -> ScheduledMessage) (rows : Table)
    : Table * option ScheduledMessage :=
  (updateRun w s rows, head (List.map s (List.filter w rows))).

(** [eq(scheduledMessages.id, x)] *)
Definition eq_id (x : string) (m : ScheduledMessage) : bool := String.eqb (id m) x.

(** [eq(scheduledMessages.status, s)] *)
Definition eq_status (s : Status) (m : ScheduledMessage) : bool := bool_decide (status m = s).

(** SQL comparison and conjunction are three-valued: [None] is NULL. *)
Definition sqlGe (a : option Z) (b : Z) : option bool :=
  match a with Some x => Some (b <=? x) | None => None end.

Definition sqlAnd (a b : option bool) : option bool :=
  match a, b with
  | Some false, _ | _, Some false => Some false
  | Some true, Some true => Some true
  | _, _ => None
  end.

(** A WHERE clause keeps the rows on which it is true (not NULL, not false). *)
Definition sqlHolds (c : option bool) : bool :=
  match c with Some true => true | _ => false end.

(** Messages broadcast to the WebSocket clients. *)
Inductive WsEvent :=
| MessageFailed (messageId reason : string) (at_ : Z)
| MessageSent (messageId : string) (at_ : Z)
| MessageStatusDelivered (messageId : string) (at_ : Z)
| RateLimitReached (sentToday cap resetAt : Z)
| RateLimitWarning (sentToday cap remaining : Z).

End Store.

(** ** rate-limit/rate-limiter.ts *)
Module RateLimiter.
Import Store.

(** 5.5 * 60 * 60 * 1000 *)
Definition istOffsetMs : Z := 19800000.
(** 24 * 60 * 60 * 1000 *)
Definition dayMs : Z := 86400000.

(** [%] on JavaScript numbers takes the sign of the dividend: [Z.rem]. *)
Definition getTodayIST (now : Z) : Z :=
  let istMs := now + istOffsetMs in
  let istMidnight := istMs - Z.rem istMs dayMs in
  istMidnight - istOffsetMs.

Definition getNextMidnightIST (now : Z) : Z := getTodayIST now + dayMs.

Record CanSendResult := mkCanSend {
  allowed : bool;
  remaining : Z;
  sentToday : Z;
  dailyCap : Z
}.

Record RateLimitStatus := mkStatus {
  st_sentToday : Z;
  st_dailyCap : Z;
  st_remaining : Z;
  st_resetAt : Z;
  st_warning : bool
}.

(** [status IN ('sent', 'delivered')] *)
Definition statusInSentDelivered (m : ScheduledMessage) : bool :=
  match status m with sent | delivered => true | _ => false end.

Section Limiter.
(** The integer that the ORM keeps in the [sent_at] column for an instant
    (the codec of drizzle's [integer('sent_at', { mode: 'timestamp' })]).  The
    codec is the library's; the count's raw SQL is the one place that sees the
    stored integer instead of the instant. *)
Variable sentAtColumn : Z -> Z.
Variable daily_cap : Z.
Variable warn_threshold_pct : Z.

(** The WHERE clause of the count:
    [sent_at >= todayStartMs AND status IN ('sent', 'delivered')]. *)
Definition sentTodayWhere (todayStartMs : Z) (m : ScheduledMessage) : bool :=
  sqlHolds (sqlAnd (sqlGe (sentAtColumn <$> sentAt m) todayStartMs)
              (Some (statusInSentDelivered m))).

(** [Math.floor(dailyCap * warnThresholdPct / 100)] *)
Definition warnThreshold : Z := (daily_cap * warn_threshold_pct) / 100.

Definition getSentTodayCount (now : Z) (db : Table) : Z :=
  let todayStartMs := getTodayIST now in
  Z.of_nat (length (List.filter (sentTodayWhere todayStartMs) db)).

Definition canSend (now : Z) (db : Table) : CanSendResult :=
  let sentToday := getSentTodayCount now db in
  let remaining := Z.max 0 (daily_cap - sentToday) in
  mkCanSend (sentToday <? daily_cap) remaining sentToday daily_cap.

(** The result and the messages broadcast on the way. *)
Definition checkAndWarn (now : Z) (db : Table) : CanSendResult * list WsEvent :=
  let result := canSend now db in
  if daily_cap <=? sentToday result then
    (result, [RateLimitReached (sentToday result) daily_cap (getNextMidnightIST now)])
  else if warnThreshold <=? sentToday result then
    (result, [RateLimitWarning (sentToday result) daily_cap (remaining result)])
  else (result, []).

Definition getStatus (now : Z) (db : Table) : RateLimitStatus :=
  let sentToday := getSentTodayCount now db in
  let remaining := Z.max 0 (daily_cap - sentToday) in
  mkStatus sentToday daily_cap remaining (getNextMidnightIST now) (warnThreshold <=? sentToday).

End Limiter.

(** *** The rate window as the specification words it *)

(** SentAt within [[lo, hi)] (no upper end when [hi] is [None]) and a status
    of [sent] or [delivered]. *)
Definition countedIn (lo : Z) (hi : option Z) (m : ScheduledMessage) : Prop :=
  match sentAt m with
  | Some t => lo <= t /\ match hi with Some h => t < h | None => True end
  | None => False
  end /\ (status m = sent \/ status m = delivered).

#[global] Instance countedIn_dec lo hi m : Decision (countedIn lo hi m).
Proof. unfold countedIn. destruct (sentAt m), hi; apply _. Defined.

(** The number of intents of the current IST day,
    [[IST-midnight, IST-midnight + 24h)]. *)
Definition sentInCurrentISTDay (now : Z) (db : Table) : Z :=
  Z.of_nat (length (filter (countedIn (getTodayIST now) (Some (getTodayIST now + dayMs))) db)).

End RateLimiter.

(** ** scheduler/jobs.ts: the BullMQ queue *)
Module Jobs.

(** The delayed jobs that are waiting, by job id, each with its delay. *)
Definition Queue := gmap string Z.

Definition jobId (messageId : string) : string := "msg-" +:+ messageId.

(** [queue.add('send', ..., { delay: Math.max(0, delay), jobId })]; BullMQ
    ignores an [add] whose job id is already in the queue. *)
Definition scheduleOneTimeJob (messageId : string) (delay : Z) (q : gmap string Z)
    : gmap string Z :=
  match q !! jobId messageId with
  | Some _ => q
  | None => <[jobId messageId := Z.max 0 delay]> q
  end.

(** [const job = await queue.getJob(id); if (job) await job.remove()] *)
Definition cancelJob (messageId : string) (q : gmap string Z) : gmap string Z :=
  match q !! jobId messageId with
  | Some _ => delete (jobId messageId) q
  | None => q
  end.

Definition rescheduleJob (messageId : string) (newDelay : Z) (q : gmap string Z)
    : gmap string Z :=
  scheduleOneTimeJob messageId newDelay (cancelJob messageId q).

(** What the [failed] handler reads of a job. *)
Record Job := mkJob {
  scheduledMessageId : option string;
  attemptsMade : option Z
}.

End Jobs.

(** ** scheduler/worker.ts *)
Module Dispatcher.
Import Store.

Record Contact := mkContact {
  contact_id : string;
  phone : string
}.

(** JavaScript truthiness of a nullable text column: null and the empty
    string are falsy. *)
Definition truthy (o : option string) : bool :=
  match o with
  | Some s => negb (String.eqb s "")
  | None => false
  end.

(** [s.replace('+', '')]: the first occurrence only. *)
Fixpoint replacePlus (s : string) : string :=
  match s with
  | EmptyString => EmptyString
  | String c rest => if Ascii.eqb c "+"%char then rest else String c (replacePlus rest)
  end.

(** The call handed to [sock.sendMessage]: the address and the three columns
    [buildMessagePayload] builds the payload from. *)
Record SendRequest := mkSendRequest {
  jid : string;
  payloadContent : string;
  payloadMediaUrl : option string;
  payloadMediaType : option string
}.

(** How the first segment of [processSendJob] ends. *)
Inductive SendStep :=
| Returned (db' : Table) (events : list WsEvent)
    (** the job returned without sending *)
| Threw (message : string)
    (** the job raised: BullMQ fails this attempt *)
| AwaitingSend (msg : ScheduledMessage) (req : SendRequest)
    (** [sock.sendMessage] was called and is awaited; [msg] is the row as read *).

Definition capReason (sentToday dailyCap : Z) : string :=
  "Daily message cap reached (" +:+ pretty sentToday +:+ "/" +:+ pretty dailyCap +:+ ")".

Section Worker.
Variable sentAtColumn : Z -> Z.
Variable daily_cap : Z.
Variable warn_threshold_pct : Z.

(** [processSendJob] up to the [await sock.sendMessage(jid, payload)].
    [socket] is what [getSocket()] returns at that moment. *)
Definition processSendJob_begin (now : Z) (socket : option nat) (contacts : list Contact)
    (db : Table) (scheduledMessageId : string) : SendStep :=
  match selectGet (eq_id scheduledMessageId) db with
  | None => Returned db []
  | Some msg =>
    if eq_status cancelled msg then Returned db []
    else
      let r := RateLimiter.canSend sentAtColumn daily_cap now db in
      if negb (RateLimiter.allowed r) then
        let reason := capReason (RateLimiter.sentToday r) (RateLimiter.dailyCap r) in
        let db1 :=
          updateRun (eq_id (id msg))
            (fun m => with_updatedAt now (with_failureReason (Some reason)
                        (with_failedAt (Some now) (with_status failed m)))) db in
        Returned db1
          (MessageFailed (id msg) reason now
             :: snd (RateLimiter.checkAndWarn sentAtColumn daily_cap warn_threshold_pct now db1))
      else
        let resolved :=
          if truthy (groupId msg) then inr (default "" (groupId msg))
          else if truthy (contactId msg) then
            match List.find (fun c => String.eqb (contact_id c) (default "" (contactId msg)))
                    contacts with
            | Some contact => inr (replacePlus (phone contact) +:+ "@s.whatsapp.net")
            | None => inl ("Contact " +:+ default "" (contactId msg) +:+ " not found")
            end
          else inl "Message has neither contactId nor groupId" in
        match resolved with
        | inl e => Threw e
        | inr jid =>
          match socket with
          | None => Threw "WhatsApp not connected"
          | Some _ =>
            AwaitingSend msg (mkSendRequest jid (content msg) (mediaUrl msg) (mediaType msg))
          end
        end
  end.

(** [processSendJob] after [sock.sendMessage] resolved with [result]
    ([result?.key?.id ?? null]), up to the pacing sleep, which nothing follows.
    [msg] is the row read by the first segment, not re-read. *)
Definition processSendJob_resume (now : Z) (msg : ScheduledMessage) (result : option string)
    (db : Table) : Table * list WsEvent :=
  let db1 :=
    updateRun (eq_id (id msg))
      (fun m => with_updatedAt now (with_attempts (attempts msg + 1)
                  (with_sentAt (Some now) (with_whatsappMessageId result
                     (with_status sent m))))) db in
  (db1, MessageSent (id msg) now
          :: snd (RateLimiter.checkAndWarn sentAtColumn daily_cap warn_threshold_pct now db1)).

End Worker.

(** [worker.on('failed', (job, error) => ...)], in single-tenant mode where
    [resolveContext] always answers. *)
Definition onFailed (now : Z) (job : option Jobs.Job) (errorMessage : string) (db : Table)
    : Table * list WsEvent :=
  match job with
  | None => (db, [])
  | Some j =>
    match Jobs.scheduledMessageId j with
    | None => (db, [])
    | Some messageId =>
      if String.eqb messageId "" then (db, [])
      else
        (updateRun (eq_id messageId)
           (fun m => with_updatedAt now (with_attempts (default 0 (Jobs.attemptsMade j) + 1)
                       (with_failureReason (Some errorMessage)
                          (with_failedAt (Some now) (with_status failed m))))) db,
         [MessageFailed messageId errorMessage now])
    end
  end.

End Dispatcher.

(** ** The scheduling service: messages *)
Module SchedulingService.
Import Store.

(** [cancelMessage]: the conditional update, then the job removal. *)
Definition cancelMessage (now : Z) (messageId : string) (db : Table) (q : gmap string Z)
    : Table * gmap string Z * option ScheduledMessage :=
  let '(db1, msg) :=
    updateReturningGet (fun m => eq_id messageId m && eq_status pending m)
      (fun m => with_updatedAt now (with_status cancelled m)) db in
  match msg with
  | None => (db1, q, None)
  | Some m => (db1, Jobs.cancelJob messageId q, Some m)
  end.

(** [retryMessage]: the conditional update, then an immediate job. *)
Definition retryMessage (now : Z) (messageId : string) (db : Table) (q : gmap string Z)
    : Table * gmap string Z * option ScheduledMessage :=
  let '(db1, msg) :=
    updateReturningGet (fun m => eq_id messageId m && eq_status failed m)
      (fun m => with_updatedAt now (with_scheduledAt now (with_failureReason None
                  (with_failedAt None (with_attempts 0 (with_status pending m)))))) db in
  match msg with
  | None => (db1, q, None)
  | Some m => (db1, Jobs.scheduleOneTimeJob messageId 0 q, Some m)
  end.

End SchedulingService.

(** ** delivery/delivery.listener.ts *)
Module DeliveryListener.
Import Store.

(** One element of a [messages.update] batch: [key.id] and [update.status]. *)
Record MessageUpdate := mkMessageUpdate {
  key_id : option string;
  update_status : option Z
}.

(** The body of the loop for one element; [now] is its [new Date()]. *)
Definition onMessageUpdate (now : Z) (u : MessageUpdate) (db : Table)
    : Table * list WsEvent :=
  match update_status u, key_id u with
  | Some st, Some kid =>
    if (st =? 0) || String.eqb kid "" then (db, [])
    else if st =? 3 then
      let '(db1, msg) :=
        updateReturningGet (fun m => bool_decide (whatsappMessageId m = Some kid))
          (fun m => with_updatedAt now (with_deliveredAt (Some now)
                      (with_status delivered m))) db in
      match msg with
      | Some m => (db1, [MessageStatusDelivered (id m) now])
      | None => (db1, [])
      end
    else (db, [])
  | _, _ => (db, [])
  end.

(** The handler of a whole batch; each element comes with the instant its
    iteration reads from the clock. *)
Fixpoint onMessagesUpdate (updates : list (Z * MessageUpdate)) (db : Table)
    : Table * list WsEvent :=
  match updates with
  | [] => (db, [])
  | (now, u) :: rest =>
    let '(db1, ev1) := onMessageUpdate now u db in
    let '(db2, ev2) := onMessagesUpdate rest db1 in
    (db2, ev1 ++ ev2)
  end.

End DeliveryListener.

(** ** bridge/reconnect.ts *)
Module Reconnect.

(** JavaScript numbers are taken as exact rationals. *)
Record BackoffConfig := mkBackoffConfig {
  baseDelayMs : Q;
  maxDelayMs : Q
}.

(** [random] is the value [Math.random()] returns, in [[0, 1)]. *)
Definition calculateBackoff (attempt : nat) (config : BackoffConfig) (random : Q) : Q :=
  let exponentialDelay :=
    Qmin (baseDelayMs config * inject_Z (2 ^ Z.of_nat attempt))%Q (maxDelayMs config) in
  let jitterFactor := (1 + (random * 2 - 1) * 0.2)%Q in
  (exponentialDelay * jitterFactor)%Q.

(** [Date.now() - retryStartedAt.getTime() > maxRetryMs] *)
Definition isRetryWindowExhausted (now retryStartedAt : Z) (maxRetryMs : Q) : bool :=
  negb (Qle_bool (inject_Z (now - retryStartedAt)) maxRetryMs).

End Reconnect.

(** ** bridge/socket.ts *)
Module Bridge.

Inductive ConnectionStatus := pairing | connecting | connected | disconnected.

#[global] Instance ConnectionStatus_eq_dec : EqDecision ConnectionStatus.
Proof. solve_decision. Defined.

(** The codes of Baileys' [DisconnectReason] that the manager names, with the
    values the source annotates them with. *)
Module DisconnectReason.
Definition loggedOut : Z := 401.
Definition connectionReplaced : Z := 440.
Definition restartRequired : Z := 515.
Definition forbidden : Z := 403.
Definition connectionClosed : Z := 428.
End DisconnectReason.

(** [getHealth()]'s answer; the reason name of [lastDisconnect] is a lookup of
    its code in the library's enum and is not carried. *)
Record ConnectionHealth := mkHealth {
  h_status : ConnectionStatus;
  h_uptime : Z;
  h_connectedAt : option Z;
  h_lastDisconnect : option (Z * Z);
  h_reconnectAttempts : nat;
  h_account : option (string * string)
}.

(** What the manager does to the world outside its fields, in order. *)
Inductive Effect :=
| BroadcastStatus (h : ConnectionHealth)
| BroadcastQr (qr : string)
| SocketEnded (s : nat)
| TimerCleared
| TimerSet (delayMs : Q)
| ConnectCalled
| ConnectedCallbacks (s : nat).

(** Who awaits a [connect()] that is loading the auth state. *)
Inductive ConnectCaller := ByStart | ByReset | ByTimer.

(** The fields of [ConnectionManager], the [auth_state] table it owns, and the
    bookkeeping of the embedding: the effects so far (newest first), the
    [connect()] calls suspended at their [await], the next socket to create. *)
Record Manager := mkManager {
  sock : option nat;
  reconnectAttempt : nat;
  reconnectTimer : option Q;
  connectedAt : option Z;
  lastDisconnect : option (Z * Z);
  status : ConnectionStatus;
  retryStartedAt : option Z;
  account : option (string * string);
  authState : gmap string string;
  effects : list Effect;
  connectsInFlight : list ConnectCaller;
  nextSocket : nat
}.

Definition set_sock v (w : Manager) : Manager :=
  mkManager v (reconnectAttempt w) (reconnectTimer w) (connectedAt w) (lastDisconnect w)
    (status w) (retryStartedAt w) (account w) (authState w) (effects w)
    (connectsInFlight w) (nextSocket w).
Definition set_reconnectAttempt v (w : Manager) : Manager :=
  mkManager (sock w) v (reconnectTimer w) (connectedAt w) (lastDisconnect w)
    (status w) (retryStartedAt w) (account w) (authState w) (effects w)
    (connectsInFlight w) (nextSocket w).
Definition set_reconnectTimer v (w : Manager) : Manager :=
  mkManager (sock w) (reconnectAttempt w) v (connectedAt w) (lastDisconnect w)
    (status w) (retryStartedAt w) (account w) (authState w) (effects w)
    (connectsInFlight w) (nextSocket w).
Definition set_connectedAt v (w : Manager) : Manager :=
  mkManager (sock w) (reconnectAttempt w) (reconnectTimer w) v (lastDisconnect w)
    (status w) (retryStartedAt w) (account w) (authState w) (effects w)
    (connectsInFlight w) (nextSocket w).
Definition set_lastDisconnect v (w : Manager) : Manager :=
  mkManager (sock w) (reconnectAttempt w) (reconnectTimer w) (connectedAt w) v
    (status w) (retryStartedAt w) (account w) (authState w) (effects w)
    (connectsInFlight w) (nextSocket w).
Definition set_status v (w : Manager) : Manager :=
  mkManager (sock w) (reconnectAttempt w) (reconnectTimer w) (connectedAt w) (lastDisconnect w)
    v (retryStartedAt w) (account w) (authState w) (effects w)
    (connectsInFlight w) (nextSocket w).
Definition set_retryStartedAt v (w : Manager) : Manager :=
  mkManager (sock w) (reconnectAttempt w) (reconnectTimer w) (connectedAt w) (lastDisconnect w)
    (status w) v (account w) (authState w) (effects w)
    (connectsInFlight w) (nextSocket w).
Definition set_account v (w : Manager) : Manager :=
  mkManager (sock w) (reconnectAttempt w) (reconnectTimer w) (connectedAt w) (lastDisconnect w)
    (status w) (retryStartedAt w) v (authState w) (effects w)
    (connectsInFlight w) (nextSocket w).
Definition set_authState v (w : Manager) : Manager :=
  mkManager (sock w) (reconnectAttempt w) (reconnectTimer w) (connectedAt w) (lastDisconnect w)
    (status w) (retryStartedAt w) (account w) v (effects w)
    (connectsInFlight w) (nextSocket w).
Definition set_connectsInFlight v (w : Manager) : Manager :=
  mkManager (sock w) (reconnectAttempt w) (reconnectTimer w) (connectedAt w) (lastDisconnect w)
    (status w) (retryStartedAt w) (account w) (authState w) (effects w)
    v (nextSocket w).
Definition set_nextSocket v (w : Manager) : Manager :=
  mkManager (sock w) (reconnectAttempt w) (reconnectTimer w) (connectedAt w) (lastDisconnect w)
    (status w) (retryStartedAt w) (account w) (authState w) (effects w)
    (connectsInFlight w) v.
Definition emit (e : Effect) (w : Manager) : Manager :=
  mkManager (sock w) (reconnectAttempt w) (reconnectTimer w) (connectedAt w) (lastDisconnect w)
    (status w) (retryStartedAt w) (account w) (authState w) (e :: effects w)
    (connectsInFlight w) (nextSocket w).

(** The manager as constructed, over the credential rows found in the store. *)
Definition newManager (rows : gmap string string) : Manager :=
  mkManager None 0%nat None None None pairing None None rows [] [] 0%nat.

Definition getHealth (now : Z) (w : Manager) : ConnectionHealth :=
  mkHealth (status w)
    (match connectedAt w with Some c => (now - c) / 1000 | None => 0 end)
    (connectedAt w) (lastDisconnect w) (reconnectAttempt w) (account w).

Definition getSocket (w : Manager) : option nat := sock w.

Definition cleanupSocket (w : Manager) : Manager :=
  let w1 :=
    match reconnectTimer w with
    | Some _ => set_reconnectTimer None (emit TimerCleared w)
    | None => w
    end in
  match sock w1 with
  | Some s => set_sock None (emit (SocketEnded s) w1)
  | None => w1
  end.

(** [connect()] up to [await useSQLiteAuthState(...)]. *)
Definition connect (caller : ConnectCaller) (w : Manager) : Manager :=
  let w1 := cleanupSocket (emit ConnectCalled w) in
  set_connectsInFlight (connectsInFlight w1 ++ [caller]) w1.

(** [connect()] after the auth state was loaded: the socket is created and
    its listeners attached. *)
Definition connect_resume (w : Manager) : Manager :=
  match connectsInFlight w with
  | [] => w
  | _ :: rest =>
    set_connectsInFlight rest
      (set_nextSocket (S (nextSocket w)) (set_sock (Some (nextSocket w)) w))
  end.

Definition clearAuthState (w : Manager) : Manager := set_authState ∅ w.

Definition resetToPairing (w : Manager) : Manager :=
  connect ByReset
    (set_connectedAt None (set_account None (set_status pairing
       (set_retryStartedAt None (set_reconnectAttempt 0%nat w))))).

Definition scheduleReconnect (delayMs : Q) (w : Manager) : Manager :=
  let w1 :=
    match reconnectTimer w with
    | Some _ => emit TimerCleared w
    | None => w
    end in
  set_reconnectTimer (Some delayMs) (emit (TimerSet delayMs) w1).

Section Configured.
Variable maxRetryMs : Q.
Variable backoffConfig : Reconnect.BackoffConfig.

Definition reconnectWithBackoff (now : Z) (random : Q) (w : Manager) : Manager :=
  let w1 :=
    match retryStartedAt w with
    | None => set_retryStartedAt (Some now) w
    | Some _ => w
    end in
  if Reconnect.isRetryWindowExhausted now (default now (retryStartedAt w1)) maxRetryMs then
    resetToPairing (clearAuthState w1)
  else
    let delay := Reconnect.calculateBackoff (reconnectAttempt w1) backoffConfig random in
    let w2 := set_status connecting (set_reconnectAttempt (S (reconnectAttempt w1)) w1) in
    scheduleReconnect delay (emit (BroadcastStatus (getHealth now w2)) w2).

Definition handleDisconnect (now : Z) (random : Q) (statusCode : Z) (w : Manager) : Manager :=
  if statusCode =? DisconnectReason.loggedOut then
    resetToPairing (clearAuthState w)
  else if statusCode =? DisconnectReason.connectionReplaced then
    let w1 := set_status disconnected w in
    emit (BroadcastStatus (getHealth now w1)) w1
  else if statusCode =? DisconnectReason.restartRequired then
    scheduleReconnect 0%Q w
  else if statusCode =? DisconnectReason.forbidden then
    resetToPairing (clearAuthState w)
  else
    reconnectWithBackoff now random w.

(** A [connection.update] event of the socket. *)
Inductive Connection := conn_open | conn_close | conn_connecting.

Record ConnectionUpdate := mkUpdate {
  connection : option Connection;
  statusCode : option Z;      (** [lastDisconnect?.error?.output?.statusCode] *)
  qr : option string;
  sockUser : option (string * option string)  (** [this.sock.user]: id and name *)
}.

(** [id.split(':')[0]] *)
Fixpoint beforeColon (s : string) : string :=
  match s with
  | EmptyString => EmptyString
  | String c rest => if Ascii.eqb c ":"%char then EmptyString else String c (beforeColon rest)
  end.

(** [handleConnectionUpdate].  The two awaits of the QR branch (the data URL
    and the terminal rendering of the QR) are folded into the one segment:
    this is exact for an update that carries a QR or a connection change, not
    for one that carries both. *)
Definition handleConnectionUpdate (now : Z) (random : Q) (u : ConnectionUpdate)
    (w : Manager) : Manager :=
  let w1 :=
    match qr u with
    | Some q =>
      if String.eqb q "" then w
      else emit (BroadcastQr q) (set_reconnectAttempt 0%nat (set_status pairing w))
    | None => w
    end in
  let w2 :=
    match connection u with
    | Some conn_open =>
      let a := set_retryStartedAt None (set_reconnectAttempt 0%nat
                 (set_connectedAt (Some now) (set_status connected w1))) in
      let b :=
        match sock a, sockUser u with
        | Some _, Some (uid, uname) => set_account (Some (beforeColon uid, default "" uname)) a
        | _, _ => a
        end in
      let c := emit (BroadcastStatus (getHealth now b)) b in
      match sock c with
      | Some s => emit (ConnectedCallbacks s) c
      | None => c
      end
    | _ => w1
    end in
  match connection u with
  | Some conn_close =>
    let code := default DisconnectReason.connectionClosed (statusCode u) in
    let a := set_lastDisconnect (Some (code, now)) w2 in
    handleDisconnect now random code (emit (BroadcastStatus (getHealth now a)) a)
  | _ => w2
  end.

(** What can happen to a manager. *)
Inductive Event :=
| Start                                  (** the server calls [connect()] *)
| AuthStateLoaded                        (** a suspended [connect()] goes on *)
| AuthStateFailed (now : Z) (random : Q) (** a suspended [connect()] rejects *)
| SocketUpdate (now : Z) (random : Q) (u : ConnectionUpdate)
| TimerFired
| Destroy.

Definition step (e : Event) (w : Manager) : Manager :=
  match e with
  | Start => connect ByStart w
  | AuthStateLoaded => connect_resume w
  | AuthStateFailed now random =>
    match connectsInFlight w with
    | [] => w
    | ByTimer :: rest => reconnectWithBackoff now random (set_connectsInFlight rest w)
    | _ :: rest => set_connectsInFlight rest w
    end
  | SocketUpdate now random u =>
    (* only the current socket has listeners *)
    match sock w with
    | Some _ => handleConnectionUpdate now random u w
    | None => w
    end
  | TimerFired =>
    match reconnectTimer w with
    | Some _ => connect ByTimer (set_reconnectTimer None w)
    | None => w
    end
  | Destroy => cleanupSocket w
  end.

Definition run (events : list Event) (w : Manager) : Manager :=
  fold_left (fun acc e => step e acc) events w.

End Configured.


End Bridge.

(** ** crypto/vault.ts *)
Module Vault.

(** The functions of [node:crypto] and [Buffer] that the vault calls.  They
    are the platform's, not the repository's: the vault is embedded over any
    implementation of them. *)
Class NodeCrypto := {
  (** [Buffer.from(s, 'base64')] *)
  fromBase64 : string -> list byte;
  (** [buf.toString('base64')] *)
  toBase64 : list byte -> string;
  (** [scryptSync(password, salt, keylen)] *)
  scryptSync : string -> list byte -> nat -> list byte;
  (** [createCipheriv('aes-256-gcm', key, iv, {authTagLength})]; [update] of
      the UTF-8 plaintext, [final], [getAuthTag]: ciphertext and tag *)
  gcmEncrypt : list byte -> list byte -> nat -> string -> list byte * list byte;
  (** [createDecipheriv], [setAuthTag], [update], [final] and the UTF-8
      decoding of the result; [None] when one of them throws *)
  gcmDecrypt : list byte -> list byte -> nat -> list byte -> list byte -> option string
}.

Definition IV_LENGTH : nat := 12.
Definition TAG_LENGTH : nat := 16.
Definition SALT_LENGTH : nat := 16.
Definition KEY_LENGTH : nat := 32.

(** [s.split(':')] *)
Fixpoint split (sep : ascii) (s : string) : list string :=
  match s with
  | EmptyString => [EmptyString]
  | String c rest =>
    if Ascii.eqb c sep then EmptyString :: split sep rest
    else
      match split sep rest with
      | h :: t => String c h :: t
      | [] => [String c EmptyString]
      end
  end.

(** [parts.join(':')] *)
Fixpoint join (sep : string) (parts : list string) : string :=
  match parts with
  | [] => EmptyString
  | [p] => p
  | p :: rest => p +:+ sep +:+ join sep rest
  end.

(** [s.includes(sep)] *)
Fixpoint includes (sep : ascii) (s : string) : bool :=
  match s with
  | EmptyString => false
  | String c rest => Ascii.eqb c sep || includes sep rest
  end.

Inductive Outcome :=
| Plain (text : string)
| TypeError            (** [Buffer.from(undefined, 'base64')] *)
| DecipherError        (** raised inside [node:crypto] *).

Section WithCrypto.
Context {nc : NodeCrypto}.

Definition deriveKey (password : string) (salt : list byte) : list byte :=
  scryptSync password salt KEY_LENGTH.

(** [salt] and [iv] are what the two [randomBytes] calls return. *)
Definition encrypt (salt iv : list byte) (plaintext masterKey : string) : string :=
  let key := deriveKey masterKey salt in
  let '(encrypted, tag) := gcmEncrypt key iv TAG_LENGTH plaintext in
  join ":" [toBase64 salt; toBase64 iv; toBase64 tag; toBase64 encrypted].

(** The destructuring takes the first four parts; a part that is missing is
    [undefined], on which [Buffer.from] throws a TypeError. *)
Definition decrypt (encryptedStr masterKey : string) : Outcome :=
  match split ":" encryptedStr with
  | saltB64 :: ivB64 :: tagB64 :: dataB64 :: _ =>
    let salt := fromBase64 saltB64 in
    let iv := fromBase64 ivB64 in
    let tag := fromBase64 tagB64 in
    let encrypted := fromBase64 dataB64 in
    let key := deriveKey masterKey salt in
    match gcmDecrypt key iv TAG_LENGTH tag encrypted with
    | Some text => Plain text
    | None => DecipherError
    end
  | _ => TypeError
  end.

End WithCrypto.

(** A stand-in for the platform, used to run the vault on concrete inputs:
    buffers are written out as text, the key is the password followed by the
    salt, the tag is the key, the ciphertext is the plaintext. *)
Definition bytesOfString (s : string) : list byte :=
  List.map Ascii.byte_of_ascii (String.list_ascii_of_string s).
Definition stringOfBytes (b : list byte) : string :=
  String.string_of_list_ascii (List.map Ascii.ascii_of_byte b).

#[local] Instance byte_eq_dec : EqDecision byte := Byte.byte_eq_dec.

Definition plainCrypto : NodeCrypto := {|
  fromBase64 := bytesOfString;
  toBase64 := stringOfBytes;
  scryptSync := fun password salt _ => bytesOfString password ++ salt;
  gcmEncrypt := fun key _ _ plaintext => (bytesOfString plaintext, key);
  gcmDecrypt := fun key _ _ tag data =>
    if bool_decide (tag = key) then Some (stringOfBytes data) else None
|}.

End Vault.

(** ** The scheduling service: recurring rules *)
Module Recurring.

Record CronParams := mkCronParams {
  sendHour : option Z;
  sendMinute : option Z;
  dayOfWeek : option Z;
  dayOfMonth : option Z;
  month : option Z
}.

(** [None] is the thrown [Unknown recurring type].  Numbers are the integers
    the request schema admits; a template literal prints them in decimal. *)
Definition buildCronExpression (type : string) (params : CronParams) (defaultSendHour : Z)
    : option string :=
  let hour := default defaultSendHour (sendHour params) in
  let minute := default 0 (sendMinute params) in
  if String.eqb type "daily" then
    Some ("0 " +:+ pretty minute +:+ " " +:+ pretty hour +:+ " * * *")
  else if String.eqb type "weekly" then
    Some ("0 " +:+ pretty minute +:+ " " +:+ pretty hour +:+ " * * "
            +:+ pretty (default 1 (dayOfWeek params)))
  else if String.eqb type "monthly" then
    let day :=
      if 28 <? default 1 (dayOfMonth params) then "L"
      else pretty (default 1 (dayOfMonth params)) in
    Some ("0 " +:+ pretty minute +:+ " " +:+ pretty hour +:+ " " +:+ day +:+ " * *")
  else if String.eqb type "yearly" then
    Some ("0 " +:+ pretty minute +:+ " " +:+ pretty hour +:+ " "
            +:+ pretty (default 1 (dayOfMonth params)) +:+ " "
            +:+ pretty (default 1 (month params)) +:+ " *")
  else if String.eqb type "birthday" then
    Some ("0 " +:+ pretty minute +:+ " " +:+ pretty hour +:+ " "
            +:+ pretty (default 1 (dayOfMonth params)) +:+ " "
            +:+ pretty (default 1 (month params)) +:+ " *")
  else if String.eqb type "custom" then Some ""
  else None.

(** One row of [recurring_rules]. *)
Record RecurringRule := mkRule {
  id : string;
  contactId : string;
  type : string;
  content : string;
  cronExpression : string;
  intervalDays : option Z;
  endDate : option Z;
  maxOccurrences : option Z;
  occurrenceCount : Z;
  enabled : bool;
  lastFiredAt : option Z;
  mediaUrl : option string;
  mediaType : option string;
  createdAt : Z;
  updatedAt : Z
}.

(** The patch of [updateRecurringRule]: [None] is an absent key; a nullable
    key that is present carries [Some None] for null. *)
Record RuleUpdates := mkUpdates {
  u_content : option string;
  u_sendHour : option Z;
  u_sendMinute : option Z;
  u_dayOfWeek : option Z;
  u_dayOfMonth : option Z;
  u_month : option Z;
  u_intervalDays : option Z;
  u_endDate : option (option Z);
  u_maxOccurrences : option (option Z);
  u_enabled : option bool;
  u_mediaUrl : option (option string);
  u_mediaType : option (option string)
}.

(** The calls made on the queue's job schedulers. *)
Inductive SchedulerCall :=
| RemoveJobScheduler (schedulerId : string)
| UpsertEvery (schedulerId : string) (everyMs : Z) (endDate limit : option Z)
| UpsertPattern (schedulerId : string) (pattern : string) (endDate limit : option Z).

Inductive UpdateResult :=
| NotFound                       (** returns null *)
| UnknownType                    (** [buildCronExpression] threw *)
| Updated (rules : list RecurringRule) (rule : RecurringRule) (call : SchedulerCall).

(** [x !== undefined] *)
Definition present {A} (x : option A) : bool :=
  match x with Some _ => true | None => false end.

Definition needsCronUpdate (updates : RuleUpdates) : bool :=
  present (u_sendHour updates) || present (u_sendMinute updates)
  || present (u_dayOfWeek updates) || present (u_dayOfMonth updates)
  || present (u_month updates) || present (u_intervalDays updates).

(** The [.set(setValues)] clause: the keys of the patch that are present, the
    rebuilt cron expression when there is one, and [updatedAt]. *)
Definition applySet (now : Z) (updates : RuleUpdates) (newCron : option string)
    (r : RecurringRule) : RecurringRule :=
  mkRule (id r) (contactId r) (type r)
    (default (content r) (u_content updates))
    (default (cronExpression r) newCron)
    (match u_intervalDays updates with Some d => Some d | None => intervalDays r end)
    (default (endDate r) (u_endDate updates))
    (default (maxOccurrences r) (u_maxOccurrences updates))
    (occurrenceCount r)
    (default (enabled r) (u_enabled updates))
    (lastFiredAt r)
    (default (mediaUrl r) (u_mediaUrl updates))
    (default (mediaType r) (u_mediaType updates))
    (createdAt r) now.

Definition everyDaysName (days : Z) : string := "every-" +:+ pretty days +:+ "-days".

Section Service.
Variable defaultSendHour : Z.

Definition updateRecurringRule (now : Z) (ruleId : string) (updates : RuleUpdates)
    (rules : list RecurringRule) : UpdateResult :=
  match List.find (fun r => String.eqb (id r) ruleId) rules with
  | None => NotFound
  | Some existing =>
    let built :=
      if needsCronUpdate updates then
        match buildCronExpression (type existing)
                (mkCronParams (u_sendHour updates) (u_sendMinute updates)
                   (u_dayOfWeek updates) (u_dayOfMonth updates) (u_month updates))
                defaultSendHour with
        | None => None
        | Some newCron =>
          Some (Some (if String.eqb newCron "" then
                        everyDaysName
                          (default (default 1 (intervalDays existing)) (u_intervalDays updates))
                      else newCron))
        end
      else Some None in
    match built with
    | None => UnknownType
    | Some setCron =>
      let rules1 :=
        List.map (fun r => if String.eqb (id r) ruleId then applySet now updates setCron r
                           else r) rules in
      let rule := applySet now updates setCron existing in
      let schedulerId := "recurring-" +:+ ruleId in
      let call :=
        if bool_decide (u_enabled updates = Some false) then RemoveJobScheduler schedulerId
        else
          let cronExpr := default (cronExpression existing) setCron in
          if String.eqb (type existing) "custom" then
            UpsertEvery schedulerId
              (default (default 1 (intervalDays existing)) (u_intervalDays updates) * 86400000)
              (endDate rule) (maxOccurrences rule)
          else UpsertPattern schedulerId cronExpr (endDate rule) (maxOccurrences rule) in
      Updated rules1 rule call
    end
  end.

End Service.

(** The cron table of the specification (daily, weekly, monthly with [L] for
    a day after the 28th, yearly and birthday), over parameters that are all
    given. *)
Definition cronOf (type : string) (minute hour dayOfWeek dayOfMonth month : Z) : string :=
  let at_ := "0 " +:+ pretty minute +:+ " " +:+ pretty hour in
  if String.eqb type "daily" then at_ +:+ " * * *"
  else if String.eqb type "weekly" then at_ +:+ " * * " +:+ pretty dayOfWeek
  else if String.eqb type "monthly" then
    at_ +:+ " " +:+ (if 28 <? dayOfMonth then "L" else pretty dayOfMonth) +:+ " * *"
  else at_ +:+ " " +:+ pretty dayOfMonth +:+ " " +:+ pretty month +:+ " *".

End Recurring.

(** ** Concrete data for the examples *)
Module Examples.
Import Store.

(** A row of contact [c1] that was sent at [t] and is in status [s]. *)
Definition stamped (i : string) (s : Status) (t : option Z) : ScheduledMessage :=
  mkScheduledMessage i (Some "c1") None None "hello" 0 s (Some ("wa-" +:+ i)) t None None None
    1 None None 0 0.

(** A row of contact [c1] that waits to be sent. *)
Definition waiting (i : string) : ScheduledMessage :=
  mkScheduledMessage i (Some "c1") None None "hello" 0 pending None None None None None
    0 None None 0 0.

Definition contacts : list Dispatcher.Contact :=
  [Dispatcher.mkContact "c1" "+919876543210"].

Definition job (i : string) : Jobs.Job := Jobs.mkJob (Some i) (Some 0).

(** The codec of the [sent_at] column: db/schema.ts declares it as
    [integer('sent_at', { mode: 'timestamp' })], for which drizzle keeps the
    instant in epoch seconds, [Math.floor(date.getTime() / 1000)]. *)
Definition epochSeconds (t : Z) : Z := t / 1000.

(** The DELIVERY_ACK (status 3) of provider message [k], as the listener
    receives it. *)
Definition deliveryAck (k : string) : DeliveryListener.MessageUpdate :=
  DeliveryListener.mkMessageUpdate (Some k) (Some 3).

(** The reconnect settings of the default configuration: 30 minutes, 1 s, 60 s. *)
Definition maxRetryMs : Q := 1800000.
Definition backoffConfig : Reconnect.BackoffConfig := Reconnect.mkBackoffConfig 1000 60000.

(** A weekly rule for Fridays at 18:30. *)
Definition fridayRule : Recurring.RecurringRule :=
  Recurring.mkRule "r1" "c1" "weekly" "hello" "0 30 18 * * 5" None None None 0 true None
    None None 0 0.

(** A patch that moves the hour to 10 and says nothing else. *)
Definition hourPatch : Recurring.RuleUpdates :=
  Recurring.mkUpdates None (Some 10) None None None None None None None None None None.

(** A socket that closes with [code]. *)
Definition closeWith (code : Z) : Bridge.ConnectionUpdate :=
  Bridge.mkUpdate (Some Bridge.conn_close) (Some code) None None.

End Examples.

(** ** contacts/phone.ts *)
Module Phone.

(** A string is its sequence of code units; only ASCII digits and [+] survive
    the first replacement, so the units above 127 never matter. *)

(** [\d] *)
Definition isDigit (c : ascii) : bool :=
  (48 <=? Ascii.N_of_ascii c)%N && (Ascii.N_of_ascii c <=? 57)%N.

(** [input.replace(/[^+\d]/g, '')] *)
Fixpoint keepPlusAndDigits (s : string) : string :=
  match s with
  | EmptyString => EmptyString
  | String c rest =>
    if Ascii.eqb c "+"%char || isDigit c then String c (keepPlusAndDigits rest)
    else keepPlusAndDigits rest
  end.

(** [cleaned.replace(/^\+/, '')] *)
Definition dropLeadingPlus (s : string) : string :=
  match s with
  | String c rest => if Ascii.eqb c "+"%char then rest else s
  | EmptyString => EmptyString
  end.

(** [s.slice(n)] *)
Fixpoint slice (n : nat) (s : string) : string :=
  match n, s with
  | O, _ => s
  | S n', String _ rest => slice n' rest
  | S _, EmptyString => EmptyString
  end.

Fixpoint allDigits (s : string) : bool :=
  match s with
  | EmptyString => true
  | String c rest => isDigit c && allDigits rest
  end.

(** [/^[6-9]\d{9}$/.test(number)] *)
Definition isMobile (number : string) : bool :=
  match number with
  | String c rest =>
    (54 <=? Ascii.N_of_ascii c)%N && (Ascii.N_of_ascii c <=? 57)%N
    && Nat.eqb (String.length rest) 9 && allDigits rest
  | EmptyString => false
  end.

Inductive Normalized :=
| E164 (phone : string)
| InvalidPhoneNumber      (** [Invalid Indian phone number] *)
| InvalidMobileNumber     (** [Invalid Indian mobile number] *).

Definition normalizeIndianPhone (input : string) : Normalized :=
  let cleaned := keepPlusAndDigits input in
  let digits := dropLeadingPlus cleaned in
  let number :=
    if String.prefix "91" digits && Nat.eqb (String.length digits) 12 then Some (slice 2 digits)
    else if String.prefix "0" digits && Nat.eqb (String.length digits) 11 then Some (slice 1 digits)
    else if Nat.eqb (String.length digits) 10 then Some digits
    else None in
  match number with
  | None => InvalidPhoneNumber
  | Some n => if isMobile n then E164 ("+91" +:+ n) else InvalidMobileNumber
  end.

End Phone.

(** ** The scheduling service: contacts and one-time messages *)
Module Scheduling.
Import Store.

(** One row of [contacts]. *)
Record ContactRow := mkContactRow {
  c_id : string;
  c_phone : string;
  c_name : option string;
  c_email : option string;
  c_notes : option string;
  c_customFields : option string;
  c_birthday : option string;
  c_birthdayReminderEnabled : option bool;
  c_createdAt : Z;
  c_updatedAt : Z
}.

(** The columns of a contact that the send job reads. *)
Definition forDispatch (c : ContactRow) : Dispatcher.Contact :=
  Dispatcher.mkContact (c_id c) (c_phone c).

(** [.set({ name, updatedAt: new Date() })] *)
Definition rename (name : string) (now : Z) (c : ContactRow) : ContactRow :=
  mkContactRow (c_id c) (c_phone c) (Some name) (c_email c) (c_notes c) (c_customFields c)
    (c_birthday c) (c_birthdayReminderEnabled c) (c_createdAt c) now.

Inductive ResolveError :=
| ContactNotFound                      (** [Contact not found] *)
| RecipientRequired                    (** [contactId or phone is required] *)
| PhoneRefused (why : Phone.Normalized) (** thrown by [normalizeIndianPhone] *)
| ContactIdTaken                       (** the insert is refused by the primary key *).

(** [if (name && !contact.name)]: the update of the name of the contact found. *)
Definition fillName (now : Z) (name : option string) (found : ContactRow)
    (contacts : list ContactRow) : list ContactRow :=
  if Dispatcher.truthy name && negb (Dispatcher.truthy (c_name found)) then
    List.map (fun c => if String.eqb (c_id c) (c_id found)
                       then rename (default "" name) now c else c) contacts
  else contacts.

(** [resolveContactId]; [newId] is what [crypto.randomUUID()] returns when a
    contact is created.  The table after the call and the id, or the error
    thrown (always before any write). *)
Definition resolveContactId (now : Z) (newId : string) (contactId phone name : option string)
    (contacts : list ContactRow) : ResolveError + list ContactRow * string :=
  if Dispatcher.truthy contactId then
    match List.find (fun c => String.eqb (c_id c) (default "" contactId)) contacts with
    | None => inl ContactNotFound
    | Some contact => inr (fillName now name contact contacts, default "" contactId)
    end
  else if negb (Dispatcher.truthy phone) then inl RecipientRequired
  else
    match Phone.normalizeIndianPhone (default "" phone) with
    | Phone.E164 normalized =>
      match List.find (fun c => String.eqb (c_phone c) normalized) contacts with
      | Some existing => inr (fillName now name existing contacts, c_id existing)
      | None =>
        if existsb (fun c => String.eqb (c_id c) newId) contacts then inl ContactIdTaken
        else
          inr (contacts ++ [mkContactRow newId normalized name None None None None (Some true)
                              now now], newId)
      end
    | refused => inl (PhoneRefused refused)
    end.

(** What [scheduleMessage] throws. *)
Inductive ScheduleError :=
| NotResolved (e : ResolveError)
| DailyCapReached (sentToday dailyCap resetAt : Z)    (** the error with [statusCode] 429 *)
| MessageIdTaken                       (** the insert is refused by the primary key *).

(** How the first segment of [scheduleMessage] ends: with an error, or at
    [await scheduleOneTimeJob(queue, msg.id, delay)].  Either way the contacts
    are as [resolveContactId] left them. *)
Inductive ScheduleStep :=
| Rejected (contacts' : list ContactRow) (e : ScheduleError)
| AwaitingJob (contacts' : list ContactRow) (db' : Table) (msg : ScheduledMessage) (delay : Z).

Section Service.
Variable sentAtColumn : Z -> Z.
Variable daily_cap : Z.
Variable warn_threshold_pct : Z.

(** [scheduleMessage] with a rate limiter, up to the [await]; [scheduledAt] is
    the instant the validated string denotes.  [newContactId] and
    [newMessageId] are the two [crypto.randomUUID()] draws. *)
Definition scheduleMessage_begin (now : Z) (newContactId newMessageId : string)
    (contactId : option string) (content : string) (scheduledAt : option Z)
    (phone name mediaUrl mediaType : option string)
    (contacts : list ContactRow) (db : Table) : ScheduleStep :=
  match resolveContactId now newContactId contactId phone name contacts with
  | inl e => Rejected contacts (NotResolved e)
  | inr (contacts1, resolvedContactId) =>
    let sendAt := default now scheduledAt in
    let isImmediate :=
      match scheduledAt with None => true | Some _ => sendAt <=? now end in
    let r := RateLimiter.canSend sentAtColumn daily_cap now db in
    if isImmediate && negb (RateLimiter.allowed r) then
      Rejected contacts1
        (DailyCapReached (RateLimiter.sentToday r) (RateLimiter.dailyCap r)
           (RateLimiter.st_resetAt (RateLimiter.getStatus sentAtColumn daily_cap
                                      warn_threshold_pct now db)))
    else
      let msg :=
        mkScheduledMessage newMessageId (Some resolvedContactId) None None content sendAt
          pending None None None None None 0 mediaUrl mediaType now now in
      if existsb (eq_id newMessageId) db then Rejected contacts1 MessageIdTaken
      else AwaitingJob contacts1 (db ++ [msg]) msg (Z.max 0 (sendAt - now))
  end.

(** [scheduleMessage] once the job is in the queue: the broadcasts of
    [checkAndWarn], and the row with the limiter's status, over the table as it
    is by then. *)
Definition scheduleMessage_resume (now : Z) (msg : ScheduledMessage) (db : Table)
    : list WsEvent * (ScheduledMessage * RateLimiter.RateLimitStatus) :=
  (snd (RateLimiter.checkAndWarn sentAtColumn daily_cap warn_threshold_pct now db),
   (msg, RateLimiter.getStatus sentAtColumn daily_cap warn_threshold_pct now db)).

End Service.

(** One element of the request of [bulkScheduleMessages]; [b_scheduledAt] is
    the instant the validated string denotes. *)
Record BulkItem := mkBulkItem {
  b_contactId : option string;
  b_phone : option string;
  b_name : option string;
  b_content : string;
  b_scheduledAt : option Z;
  b_mediaUrl : option string;
  b_mediaType : option string
}.

(** What one iteration of the loop reads from outside the request: the clock,
    and the two [crypto.randomUUID()] draws. *)
Record BulkDraw := mkBulkDraw {
  draw_clock : Z;
  draw_contactId : string;
  draw_messageId : string
}.

(** [!item.scheduledAt || new Date(item.scheduledAt).getTime() <= now.getTime()] *)
Definition isImmediate (now : Z) (scheduledAt : option Z) : bool :=
  match scheduledAt with None => true | Some t => t <=? now end.

(** The error with [statusCode] 429 that the pre-check throws. *)
Record BulkCapReached := mkBulkCapReached {
  required : Z;          (** [immediateCount] *)
  remainingToday : Z;    (** [Math.max(0, remaining)] *)
  bulkSentToday : Z;
  bulkDailyCap : Z;
  bulkResetAt : Z
}.

(** What the [catch] of an iteration, or its own cap check, records. *)
Inductive ItemError :=
| ItemNotResolved (e : ResolveError)
| ItemCapReached (sentToday dailyCap : Z)   (** [Daily cap reached] *)
| ItemIdTaken                               (** the insert is refused by the primary key *).

(** How one iteration ends: in [failed], or at its
    [await scheduleOneTimeJob(queue, msg.id, delay)]. *)
Inductive ItemStep :=
| ItemFailed (contacts' : list ContactRow) (e : ItemError)
| ItemAwaitingJob (contacts' : list ContactRow) (db' : Table) (msg : ScheduledMessage)
    (delay : Z).

(** The tables and the queue, and the two lists of the answer. *)
Record BulkState := mkBulkState {
  bulkContacts : list ContactRow;
  bulkMessages : list ScheduledMessage;
  bulkQueue : gmap string Z;
  bulkScheduled : list ScheduledMessage;
  bulkFailed : list (nat * ItemError)
}.

Inductive BulkResult :=
| BulkRejected (e : BulkCapReached)
| BulkDone (final : BulkState) (events : list WsEvent)
    (rateLimit : RateLimiter.RateLimitStatus).

Section Bulk.
Variable sentAtColumn : Z -> Z.
Variable daily_cap : Z.
Variable warn_threshold_pct : Z.

(** The pre-check of [bulkScheduleMessages], before the loop. *)
Definition bulkPrecheck (now : Z) (items : list BulkItem) (db : Table)
    : option BulkCapReached :=
  let immediateCount :=
    Z.of_nat (length (List.filter (fun item => isImmediate now (b_scheduledAt item)) items)) in
  if 0 <? immediateCount then
    let r := RateLimiter.canSend sentAtColumn daily_cap now db in
    let remaining := RateLimiter.dailyCap r - RateLimiter.sentToday r in
    if negb (RateLimiter.allowed r) || (remaining <? immediateCount) then
      Some (mkBulkCapReached immediateCount (Z.max 0 remaining) (RateLimiter.sentToday r)
              (RateLimiter.dailyCap r)
              (RateLimiter.st_resetAt (RateLimiter.getStatus sentAtColumn daily_cap
                                         warn_threshold_pct now db)))
    else None
  else None.

(** One iteration, up to its [await]; [now] is the instant read before the
    loop, which every stored row carries. *)
Definition bulkItem (now : Z) (draw : BulkDraw) (item : BulkItem)
    (contacts : list ContactRow) (db : Table) : ItemStep :=
  match resolveContactId (draw_clock draw) (draw_contactId draw) (b_contactId item) (b_phone item)
          (b_name item) contacts with
  | inl e => ItemFailed contacts (ItemNotResolved e)
  | inr (contacts1, resolvedContactId) =>
    let sendAt := default now (b_scheduledAt item) in
    let r := RateLimiter.canSend sentAtColumn daily_cap (draw_clock draw) db in
    if isImmediate now (b_scheduledAt item) && negb (RateLimiter.allowed r) then
      ItemFailed contacts1 (ItemCapReached (RateLimiter.sentToday r) (RateLimiter.dailyCap r))
    else
      let msg :=
        mkScheduledMessage (draw_messageId draw) (Some resolvedContactId) None None
          (b_content item) sendAt pending None None None None None 0 (b_mediaUrl item)
          (b_mediaType item) now now in
      if existsb (eq_id (draw_messageId draw)) db then ItemFailed contacts1 ItemIdTaken
      else ItemAwaitingJob contacts1 (db ++ [msg]) msg (Z.max 0 (sendAt - draw_clock draw))
  end.

(** The loop from the element of index [i] on, when nothing else runs between
    its iterations. *)
Fixpoint bulkLoop (now : Z) (i : nat) (items : list (BulkDraw * BulkItem)) (st : BulkState)
    : BulkState :=
  match items with
  | [] => st
  | (draw, item) :: rest =>
    let st1 :=
      match bulkItem now draw item (bulkContacts st) (bulkMessages st) with
      | ItemFailed contacts1 e =>
        mkBulkState contacts1 (bulkMessages st) (bulkQueue st) (bulkScheduled st)
          (bulkFailed st ++ [(i, e)])
      | ItemAwaitingJob contacts1 db1 msg delay =>
        mkBulkState contacts1 db1 (Jobs.scheduleOneTimeJob (id msg) delay (bulkQueue st))
          (bulkScheduled st ++ [msg]) (bulkFailed st)
      end in
    bulkLoop now (S i) rest st1
  end.

(** [bulkScheduleMessages] with a rate limiter, when nothing else runs between
    its segments; [clockEnd] is the instant of the last one. *)
Definition bulkScheduleMessages (now : Z) (items : list (BulkDraw * BulkItem)) (clockEnd : Z)
    (contacts : list ContactRow) (db : Table) (q : gmap string Z) : BulkResult :=
  match bulkPrecheck now (List.map snd items) db with
  | Some e => BulkRejected e
  | None =>
    let st := bulkLoop now 0 items (mkBulkState contacts db q [] []) in
    BulkDone st
      (snd (RateLimiter.checkAndWarn sentAtColumn daily_cap warn_threshold_pct clockEnd
              (bulkMessages st)))
      (RateLimiter.getStatus sentAtColumn daily_cap warn_threshold_pct clockEnd
         (bulkMessages st))
  end.

End Bulk.

(** The patch of [editMessage]: [None] is an absent key; a nullable key that
    is present carries [Some None] for null. *)
Record MessageUpdates := mkMessageUpdates {
  e_content : option string;
  e_scheduledAt : option Z;
  e_mediaUrl : option (option string);
  e_mediaType : option (option string)
}.

Definition applyEdit (now : Z) (updates : MessageUpdates) (m : ScheduledMessage)
    : ScheduledMessage :=
  mkScheduledMessage (id m) (contactId m) (groupId m) (recurringRuleId m)
    (default (content m) (e_content updates))
    (default (scheduledAt m) (e_scheduledAt updates))
    (status m) (whatsappMessageId m) (sentAt m) (deliveredAt m) (failedAt m)
    (failureReason m) (attempts m)
    (default (mediaUrl m) (e_mediaUrl updates))
    (default (mediaType m) (e_mediaType updates))
    (createdAt m) now.

(** [editMessage]: the row is read, and written if it is pending; the job is
    rescheduled when the patch carries [scheduledAt]. *)
Definition editMessage (now : Z) (messageId : string) (updates : MessageUpdates)
    (db : Table) (q : gmap string Z) : Table * gmap string Z * option ScheduledMessage :=
  match selectGet (eq_id messageId) db with
  | None => (db, q, None)
  | Some existing =>
    if negb (eq_status pending existing) then (db, q, None)
    else
      let '(db1, msg) := updateReturningGet (eq_id messageId) (applyEdit now updates) db in
      match e_scheduledAt updates with
      | Some newScheduledAt =>
        (db1, Jobs.rescheduleJob messageId (Z.max 0 (newScheduledAt - now)) q, msg)
      | None => (db1, q, msg)
      end
  end.

(** [getMessage] *)
Definition getMessage (messageId : string) (db : Table) : option ScheduledMessage :=
  selectGet (eq_id messageId) db.

End Scheduling.

(** ** Concrete data for the examples of the scheduling service *)
Module Samples.
Import Store Scheduling.

(** The contact [c1] of [Examples.contacts], as a row, without a name. *)
Definition asha : ContactRow :=
  mkContactRow "c1" "+919876543210" None None None None None (Some true) 0 0.

(** A patch that moves an intent to the instant [t] and says nothing else. *)
Definition moveTo (t : Z) : MessageUpdates := mkMessageUpdates None (Some t) None None.

(** A bulk request of two immediate sends: one to [c1], one to a phone that
    is too short; each with the clock and the draws of its iteration. *)
Definition twoSends : list (BulkDraw * BulkItem) :=
  [(mkBulkDraw 1700000000000 "c2" "m1",
    mkBulkItem (Some "c1") None None "hello" None None None);
   (mkBulkDraw 1700000000500 "c3" "m2",
    mkBulkItem None (Some "12345") None "hello" None None None)].

End Samples.

(** ** scheduler/worker.ts: the payload of a send *)
Module Payload.

(** The [AnyMessageContent] values that [buildMessagePayload] builds. *)
Inductive MessageContent :=
| Text (text : string)
| Image (url caption : string)
| Video (url caption : string)
| Audio (url mimetype : string)
| Document (url caption fileName mimetype : string).

(** [mediaUrl.split('/').pop()?.split('?')[0] ?? 'file'] *)
Definition fileNameOf (mediaUrl : string) : string :=
  default "file"
    (last (Vault.split "/" mediaUrl) ≫= fun segment => head (Vault.split "?" segment)).

Section Build.
(** [decodeURIComponent], the platform's; [None] is the URIError it throws on
    a malformed escape. *)
Variable decodeURIComponent : string -> option string.

(** [None] is the URIError thrown while the payload of a document is built. *)
Definition buildMessagePayload (content : string) (mediaUrl mediaType : option string)
    : option MessageContent :=
  if negb (Dispatcher.truthy mediaUrl) || negb (Dispatcher.truthy mediaType) then
    Some (Text content)
  else
    let url := default "" mediaUrl in
    let type := default "" mediaType in
    if String.eqb type "image" then Some (Image url content)
    else if String.eqb type "video" then Some (Video url content)
    else if String.eqb type "audio" then Some (Audio url "audio/mp4")
    else if String.eqb type "document" then
      match decodeURIComponent (fileNameOf url) with
      | Some fileName => Some (Document url content fileName "application/octet-stream")
      | None => None
      end
    else Some (Text content).

End Build.

(** What a payload shows of the text of the message: its text or its caption. *)
Definition shownText (p : MessageContent) : option string :=
  match p with
  | Text t => Some t
  | Image _ c | Video _ c | Document _ c _ _ => Some c
  | Audio _ _ => None
  end.

(** The media a payload points to. *)
Definition shownUrl (p : MessageContent) : option string :=
  match p with
  | Text _ => None
  | Image u _ | Video u _ | Audio u _ | Document u _ _ _ => Some u
  end.

End Payload.

(** ** scheduler/worker.ts: the firing of a recurring rule *)
Module RecurringWorker.
Import Store.

(** [rule.maxOccurrences && rule.occurrenceCount >= rule.maxOccurrences]:
    null and zero are falsy. *)
Definition maxReached (rule : Recurring.RecurringRule) : bool :=
  match Recurring.maxOccurrences rule with
  | Some n => negb (n =? 0) && (n <=? Recurring.occurrenceCount rule)
  | None => false
  end.

(** [.set({ enabled: false, updatedAt: new Date() })] *)
Definition disable (now : Z) (r : Recurring.RecurringRule) : Recurring.RecurringRule :=
  Recurring.mkRule (Recurring.id r) (Recurring.contactId r) (Recurring.type r)
    (Recurring.content r) (Recurring.cronExpression r) (Recurring.intervalDays r)
    (Recurring.endDate r) (Recurring.maxOccurrences r) (Recurring.occurrenceCount r)
    false (Recurring.lastFiredAt r) (Recurring.mediaUrl r) (Recurring.mediaType r)
    (Recurring.createdAt r) now.


(** [eq(recurringRules.id, x)] *)
Definition rule_is (x : string) (r : Recurring.RecurringRule) : bool :=
  String.eqb (Recurring.id r) x.

(** The broadcasts of a firing carry the rule's id; the limiter's are its own. *)
Inductive Broadcast :=
| OccurrenceFailed (messageId recurringRuleId reason : string) (at_ : Z)
| OccurrenceSent (messageId recurringRuleId : string) (at_ : Z)
| FromLimiter (e : WsEvent).

Inductive FireError :=
| NotConnected       (** [WhatsApp not connected] *)
| ConstraintFailed   (** an insert refused by a key of [scheduled_messages] *)
| MalformedUri       (** the URIError of [buildMessagePayload] *).

(** How the first segment of [processRecurringSendJob] ends. *)
Inductive FireStep :=
| Returned (rules' : list Recurring.RecurringRule) (db' : Table) (events : list Broadcast)
    (** the job returned without sending *)
| Threw (db' : Table) (e : FireError)
    (** the job raised, over the table as it was by then: BullMQ fails this
        attempt *)
| AwaitingSend (rule : Recurring.RecurringRule) (now : Z) (msgId : string) (db' : Table)
    (jid : string) (payload : Payload.MessageContent)
    (** [sock.sendMessage(jid, payload)] was called and is awaited; [rule],
        [now] and [msgId] are the locals that the second segment uses *).

Section Worker.
Variable sentAtColumn : Z -> Z.
Variable daily_cap : Z.
Variable warn_threshold_pct : Z.
Variable decodeURIComponent : string -> option string.

(** [processRecurringSendJob] up to the [await sock.sendMessage(jid, payload)].
    [msgId] is what [crypto.randomUUID()] returns. *)
Definition processRecurringSendJob_begin (now : Z) (msgId : string) (socket : option nat)
    (contacts : list Dispatcher.Contact) (rules : list Recurring.RecurringRule) (db : Table)
    (recurringRuleId : string) : FireStep :=
  match List.find (rule_is recurringRuleId) rules with
  | None => Returned rules db []
  | Some rule =>
    if negb (Recurring.enabled rule) then Returned rules db []
    else if maxReached rule then
      Returned (List.map (fun r => if rule_is recurringRuleId r then disable now r else r) rules)
        db []
    else
      let r := RateLimiter.canSend sentAtColumn daily_cap now db in
      let known :=
        existsb (fun c => String.eqb (Dispatcher.contact_id c) (Recurring.contactId rule))
          contacts in
      if negb (RateLimiter.allowed r) then
        let reason :=
          Dispatcher.capReason (RateLimiter.sentToday r) (RateLimiter.dailyCap r) in
        let row :=
          mkScheduledMessage msgId (Some (Recurring.contactId rule)) None
            (Some (Recurring.id rule)) (Recurring.content rule) now failed None None None
            (Some now) (Some reason) 0 None None now now in
        if existsb (eq_id msgId) db || negb known then Threw db ConstraintFailed
        else
          let db1 := db ++ [row] in
          Returned rules db1
            (OccurrenceFailed msgId (Recurring.id rule) reason now
               :: List.map FromLimiter
                    (snd (RateLimiter.checkAndWarn sentAtColumn daily_cap warn_threshold_pct
                            now db1)))
      else
        match List.find (fun c => String.eqb (Dispatcher.contact_id c)
                                    (Recurring.contactId rule)) contacts with
        | None => Returned rules db []
        | Some contact =>
          match socket with
          | None => Threw db NotConnected
          | Some _ =>
            let row :=
              mkScheduledMessage msgId (Some (Recurring.contactId rule)) None
                (Some (Recurring.id rule)) (Recurring.content rule) now pending None None None
                None None 0 (Recurring.mediaUrl rule) (Recurring.mediaType rule) now now in
            if existsb (eq_id msgId) db then Threw db ConstraintFailed
            else
              let jid :=
                Dispatcher.replacePlus (Dispatcher.phone contact) +:+ "@s.whatsapp.net" in
              match Payload.buildMessagePayload decodeURIComponent (Recurring.content rule)
                      (Recurring.mediaUrl rule) (Recurring.mediaType rule) with
              | None => Threw (db ++ [row]) MalformedUri
              | Some payload => AwaitingSend rule now msgId (db ++ [row]) jid payload
              end
          end
        end
  end.


End Worker.

(** The data of a job that a rule's scheduler produces
    ([{ recurringRuleId, tenantId }]), as the [failed] handler reads it. *)
Definition recurringJob (attemptsMade : option Z) : Jobs.Job := Jobs.mkJob None attemptsMade.

End RecurringWorker.

(** ** The scheduling service: creating and deleting recurring rules *)
Module RecurringLifecycle.
Import Recurring.




Section Service.
Variable defaultSendHour : Z.


End Service.

(** [deleteRecurringRule]: the rule is disabled, not removed; its scheduler is
    removed when there was a rule. *)
Definition deleteRecurringRule (now : Z) (ruleId : string) (rules : list RecurringRule)
    : list RecurringRule * option (RecurringRule * SchedulerCall) :=
  let rules1 :=
    List.map (fun r => if RecurringWorker.rule_is ruleId r
                       then RecurringWorker.disable now r else r) rules in
  match List.find (RecurringWorker.rule_is ruleId) rules with
  | None => (rules1, None)
  | Some rule =>
    (rules1, Some (RecurringWorker.disable now rule,
                   RemoveJobScheduler ("recurring-" +:+ ruleId)))
  end.

(** [getRecurringRule] *)
Definition getRecurringRule (ruleId : string) (rules : list RecurringRule)
    : option RecurringRule :=
  List.find (RecurringWorker.rule_is ruleId) rules.

End RecurringLifecycle.

(** ** Concrete data for the examples of the recurring rules *)
Module RuleSamples.

(** A stand-in for the platform's [decodeURIComponent], used to run the
    worker on concrete inputs: a string without [%] is its own decoding, any
    other is refused. *)
Definition noEscapes (s : string) : option string :=
  if Vault.includes "%" s then None else Some s.



End RuleSamples.

(** ** bridge/socket.ts: what holds of the manager between two events *)
Module BridgeInvariant.
Import Bridge.

(** At most one [connect()] is suspended, and only while the manager holds no
    socket and no timer; the sockets created so far are numbered below
    [nextSocket], and each of them is the current one or has been ended. *)
Definition settled (w : Manager) : Prop :=
  (length (connectsInFlight w) <= 1)%nat
  /\ (connectsInFlight w <> [] -> sock w = None /\ reconnectTimer w = None)
  /\ (forall s, sock w = Some s -> (s < nextSocket w)%nat)
  /\ (forall s, (s < nextSocket w)%nat -> sock w = Some s \/ In (SocketEnded s) (effects w)).

(** A step that keeps the fields the invariant reads, but for the effects,
    which grow. *)
Definition sameSockets (w w' : Manager) : Prop :=
  sock w' = sock w /\ reconnectTimer w' = reconnectTimer w
  /\ connectsInFlight w' = connectsInFlight w /\ nextSocket w' = nextSocket w
  /\ forall e, In e (effects w) -> In e (effects w').

End BridgeInvariant.

(** ** delivery/delivery.listener.ts: what a batch can do to an intent *)
Module DeliveryMarks.
Import Store DeliveryListener.

(** Nothing, or the mark of one of the batch's acks (status 3) of the intent's
    provider id: [delivered], with [deliveredAt] and [updatedAt] at the ack's
    instant, every other field as before. *)
Definition touched (updates : list (Z * MessageUpdate)) (m m' : ScheduledMessage) : Prop :=
  m' = m
  \/ exists now k,
       In (now, mkMessageUpdate (Some k) (Some 3)) updates
       /\ whatsappMessageId m = Some k
       /\ m' = with_updatedAt now (with_deliveredAt (Some now) (with_status delivered m)).

End DeliveryMarks.

(* ===================================================================== *)
(** * Part II: properties                                                 *)
(* ===================================================================== *)

(** ** The table's queries *)
Section StoreLemmas.
Import Store.

Lemma eq_id_true i m : eq_id i m = true <-> id m = i.
Proof. unfold eq_id. apply String.eqb_eq. Qed.

Lemma selectGet_cons w a db :
  selectGet w (a :: db) = if w a then Some a else selectGet w db.
Proof. unfold selectGet. simpl. destruct (w a); reflexivity. Qed.

Lemma selectGet_Some w db m : selectGet w db = Some m -> In m db /\ w m = true.
Proof.
  induction db as [|a db IH]; [discriminate|].
  rewrite selectGet_cons. destruct (w a) eqn:Ha.
  - intros [= <-]. split; [now left | assumption].
  - intros H. destruct (IH H). split; [now right | assumption].
Qed.

(** Under the primary key, the row [selectGet] finds is the only one of its id. *)
Lemma primary_key_unique db i m :
  NoDup (List.map id db) -> selectGet (eq_id i) db = Some m ->
  forall r, In r db -> eq_id i r = true -> r = m.
Proof.
  induction db as [|a db IH]; [discriminate|].
  cbn [List.map]. intros Hnd. apply NoDup_cons in Hnd as [Hnotin Hnd].
  rewrite selectGet_cons. destruct (eq_id i a) eqn:Ha.
  - intros [= <-] r [->|Hin] Hr; [reflexivity|].
    exfalso. apply Hnotin. apply eq_id_true in Ha, Hr. rewrite Ha, <- Hr.
    apply list_elem_of_In, in_map, Hin.
  - intros Hsel r [->|Hin] Hr; [congruence|]. now apply IH.
Qed.

Lemma updateRun_untouched w s db :
  (forall r, In r db -> w r = false) -> updateRun w s db = db.
Proof.
  induction db as [|a db IH]; [reflexivity|]. intros H. cbn.
  rewrite (H a) by now left. f_equal. apply IH. intros r Hr. apply H. now right.
Qed.

Lemma filter_untouched w (db : Table) :
  (forall r, In r db -> w r = false) -> List.filter w db = [].
Proof.
  induction db as [|a db IH]; [reflexivity|]. intros H. cbn.
  rewrite (H a) by now left. apply IH. intros r Hr. apply H. now right.
Qed.

(** A write guarded by the id and a condition [p], seen through the id. *)
Lemma selectGet_updateRun i p s db m :
  (forall r, id (s r) = id r) ->
  selectGet (eq_id i) db = Some m ->
  selectGet (eq_id i) (updateRun (fun r => eq_id i r && p r) s db)
  = Some (if p m then s m else m).
Proof.
  intros Hid. induction db as [|a db IH]; [discriminate|].
  cbn [updateRun List.map]. rewrite !selectGet_cons.
  destruct (eq_id i a) eqn:Ha; cbn [andb].
  - intros [= <-]. destruct (p a).
    + assert (eq_id i (s a) = true) as -> by (apply eq_id_true; rewrite Hid; now apply eq_id_true).
      reflexivity.
    + now rewrite Ha.
  - rewrite Ha. apply IH.
Qed.

(** The same write does not show through another id. *)
Lemma selectGet_updateRun_other i j p s db :
  (forall r, id (s r) = id r) -> j <> i ->
  selectGet (eq_id j) (updateRun (fun r => eq_id i r && p r) s db) = selectGet (eq_id j) db.
Proof.
  intros Hid Hne. induction db as [|a db IH]; [reflexivity|].
  cbn [updateRun List.map]. rewrite !selectGet_cons.
  destruct (eq_id i a) eqn:Ha; cbn [andb].
  - assert (eq_id j a = false) as Hja.
    { destruct (eq_id j a) eqn:E; [|reflexivity].
      apply eq_id_true in Ha, E. congruence. }
    destruct (p a).
    + assert (eq_id j (s a) = false) as ->; [|now rewrite Hja].
      unfold eq_id in *. now rewrite Hid.
    + now rewrite Hja.
  - destruct (eq_id j a); [reflexivity | apply IH].
Qed.

Lemma returning_first i (p : ScheduledMessage -> bool)
    (s : ScheduledMessage -> ScheduledMessage) (db : Table) m :
  selectGet (eq_id i) db = Some m -> p m = true ->
  head (List.map s (List.filter (fun r => eq_id i r && p r) db)) = Some (s m).
Proof.
  induction db as [|a db IH]; [discriminate|].
  rewrite selectGet_cons. cbn [List.filter].
  destruct (eq_id i a) eqn:Ha; cbn [andb].
  - intros [= <-] ->. reflexivity.
  - intros. now apply IH.
Qed.

End StoreLemmas.

(** ** Cancel, retry and the send job *)
Section CancelAndDispatch.
Import Store Dispatcher SchedulingService Examples.

Lemma with_cancelled_id now r : id (with_updatedAt now (with_status cancelled r)) = id r.
Proof. reflexivity. Qed.

(** [cancelMessage] when no row of that id is pending: nothing is written,
    the job is left alone, the answer is null. *)
Lemma cancelMessage_not_pending now i (db : Table) q :
  (forall r, In r db -> eq_id i r = true -> status r <> pending) ->
  cancelMessage now i db q = (db, q, None).
Proof.
  intros H. unfold cancelMessage, updateReturningGet.
  assert (forall r, In r db -> eq_id i r && eq_status pending r = false) as Hw.
  { intros r Hr. destruct (eq_id i r) eqn:E; [|reflexivity]. cbn.
    unfold eq_status. apply bool_decide_eq_false. now apply H. }
  now rewrite updateRun_untouched, filter_untouched.
Qed.

(** [retryMessage] when no row of that id is failed. *)
Lemma retryMessage_not_failed now i (db : Table) q :
  (forall r, In r db -> eq_id i r = true -> status r <> failed) ->
  retryMessage now i db q = (db, q, None).
Proof.
  intros H. unfold retryMessage, updateReturningGet.
  assert (forall r, In r db -> eq_id i r && eq_status failed r = false) as Hw.
  { intros r Hr. destruct (eq_id i r) eqn:E; [|reflexivity]. cbn.
    unfold eq_status. apply bool_decide_eq_false. now apply H. }
  now rewrite updateRun_untouched, filter_untouched.
Qed.

(** The send job that reads a cancelled row returns at once. *)
Lemma processSendJob_reads_cancelled col cap pct now socket cs db i m :
  selectGet (eq_id i) db = Some m -> status m = cancelled ->
  processSendJob_begin col cap pct now socket cs db i = Returned db [].
Proof.
  intros Hsel Hst. unfold processSendJob_begin. rewrite Hsel.
  unfold eq_status. now rewrite bool_decide_eq_true_2.
Qed.

(** C2 (as amended): [cancelMessage] is one conditional update.  On a pending
    intent it writes [cancelled], removes the job and returns the row; no other
    intent changes; and a send job that reads the intent after that commit
    returns without a provider call and without a write, so the status stays
    [cancelled].  On an intent that is absent or not pending it changes nothing
    and returns null. *)
Theorem cancel_is_conditional_and_wins_before_the_read
    (now : Z) (i : string) (db : Table) (q : gmap string Z) :
  NoDup (List.map id db) ->
  (forall m, selectGet (eq_id i) db = Some m -> status m = pending ->
     exists db',
       cancelMessage now i db q
       = (db', Jobs.cancelJob i q, Some (with_updatedAt now (with_status cancelled m)))
       /\ Jobs.cancelJob i q !! Jobs.jobId i = None
       /\ selectGet (eq_id i) db' = Some (with_updatedAt now (with_status cancelled m))
       /\ (forall j, j <> i -> selectGet (eq_id j) db' = selectGet (eq_id j) db)
       /\ forall col cap pct now' socket cs,
            processSendJob_begin col cap pct now' socket cs db' i = Returned db' [])
  /\ ((forall m, selectGet (eq_id i) db = Some m -> status m <> pending) ->
      cancelMessage now i db q = (db, q, None)).
Proof.
  intros Hnd. split.
  - intros m Hsel Hst.
    exists (updateRun (fun r => eq_id i r && eq_status pending r)
              (fun r => with_updatedAt now (with_status cancelled r)) db).
    assert (eq_status pending m = true) as Hp
      by (unfold eq_status; now apply bool_decide_eq_true_2).
    pose proof (selectGet_updateRun i (eq_status pending) _ db m (with_cancelled_id now) Hsel)
      as Hsel'.
    rewrite Hp in Hsel'.
    repeat split.
    + unfold cancelMessage, updateReturningGet.
      now rewrite (returning_first i (eq_status pending) _ db m Hsel Hp).
    + unfold Jobs.cancelJob. destruct (q !! Jobs.jobId i) eqn:E; [|assumption].
      apply lookup_delete_eq.
    + exact Hsel'.
    + intros j Hj. now apply selectGet_updateRun_other.
    + intros. now apply (processSendJob_reads_cancelled _ _ _ _ _ _ _ _ _ Hsel').
  - intros H. apply cancelMessage_not_pending. intros r Hr Hi.
    destruct (selectGet (eq_id i) db) as [m|] eqn:Hsel.
    + rewrite (primary_key_unique db i m Hnd Hsel r Hr Hi). now apply H.
    + exfalso. unfold selectGet in Hsel.
      assert (In r (List.filter (eq_id i) db)) as Hin by (apply filter_In; tauto).
      destruct (List.filter (eq_id i) db); [destruct Hin | discriminate].
Qed.

(** Witness of C2's theorem: one pending intent [a]. *)
Lemma cancel_is_conditional_and_wins_before_the_read_witness :
  (forall m, selectGet (eq_id "a") [waiting "a"] = Some m -> status m = pending ->
     exists db',
       cancelMessage 2000 "a" [waiting "a"] ∅
       = (db', Jobs.cancelJob "a" ∅, Some (with_updatedAt 2000 (with_status cancelled m)))
       /\ Jobs.cancelJob "a" ∅ !! Jobs.jobId "a" = None
       /\ selectGet (eq_id "a") db' = Some (with_updatedAt 2000 (with_status cancelled m))
       /\ (forall j, j <> "a" -> selectGet (eq_id j) db' = selectGet (eq_id j) [waiting "a"])
       /\ forall col cap pct now' socket cs,
            processSendJob_begin col cap pct now' socket cs db' "a" = Returned db' [])
  /\ ((forall m, selectGet (eq_id "a") [waiting "a"] = Some m -> status m <> pending) ->
      cancelMessage 2000 "a" [waiting "a"] ∅ = ([waiting "a"], ∅, None)).
Proof.
  apply (cancel_is_conditional_and_wins_before_the_read 2000 "a" [waiting "a"] ∅).
  cbn. apply NoDup_singleton.
Defined.

(** C2 (as stated) fails: a Cancel that commits after the send job has read
    the intent, and before the job's own status update, is overwritten.  The
    job reads [pending] at 1000 and calls the provider; Cancel commits at 2000
    and returns the cancelled row; the job resumes at 3000 and writes [sent]. *)
Lemma cancel_after_the_read_is_overwritten :
  match processSendJob_begin epochSeconds 30 80 1000 (Some 0%nat) contacts [waiting "a"] "a" with
  | AwaitingSend m req =>
    jid req = "919876543210@s.whatsapp.net"
    /\ match cancelMessage 2000 "a" [waiting "a"] ∅ with
       | (db1, _, r) =>
         status <$> r = Some cancelled
         /\ status <$> selectGet (eq_id "a") db1 = Some cancelled
         /\ status <$> selectGet (eq_id "a")
                         (fst (processSendJob_resume epochSeconds 30 80 3000 m (Some "wa-1") db1))
            = Some sent
       end
  | _ => False
  end.
Proof. vm_compute. repeat split. Qed.

(** C3 (as amended): only [cancelled] is guarded by the send job: a run that
    reads a cancelled intent writes nothing, broadcasts nothing and calls no
    provider.  Cancel changes no intent that is not pending, Retry changes no
    intent that is not failed, and Retry takes a failed intent back to
    [pending]. *)
Theorem cancelled_is_sticky_and_only_retry_leaves_failed
    (now : Z) (i : string) (db : Table) (q : gmap string Z) (m : ScheduledMessage) :
  NoDup (List.map id db) ->
  selectGet (eq_id i) db = Some m ->
  (status m = cancelled ->
     forall col cap pct now' socket cs,
       processSendJob_begin col cap pct now' socket cs db i = Returned db [])
  /\ (status m <> pending -> cancelMessage now i db q = (db, q, None))
  /\ (status m <> failed -> retryMessage now i db q = (db, q, None))
  /\ (status m = failed ->
      exists db' m',
        retryMessage now i db q = (db', Jobs.scheduleOneTimeJob i 0 q, Some m')
        /\ selectGet (eq_id i) db' = Some m'
        /\ status m' = pending /\ id m' = id m).
Proof.
  intros Hnd Hsel. repeat split.
  - intros. now apply (processSendJob_reads_cancelled _ _ _ _ _ _ _ _ m).
  - intros Hst. apply cancelMessage_not_pending. intros r Hr Hi.
    now rewrite (primary_key_unique db i m Hnd Hsel r Hr Hi).
  - intros Hst. apply retryMessage_not_failed. intros r Hr Hi.
    now rewrite (primary_key_unique db i m Hnd Hsel r Hr Hi).
  - intros Hst.
    assert (eq_status failed m = true) as Hp
      by (unfold eq_status; now apply bool_decide_eq_true_2).
    eexists _, _. unfold retryMessage, updateReturningGet.
    rewrite (returning_first i (eq_status failed) _ db m Hsel Hp).
    split; [reflexivity|]. split; [|split; reflexivity].
    rewrite (selectGet_updateRun i (eq_status failed) _ db m); [now rewrite Hp | | exact Hsel].
    reflexivity.
Qed.

(** Witness of C3's theorem: one cancelled intent [a], and one failed intent
    [b] that Retry takes back to [pending]. *)
Lemma cancelled_is_sticky_and_only_retry_leaves_failed_witness :
  ((status (stamped "a" cancelled None) = cancelled ->
      forall col cap pct now' socket cs,
        processSendJob_begin col cap pct now' socket cs [stamped "a" cancelled None] "a"
        = Returned [stamped "a" cancelled None] [])
   /\ (status (stamped "a" cancelled None) <> pending ->
       cancelMessage 10 "a" [stamped "a" cancelled None] ∅
       = ([stamped "a" cancelled None], ∅, None))
   /\ (status (stamped "a" cancelled None) <> failed ->
       retryMessage 10 "a" [stamped "a" cancelled None] ∅
       = ([stamped "a" cancelled None], ∅, None))
   /\ (status (stamped "a" cancelled None) = failed ->
       exists db' m',
         retryMessage 10 "a" [stamped "a" cancelled None] ∅
         = (db', Jobs.scheduleOneTimeJob "a" 0 ∅, Some m')
         /\ selectGet (eq_id "a") db' = Some m'
         /\ status m' = pending /\ id m' = id (stamped "a" cancelled None)))
  /\ (cancelMessage 10 "b" [stamped "b" failed None] ∅ = ([stamped "b" failed None], ∅, None)
      /\ exists db' m',
           retryMessage 10 "b" [stamped "b" failed None] ∅
           = (db', Jobs.scheduleOneTimeJob "b" 0 ∅, Some m')
           /\ selectGet (eq_id "b") db' = Some m'
           /\ status m' = pending /\ id m' = id (stamped "b" failed None)).
Proof.
  split.
  - apply (cancelled_is_sticky_and_only_retry_leaves_failed 10 "a"
             [stamped "a" cancelled None] ∅ (stamped "a" cancelled None)).
    + cbn. apply NoDup_singleton.
    + reflexivity.
  - destruct (cancelled_is_sticky_and_only_retry_leaves_failed 10 "b"
                [stamped "b" failed None] ∅ (stamped "b" failed None))
      as (_ & Hcancel & _ & Hretry).
    + cbn. apply NoDup_singleton.
    + reflexivity.
    + split; [apply Hcancel; discriminate | apply Hretry; reflexivity].
Defined.

(** C3 (as stated) fails: terminal statuses are written again by dispatch
    steps.  (1) A [sent] intent whose job runs again is sent again, and its
    status, provider id, [sentAt] and attempt count are written again.
    (2) The failure handler marks a [delivered] intent [failed].  (3) An
    intent cancelled while its send is awaited, whose send then rejects, is
    marked [failed] by the failure handler. *)
Lemma terminal_statuses_are_written_again :
  match processSendJob_begin epochSeconds 30 80 1700000001000 (Some 0%nat) contacts
          [stamped "a" sent (Some 1700000000000)] "a" with
  | AwaitingSend m _ =>
    selectGet (eq_id "a")
      (fst (processSendJob_resume epochSeconds 30 80 1700000002000 m (Some "wa-2")
              [stamped "a" sent (Some 1700000000000)]))
    = Some (with_updatedAt 1700000002000 (with_attempts 2
              (with_sentAt (Some 1700000002000) (with_whatsappMessageId (Some "wa-2")
                 (stamped "a" sent (Some 1700000000000))))))
  | _ => False
  end
  /\ status <$> selectGet (eq_id "a")
                  (fst (onFailed 5 (Some (job "a")) "boom" [stamped "a" delivered (Some 1)]))
     = Some failed
  /\ match processSendJob_begin epochSeconds 30 80 1000 (Some 0%nat) contacts [waiting "a"] "a" with
     | AwaitingSend _ _ =>
       match cancelMessage 2000 "a" [waiting "a"] ∅ with
       | (db1, _, _) =>
         status <$> selectGet (eq_id "a") db1 = Some cancelled
         /\ status <$> selectGet (eq_id "a")
                         (fst (onFailed 3000 (Some (job "a")) "Connection Closed" db1))
            = Some failed
       end
     | _ => False
     end.
Proof. vm_compute. repeat split. Qed.

End CancelAndDispatch.

(** ** Delivery listener *)
Section DeliveryProperties.
Import Store DeliveryListener Examples.

Lemma map_lookup {A B} (f : A -> B) (l : list A) (n : nat) :
  List.map f l !! n = f <$> l !! n.
Proof.
  revert n. induction l as [|a l IH]; intros [|n]; cbn; try reflexivity. apply IH.
Qed.

Lemma head_map_filter {A B} (f : A -> B) (w : A -> bool) (l : list A) :
  head (List.map f (List.filter w l)) = f <$> List.find w l.
Proof.
  induction l as [|a l IH]; [reflexivity|]. cbn. destruct (w a); [reflexivity | exact IH].
Qed.

(** What one ack does to the table and what it broadcasts. *)
Lemma onMessageUpdate_ack now k db :
  k <> "" ->
  onMessageUpdate now (deliveryAck k) db
  = (List.map (fun m => if bool_decide (whatsappMessageId m = Some k)
                        then with_updatedAt now (with_deliveredAt (Some now)
                               (with_status delivered m))
                        else m) db,
     match List.find (fun m => bool_decide (whatsappMessageId m = Some k)) db with
     | Some m => [MessageStatusDelivered (id m) now]
     | None => []
     end).
Proof.
  intros Hk. unfold onMessageUpdate, deliveryAck, updateReturningGet, updateRun. cbn.
  assert (String.eqb k "" = false) as -> by now apply String.eqb_neq.
  rewrite head_map_filter.
  destruct (List.find _ db); reflexivity.
Qed.

(** C6 (as amended): a delivery ack (status 3) of provider message [k] marks
    every intent whose providerMessageID is [k] as [delivered], whatever its
    status was, stamps [deliveredAt] and [updatedAt] with the instant of the
    ack, leaves every other intent as it is, and broadcasts one event naming
    the first such intent when there is one.  A second ack of [k] keeps the
    status [delivered], stamps both instants again and broadcasts again. *)
Theorem delivery_ack_marks_by_provider_id (now now2 : Z) (k : string) (db : Table) :
  k <> "" ->
  let first := List.find (fun m => bool_decide (whatsappMessageId m = Some k)) db in
  let '(db1, ev1) := onMessageUpdate now (deliveryAck k) db in
  let '(db2, ev2) := onMessageUpdate now2 (deliveryAck k) db1 in
  (forall n m, db !! n = Some m ->
     exists m1 m2, db1 !! n = Some m1 /\ db2 !! n = Some m2
       /\ id m1 = id m /\ id m2 = id m
       /\ if decide (whatsappMessageId m = Some k)
          then status m1 = delivered /\ deliveredAt m1 = Some now /\ updatedAt m1 = now
               /\ status m2 = delivered /\ deliveredAt m2 = Some now2 /\ updatedAt m2 = now2
          else m1 = m /\ m2 = m)
  /\ ev1 = match first with Some m => [MessageStatusDelivered (id m) now] | None => [] end
  /\ ev2 = match first with Some m => [MessageStatusDelivered (id m) now2] | None => [] end.
Proof.
  intros Hk first. rewrite (onMessageUpdate_ack now k db Hk).
  rewrite (onMessageUpdate_ack now2 k _ Hk). split; [|split].
  - intros n m Hn. rewrite !map_lookup, Hn. cbn.
    eexists _, _. split; [reflexivity|]. split; [reflexivity|].
    destruct (decide (whatsappMessageId m = Some k)) as [E|E].
    + rewrite (bool_decide_eq_true_2 _ E). cbn.
      rewrite (bool_decide_eq_true_2 _ E). cbn. tauto.
    + rewrite (bool_decide_eq_false_2 _ E). rewrite (bool_decide_eq_false_2 _ E). tauto.
  - reflexivity.
  - subst first. induction db as [|a db IH]; [reflexivity|]. cbn.
    destruct (bool_decide (whatsappMessageId a = Some k)) eqn:E.
    + cbn. rewrite E. reflexivity.
    + rewrite E. exact IH.
Qed.

(** Witness of C6's theorem: a sent intent acked at 1000 and again at 2000. *)
Lemma delivery_ack_marks_by_provider_id_witness :
  let db := [stamped "a" sent (Some 500)] in
  let first := List.find (fun m => bool_decide (whatsappMessageId m = Some "wa-a")) db in
  let '(db1, ev1) := onMessageUpdate 1000 (deliveryAck "wa-a") db in
  let '(db2, ev2) := onMessageUpdate 2000 (deliveryAck "wa-a") db1 in
  (forall n m, db !! n = Some m ->
     exists m1 m2, db1 !! n = Some m1 /\ db2 !! n = Some m2
       /\ id m1 = id m /\ id m2 = id m
       /\ if decide (whatsappMessageId m = Some "wa-a")
          then status m1 = delivered /\ deliveredAt m1 = Some 1000 /\ updatedAt m1 = 1000
               /\ status m2 = delivered /\ deliveredAt m2 = Some 2000 /\ updatedAt m2 = 2000
          else m1 = m /\ m2 = m)
  /\ ev1 = match first with Some m => [MessageStatusDelivered (id m) 1000] | None => [] end
  /\ ev2 = match first with Some m => [MessageStatusDelivered (id m) 2000] | None => [] end.
Proof.
  apply (delivery_ack_marks_by_provider_id 1000 2000 "wa-a" [stamped "a" sent (Some 500)]).
  discriminate.
Defined.

(** C6 (as stated) fails.  A second ack is not a no-op: it moves [deliveredAt]
    and [updatedAt] from 1000 to 2000 and broadcasts a second event.  And an
    intent that is not [sent] is promoted too: a [failed] one becomes
    [delivered]. *)
Lemma second_ack_writes_and_broadcasts_again :
  match onMessageUpdate 1000 (deliveryAck "wa-a") [stamped "a" sent (Some 500)] with
  | (db1, ev1) =>
    match onMessageUpdate 2000 (deliveryAck "wa-a") db1 with
    | (db2, ev2) =>
      deliveredAt <$> selectGet (eq_id "a") db1 = Some (Some 1000)
      /\ deliveredAt <$> selectGet (eq_id "a") db2 = Some (Some 2000)
      /\ updatedAt <$> selectGet (eq_id "a") db1 = Some 1000
      /\ updatedAt <$> selectGet (eq_id "a") db2 = Some 2000
      /\ ev2 = [MessageStatusDelivered "a" 2000]
    end
  end
  /\ status <$> selectGet (eq_id "b")
                  (fst (onMessageUpdate 1000 (deliveryAck "wa-b")
                          [stamped "b" failed (Some 500)]))
     = Some delivered.
Proof. vm_compute. repeat split. Qed.

End DeliveryProperties.

(** ** Backoff *)
Section BackoffProperties.
Import Reconnect.
Open Scope Q_scope.

(** The jitter factor lies in [[0.8, 1.2)]. *)
Lemma jitter_bounds (random : Q) :
  0 <= random < 1 -> 0.8 <= 1 + (random * 2 - 1) * 0.2 /\ 1 + (random * 2 - 1) * 0.2 < 1.2.
Proof. intros [H0 H1]. split; lra. Qed.

Lemma scale_between (e j : Q) :
  0.8 <= j <= 1.2 ->
  (0 <= e -> 0.8 * e <= e * j <= 1.2 * e)
  /\ (e <= 0 -> 1.2 * e <= e * j <= 0.8 * e).
Proof. intros [Hl Hu]. split; intros He; split; nra. Qed.

(** C9: for every attempt number, every configuration and every jitter draw
    of [Math.random()], the delay lies between 0.8 and 1.2 times
    [min(baseDelay * 2^n, maxDelay)]; for a non-negative capped delay that is
    the closed interval from 0.8 times it to 1.2 times it. *)
Theorem backoff_within_jitter_interval (n : nat) (config : BackoffConfig) (random : Q) :
  0 <= random < 1 ->
  let capped := Qmin (baseDelayMs config * inject_Z (2 ^ Z.of_nat n)) (maxDelayMs config) in
  (Qmin (0.8 * capped) (1.2 * capped) <= calculateBackoff n config random
   /\ calculateBackoff n config random <= Qmax (0.8 * capped) (1.2 * capped))
  /\ (0 <= capped ->
      0.8 * capped <= calculateBackoff n config random <= 1.2 * capped).
Proof.
  intros Hr capped. unfold calculateBackoff. fold capped.
  destruct (jitter_bounds random Hr) as [Hl Hu].
  destruct (scale_between capped (1 + (random * 2 - 1) * 0.2)) as [Hpos Hneg]; [lra|].
  split; [|exact Hpos].
  destruct (Qlt_le_dec capped 0) as [Hc|Hc].
  - destruct (Hneg (Qlt_le_weak _ _ Hc)) as [H1 H2]. split.
    + eapply Qle_trans; [apply Q.le_min_r | exact H1].
    + eapply Qle_trans; [exact H2 | apply Q.le_max_l].
  - destruct (Hpos Hc) as [H1 H2]. split.
    + eapply Qle_trans; [apply Q.le_min_l | exact H1].
    + eapply Qle_trans; [exact H2 | apply Q.le_max_r].
Qed.

(** Witness of C9's theorem: the fourth attempt of the default configuration
    with a draw of 1/4: 8000 ms scaled by 0.9. *)
Lemma backoff_within_jitter_interval_witness :
  let capped := Qmin (1000 * inject_Z (2 ^ Z.of_nat 3)) 60000 in
  (Qmin (0.8 * capped) (1.2 * capped) <= calculateBackoff 3 Examples.backoffConfig (1 # 4)
   /\ calculateBackoff 3 Examples.backoffConfig (1 # 4) <= Qmax (0.8 * capped) (1.2 * capped))
  /\ (0 <= capped ->
      0.8 * capped <= calculateBackoff 3 Examples.backoffConfig (1 # 4) <= 1.2 * capped).
Proof.
  apply (backoff_within_jitter_interval 3 Examples.backoffConfig (1 # 4)).
  split; [discriminate | reflexivity].
Defined.

Example backoff_fourth_attempt :
  calculateBackoff 3 Examples.backoffConfig (1 # 4) == 7200.
Proof. reflexivity. Qed.

End BackoffProperties.

(** ** Connection manager *)
Section BridgeProperties.
Import Bridge.
Variable maxRetryMs : Q.
Variable backoffConfig : Reconnect.BackoffConfig.





End BridgeProperties.

Section BridgeExamples.
Import Bridge Examples.



(** C7 (the code at the failing inputs): [getSocket] answers with the socket
    in every status.  After the first [connect()] the manager is still
    [pairing] and holds socket 0; after a close with 428 it is [connecting]
    and after a close with 440 it is [disconnected], the ended socket still in
    the field [getSocket] returns. *)
Lemma getSocket_answers_outside_connected :
  (let w := run maxRetryMs backoffConfig [Start; AuthStateLoaded] (newManager ∅) in
   status w = pairing /\ getSocket w = Some 0%nat)
  /\ (let w := run maxRetryMs backoffConfig
                 [Start; AuthStateLoaded; SocketUpdate 1000 (1 # 2) (closeWith 428)]
                 (newManager ∅) in
      status w = connecting /\ getSocket w = Some 0%nat)
  /\ (let w := run maxRetryMs backoffConfig
                 [Start; AuthStateLoaded; SocketUpdate 1000 (1 # 2) (closeWith 440)]
                 (newManager ∅) in
      status w = disconnected /\ getSocket w = Some 0%nat).
Proof. vm_compute. repeat split. Qed.

End BridgeExamples.

(** ** Vault *)
Section VaultProperties.
Import Vault.
Context {nc : NodeCrypto}.

Lemma split_nonempty sep s : split sep s <> [].
Proof. destruct s as [|c s]; cbn; [discriminate|]. destruct (Ascii.eqb c sep), (split sep s); discriminate. Qed.

(** No part of a split contains the separator. *)
Lemma split_parts_free sep s : Forall (fun p => includes sep p = false) (split sep s).
Proof.
  induction s as [|c s IH]; cbn.
  - repeat constructor.
  - destruct (Ascii.eqb c sep) eqn:E.
    + constructor; [reflexivity | exact IH].
    + destruct (split sep s) as [|h t]; [repeat constructor; cbn; now rewrite E|].
      apply Forall_cons in IH as [Hh Ht]. constructor; [|exact Ht].
      cbn. now rewrite E.
Qed.

(** A part followed by the separator splits off. *)
Lemma split_part sep p rest :
  includes sep p = false -> split sep (p +:+ String sep rest) = p :: split sep rest.
Proof.
  induction p as [|c p IH].
  - intros _. change ("" +:+ String sep rest) with (String sep rest).
    cbn. now rewrite Ascii.eqb_refl.
  - intros H. cbn in H. apply orb_false_iff in H as [Hc Hp].
    change (String c p +:+ String sep rest) with (String c (p +:+ String sep rest)).
    cbn [split]. rewrite Hc, (IH Hp). reflexivity.
Qed.

Lemma split_last sep p : includes sep p = false -> split sep p = [p].
Proof.
  induction p as [|c p IH]; cbn; [reflexivity|].
  intros H. apply orb_false_iff in H as [Hc Hp]. now rewrite Hc, (IH Hp).
Qed.

(** Joining four parts of a split and splitting again gives the four parts. *)
Lemma split_join4 s a b c d rest :
  split ":" s = a :: b :: c :: d :: rest ->
  split ":" (join ":" [a; b; c; d]) = [a; b; c; d].
Proof.
  intros Hs. pose proof (split_parts_free ":" s) as Hf. rewrite Hs in Hf.
  apply Forall_cons in Hf as [Ha Hf]. apply Forall_cons in Hf as [Hb Hf].
  apply Forall_cons in Hf as [Hc Hf]. apply Forall_cons in Hf as [Hd _].
  cbn [join].
  change (a +:+ ":" +:+ b +:+ ":" +:+ c +:+ ":" +:+ d)
    with (a +:+ String ":" (b +:+ String ":" (c +:+ String ":" d))).
  now rewrite !split_part, split_last.
Qed.

(** C8 (as amended): [decrypt] validates nothing itself.  An input with fewer
    than four colon-separated parts fails with a TypeError before any key is
    derived.  An input with four parts or more goes to the cipher whatever the
    sizes of its parts: the parts after the fourth are ignored, and the outcome
    is the cipher's on the decoded first four. *)
Theorem decrypt_rejects_only_missing_parts (encryptedStr masterKey : string) :
  ((length (split ":" encryptedStr) < 4)%nat -> decrypt encryptedStr masterKey = TypeError)
  /\ (forall a b c d rest, split ":" encryptedStr = a :: b :: c :: d :: rest ->
      decrypt encryptedStr masterKey = decrypt (join ":" [a; b; c; d]) masterKey
      /\ decrypt encryptedStr masterKey
         = match gcmDecrypt (deriveKey masterKey (fromBase64 a)) (fromBase64 b) TAG_LENGTH
                   (fromBase64 c) (fromBase64 d) with
           | Some text => Plain text
           | None => DecipherError
           end).
Proof.
  split.
  - unfold decrypt. destruct (split ":" encryptedStr) as [|a [|b [|c [|d rest]]]];
      cbn; intros; try reflexivity; lia.
  - intros a b c d rest Hs. unfold decrypt at 1 3.
    unfold decrypt. rewrite (split_join4 _ _ _ _ _ _ Hs), Hs. split; reflexivity.
Qed.

End VaultProperties.

Section VaultExamples.
Import Vault.

(** Witness of C8's theorem: three parts, over the stand-in platform. *)
Lemma decrypt_rejects_only_missing_parts_witness :
  @decrypt plainCrypto "c2FsdA==:aXY=:dGFn" "master-key-0123456789" = TypeError.
Proof.
  apply (proj1 (@decrypt_rejects_only_missing_parts plainCrypto
                  "c2FsdA==:aXY=:dGFn" "master-key-0123456789")).
  vm_compute. lia.
Defined.

(** C8 (as stated) fails: malformed inputs are not rejected before
    decryption.  A string of five parts is decrypted as its first four, on
    every platform and for every key; a string whose salt, nonce and tag
    decode to buffers of any size reaches the cipher; and over the stand-in
    platform a ciphertext with a fifth part appended still decrypts to the
    plaintext. *)
Lemma decrypt_accepts_malformed_input :
  length (split ":" "c2FsdA==:aXY=:dGFn:ZGF0YQ==:extra") = 5%nat
  /\ (forall (nc : NodeCrypto) k,
        decrypt "c2FsdA==:aXY=:dGFn:ZGF0YQ==:extra" k = decrypt "c2FsdA==:aXY=:dGFn:ZGF0YQ==" k)
  /\ (forall (nc : NodeCrypto) k,
        decrypt "AA==:AA==:AA==:ZGF0YQ==" k
        = match gcmDecrypt (deriveKey k (fromBase64 "AA==")) (fromBase64 "AA==") TAG_LENGTH
                  (fromBase64 "AA==") (fromBase64 "ZGF0YQ==") with
          | Some text => Plain text
          | None => DecipherError
          end)
  /\ (let c := @encrypt plainCrypto (bytesOfString "salt") (bytesOfString "iv")
                 "secret" "master-key" in
      @decrypt plainCrypto c "master-key" = Plain "secret"
      /\ length (split ":" (c +:+ ":extra")) = 5%nat
      /\ @decrypt plainCrypto (c +:+ ":extra") "master-key" = Plain "secret").
Proof.
  split; [reflexivity|]. split; [reflexivity|]. split; [reflexivity|].
  vm_compute. repeat split.
Qed.

End VaultExamples.

(** ** Recurring rules *)
Section RecurringProperties.
Import Recurring.
Variable defaultSendHour : Z.

Lemma applySet_id now updates c r : id (applySet now updates c r) = id r.
Proof. reflexivity. Qed.

(** After the write, the rule found under the id is the rewritten one. *)
Lemma find_after_set now updates c ruleId rules existing :
  List.find (fun r => String.eqb (id r) ruleId) rules = Some existing ->
  List.find (fun r => String.eqb (id r) ruleId)
    (List.map (fun r => if String.eqb (id r) ruleId then applySet now updates c r else r) rules)
  = Some (applySet now updates c existing).
Proof.
  induction rules as [|a rules IH]; [discriminate|]. cbn.
  destruct (String.eqb (id a) ruleId) eqn:E.
  - intros [= <-]. rewrite applySet_id, E. reflexivity.
  - rewrite E. exact IH.
Qed.

Lemma append_assoc (a b c : string) : (a +:+ b) +:+ c = a +:+ (b +:+ c).
Proof.
  induction a as [|x a IH]; [reflexivity|].
  change ((String x a +:+ b) +:+ c) with (String x ((a +:+ b) +:+ c)).
  now rewrite IH.
Qed.

(** For the five cron kinds, [buildCronExpression] is the cron table at the
    parameters with the absent ones defaulted, and is never the empty string. *)
Lemma buildCronExpression_defaults type params :
  type ∈ ["daily"; "weekly"; "monthly"; "yearly"; "birthday"] ->
  exists cron,
    buildCronExpression type params defaultSendHour = Some cron
    /\ String.eqb cron "" = false
    /\ cron = cronOf type (default 0 (sendMinute params))
                (default defaultSendHour (sendHour params))
                (default 1 (dayOfWeek params)) (default 1 (dayOfMonth params))
                (default 1 (month params)).
Proof.
  intros Htype. repeat (apply elem_of_cons in Htype as [->|Htype]);
    [| | | | | now apply elem_of_nil in Htype];
    eexists; (split; [reflexivity|]); (split; [reflexivity|]);
    unfold cronOf; cbn [String.eqb Ascii.eqb Bool.eqb];
    rewrite ?append_assoc; reflexivity.
Qed.

(** The rebuild is asked for exactly when the patch carries one of the six
    scheduling parameters. *)
Lemma needsCronUpdate_spec updates :
  needsCronUpdate updates = true
  <-> (u_sendHour updates <> None \/ u_sendMinute updates <> None
       \/ u_dayOfWeek updates <> None \/ u_dayOfMonth updates <> None
       \/ u_month updates <> None \/ u_intervalDays updates <> None).
Proof.
  unfold needsCronUpdate, present.
  destruct (u_sendHour updates), (u_sendMinute updates), (u_dayOfWeek updates),
    (u_dayOfMonth updates), (u_month updates), (u_intervalDays updates); cbn;
    (split; [intros H; try discriminate H; auto 7 | intros H; try reflexivity;
             exfalso; repeat (destruct H as [H | H]; [now apply H|]); now apply H]).
Qed.

(** C10: when the patch of [updateRecurringRule] carries a scheduling
    parameter and the rule is of a cron kind, the stored cron expression is
    rebuilt from the patch alone: it is the cron table at minute, hour, day of
    week, day of month and month taken from the patch, each absent one at its
    built-in default (0, the configured default send hour, 1, 1, 1); nothing
    of the previously stored expression is kept.  The rebuilt expression is
    what the rule now stores and, unless the patch disables the rule, what the
    job scheduler is re-registered with. *)
Theorem update_rebuilds_cron_from_patch_alone (now : Z) (ruleId : string)
    (updates : RuleUpdates) (rules : list RecurringRule) (existing : RecurringRule) :
  List.find (fun r => String.eqb (id r) ruleId) rules = Some existing ->
  type existing ∈ ["daily"; "weekly"; "monthly"; "yearly"; "birthday"] ->
  (u_sendHour updates <> None \/ u_sendMinute updates <> None
   \/ u_dayOfWeek updates <> None \/ u_dayOfMonth updates <> None
   \/ u_month updates <> None \/ u_intervalDays updates <> None) ->
  exists rules' rule call,
    updateRecurringRule defaultSendHour now ruleId updates rules = Updated rules' rule call
    /\ cronExpression rule
       = cronOf (type existing) (default 0 (u_sendMinute updates))
           (default defaultSendHour (u_sendHour updates))
           (default 1 (u_dayOfWeek updates)) (default 1 (u_dayOfMonth updates))
           (default 1 (u_month updates))
    /\ List.find (fun r => String.eqb (id r) ruleId) rules' = Some rule
    /\ (u_enabled updates <> Some false ->
        call = UpsertPattern ("recurring-" +:+ ruleId) (cronExpression rule)
                 (endDate rule) (maxOccurrences rule)).
Proof.
  intros Hfind Htype Hpatched.
  pose proof (proj2 (needsCronUpdate_spec updates) Hpatched) as Hneeds.
  destruct (buildCronExpression_defaults (type existing)
              (mkCronParams (u_sendHour updates) (u_sendMinute updates)
                 (u_dayOfWeek updates) (u_dayOfMonth updates) (u_month updates)) Htype)
    as (cron & Hbuild & Hnonempty & Hcron).
  cbn [sendHour sendMinute dayOfWeek dayOfMonth month] in Hcron.
  assert (String.eqb (type existing) "custom" = false) as Hcustom.
  { repeat (apply elem_of_cons in Htype as [->|Htype]);
      [| | | | | now apply elem_of_nil in Htype]; reflexivity. }
  unfold updateRecurringRule. rewrite Hfind, Hneeds, Hbuild, Hnonempty, Hcustom.
  eexists _, _, _. split; [reflexivity|].
  split; [exact Hcron|]. split; [now apply find_after_set|].
  intros Hen. rewrite bool_decide_eq_false_2 by exact Hen. reflexivity.
Qed.

End RecurringProperties.

Section RecurringExamples.
Import Recurring Examples.

(** Witness of C10's theorem: the Friday 18:30 rule patched with the hour
    alone. *)
Lemma update_rebuilds_cron_from_patch_alone_witness :
  exists rules' rule call,
    updateRecurringRule 9 1000 "r1" hourPatch [fridayRule] = Updated rules' rule call
    /\ cronExpression rule
       = cronOf (type fridayRule) (default 0 (u_sendMinute hourPatch))
           (default 9 (u_sendHour hourPatch))
           (default 1 (u_dayOfWeek hourPatch)) (default 1 (u_dayOfMonth hourPatch))
           (default 1 (u_month hourPatch))
    /\ List.find (fun r => String.eqb (id r) "r1") rules' = Some rule
    /\ (u_enabled hourPatch <> Some false ->
        call = UpsertPattern ("recurring-" +:+ "r1") (cronExpression rule)
                 (endDate rule) (maxOccurrences rule)).
Proof.
  apply (update_rebuilds_cron_from_patch_alone 9 1000 "r1" hourPatch [fridayRule] fridayRule).
  - reflexivity.
  - cbn. apply elem_of_cons. right. apply elem_of_cons. now left.
  - left. discriminate.
Defined.

(** The Friday 18:30 rule, patched with [sendHour: 10] alone, fires on Mondays
    at 10:00. *)
Example patched_friday_rule_moves_to_monday :
  match updateRecurringRule 9 1000 "r1" hourPatch [fridayRule] with
  | Updated _ rule call =>
    cronExpression fridayRule = "0 30 18 * * 5"
    /\ cronExpression rule = "0 0 10 * * 1"
    /\ call = UpsertPattern "recurring-r1" "0 0 10 * * 1" None None
  | _ => False
  end.
Proof. vm_compute. repeat split. Qed.

End RecurringExamples.

(** ** Further properties *)
Section Further.
Import RateLimiter Vault.

(** [getTodayIST] is the IST midnight of the current day: from 1970-01-01
    00:00 IST on, it is the one instant at or before [now], less than a day
    back, that is a whole number of days in IST. *)
Theorem getTodayIST_is_IST_midnight (now : Z) :
  0 <= now + istOffsetMs ->
  getTodayIST now <= now < getTodayIST now + dayMs
  /\ (getTodayIST now + istOffsetMs) mod dayMs = 0.
Proof.
  intros H. unfold getTodayIST. cbn zeta.
  rewrite Z.rem_mod_nonneg by (unfold dayMs; lia).
  pose proof (Z.mod_pos_bound (now + istOffsetMs) dayMs) as Hb.
  pose proof (Z.div_mod (now + istOffsetMs) dayMs) as Hd.
  unfold dayMs in *. split; [lia|].
  replace (now + istOffsetMs - (now + istOffsetMs) mod 86400000 - istOffsetMs + istOffsetMs)
    with (86400000 * ((now + istOffsetMs) / 86400000)) by lia.
  rewrite Z.mul_comm. apply Z.mod_mul. lia.
Qed.

Lemma getTodayIST_is_IST_midnight_witness :
  getTodayIST 1700000000000 <= 1700000000000 < getTodayIST 1700000000000 + dayMs
  /\ (getTodayIST 1700000000000 + istOffsetMs) mod dayMs = 0.
Proof. apply (getTodayIST_is_IST_midnight 1700000000000). vm_compute. discriminate. Defined.

(** The wire format round-trips: when the four encoded buffers contain no
    colon and decode to themselves, and the platform's cipher opens what it
    sealed under the derived key, [decrypt] gives back the plaintext of
    [encrypt]. *)
Theorem vault_round_trip_over_the_wire_format {nc : NodeCrypto}
    (salt iv : list byte) (plaintext masterKey : string) :
  let key := deriveKey masterKey salt in
  let sealed := gcmEncrypt key iv TAG_LENGTH plaintext in
  Forall (fun b => includes ":" (toBase64 b) = false /\ fromBase64 (toBase64 b) = b)
    [salt; iv; sealed.2; sealed.1] ->
  gcmDecrypt key iv TAG_LENGTH sealed.2 sealed.1 = Some plaintext ->
  decrypt (encrypt salt iv plaintext masterKey) masterKey = Plain plaintext.
Proof.
  intros key sealed Hbuf Hopen. unfold encrypt. fold key. fold sealed.
  destruct sealed as [encrypted tag] eqn:Hs. cbn [fst snd] in *.
  apply Forall_cons in Hbuf as [[Hs1 Hs2] Hbuf]. apply Forall_cons in Hbuf as [[Hi1 Hi2] Hbuf].
  apply Forall_cons in Hbuf as [[Ht1 Ht2] Hbuf]. apply Forall_cons in Hbuf as [[He1 He2] _].
  unfold decrypt. cbn [join].
  change (toBase64 salt +:+ ":" +:+ toBase64 iv +:+ ":" +:+ toBase64 tag +:+ ":"
            +:+ toBase64 encrypted)
    with (toBase64 salt +:+ String ":" (toBase64 iv +:+ String ":" (toBase64 tag
            +:+ String ":" (toBase64 encrypted)))).
  rewrite !split_part, split_last by assumption.
  rewrite Hs2, Hi2, Ht2, He2. fold key. now rewrite Hopen.
Qed.

Lemma vault_round_trip_over_the_wire_format_witness :
  @decrypt plainCrypto
    (@encrypt plainCrypto (bytesOfString "salt") (bytesOfString "iv") "secret" "master-key")
    "master-key"
  = Plain "secret".
Proof.
  apply (@vault_round_trip_over_the_wire_format plainCrypto).
  - vm_compute. repeat constructor.
  - reflexivity.
Defined.

End Further.

(** ** Phone numbers *)
Section PhoneProperties.
Import Phone.

Lemma digit_not_plus c : isDigit c = true -> Ascii.eqb c "+"%char = false.
Proof. destruct c as [[] [] [] [] [] [] [] []]; vm_compute; congruence. Qed.

Lemma keep_digits n : allDigits n = true -> keepPlusAndDigits n = n.
Proof.
  induction n as [|c n IH]; [reflexivity|]. cbn. intros H.
  apply andb_true_iff in H as [Hc Hn]. rewrite Hc, orb_true_r, (IH Hn). reflexivity.
Qed.

Lemma keep_idempotent s : keepPlusAndDigits (keepPlusAndDigits s) = keepPlusAndDigits s.
Proof.
  induction s as [|c s IH]; [reflexivity|]. cbn.
  destruct (Ascii.eqb c "+" || isDigit c) eqn:E; [|exact IH].
  cbn. now rewrite E, IH.
Qed.

Lemma isMobile_digits n :
  isMobile n = true ->
  String.length n = 10%nat /\ allDigits n = true /\ dropLeadingPlus n = n.
Proof.
  destruct n as [|c n]; [discriminate|]. cbn. intros H.
  apply andb_true_iff in H as [H Hd]. apply andb_true_iff in H as [H Hl].
  apply Nat.eqb_eq in Hl. rewrite Hl.
  assert (isDigit c = true) as Hc.
  { unfold isDigit. apply andb_true_iff in H as [H1 H2].
    apply N.leb_le in H1, H2. apply andb_true_iff. split; apply N.leb_le; lia. }
  rewrite Hc, Hd, (digit_not_plus c Hc). auto.
Qed.

Lemma prefix_slice p s :
  String.prefix p s = true -> s = p +:+ slice (String.length p) s.
Proof.
  revert s. induction p as [|c p IH]; intros s; [reflexivity|].
  destruct s as [|d s]; [discriminate|]. cbn.
  destruct (Ascii.ascii_dec c d) as [-> | Hne]; [|discriminate].
  intros H. change (String d p +:+ slice (String.length p) s)
    with (String d (p +:+ slice (String.length p) s)).
  now rewrite <- (IH s H).
Qed.

Lemma length_append a b : String.length (a +:+ b) = (String.length a + String.length b)%nat.
Proof.
  induction a as [|c a IH]; [reflexivity|].
  change (String c a +:+ b) with (String c (a +:+ b)). cbn. now rewrite IH.
Qed.

Lemma slice_append a b : slice (String.length a) (a +:+ b) = b.
Proof.
  induction a as [|c a IH]; [reflexivity|].
  change (String c a +:+ b) with (String c (a +:+ b)). exact IH.
Qed.

Lemma prefix_append p s : String.prefix p (p +:+ s) = true.
Proof.
  induction p as [|c p IH]; [now destruct s|].
  change (String c p +:+ s) with (String c (p +:+ s)). cbn.
  destruct (Ascii.ascii_dec c c); [exact IH | congruence].
Qed.

Lemma prefix_other c d p s : c <> d -> String.prefix (String c p) (String d s) = false.
Proof. intros H. cbn. destruct (Ascii.ascii_dec c d); congruence. Qed.

(** The digits of a number as the normaliser reads them. *)
Lemma mobile_forms n :
  isMobile n = true ->
  forall digits, digits = "91" +:+ n \/ digits = "0" +:+ n \/ digits = n ->
  (if String.prefix "91" digits && Nat.eqb (String.length digits) 12 then Some (slice 2 digits)
   else if String.prefix "0" digits && Nat.eqb (String.length digits) 11
        then Some (slice 1 digits)
   else if Nat.eqb (String.length digits) 10 then Some digits
   else None) = Some n.
Proof.
  intros Hm digits Hd. destruct (isMobile_digits n Hm) as (Hlen & _ & _).
  destruct Hd as [-> | [-> | ->]].
  - rewrite prefix_append, length_append, Hlen. reflexivity.
  - change ("0" +:+ n) with (String "0" n). rewrite prefix_other by discriminate.
    change (String "0" n) with ("0" +:+ n).
    rewrite prefix_append, length_append, Hlen. reflexivity.
  - rewrite Hlen. cbn. now rewrite !andb_false_r.
Qed.

Lemma accepted_iff (input r : string) :
  normalizeIndianPhone input = E164 r <->
  exists n, isMobile n = true /\ r = "+91" +:+ n
    /\ let digits := dropLeadingPlus (keepPlusAndDigits input) in
       digits = "91" +:+ n \/ digits = "0" +:+ n \/ digits = n.
Proof.
  unfold normalizeIndianPhone. cbn zeta.
  set (digits := dropLeadingPlus (keepPlusAndDigits input)). split.
  - destruct (String.prefix "91" digits && Nat.eqb (String.length digits) 12) eqn:E1;
      [|destruct (String.prefix "0" digits && Nat.eqb (String.length digits) 11) eqn:E2;
        [|destruct (Nat.eqb (String.length digits) 10) eqn:E3; [|discriminate]]].
    + destruct (isMobile (slice 2 digits)) eqn:Hm; [|discriminate]. intros [= <-].
      exists (slice 2 digits). split; [exact Hm|]. split; [reflexivity|]. left.
      apply andb_true_iff in E1 as [Hp _]. exact (prefix_slice "91" digits Hp).
    + destruct (isMobile (slice 1 digits)) eqn:Hm; [|discriminate]. intros [= <-].
      exists (slice 1 digits). split; [exact Hm|]. split; [reflexivity|]. right. left.
      apply andb_true_iff in E2 as [Hp _]. exact (prefix_slice "0" digits Hp).
    + destruct (isMobile digits) eqn:Hm; [|discriminate]. intros [= <-].
      exists digits. auto.
  - intros (n & Hm & -> & Hd). rewrite (mobile_forms n Hm digits Hd). now rewrite Hm.
Qed.

(** The normaliser accepts exactly the inputs whose digits, after every
    character other than a digit or [+] and then one leading [+] are removed,
    are a ten-digit mobile number starting with 6 to 9, alone, after one [0]
    or after [91]; the answer is [+91] and that number. *)
Theorem normalizeIndianPhone_accepts (input r : string) :
  normalizeIndianPhone input = E164 r <->
  exists n, isMobile n = true /\ r = "+91" +:+ n
    /\ let digits := dropLeadingPlus (keepPlusAndDigits input) in
       digits = "91" +:+ n \/ digits = "0" +:+ n \/ digits = n.
Proof.
  split.
  - intros H. apply accepted_iff in H as (n & Hm & Hr & Hd). exists n. auto.
  - intros (n & Hm & Hr & Hd). apply accepted_iff. exists n. auto.
Qed.

Lemma normalizeIndianPhone_accepts_witness :
  normalizeIndianPhone "+91 98123-45678" = E164 "+919812345678" <->
  exists n, isMobile n = true /\ "+919812345678" = "+91" +:+ n
    /\ let digits := dropLeadingPlus (keepPlusAndDigits "+91 98123-45678") in
       digits = "91" +:+ n \/ digits = "0" +:+ n \/ digits = n.
Proof. apply (normalizeIndianPhone_accepts "+91 98123-45678" "+919812345678"). Defined.

(** Normalising is idempotent, and it reads nothing but the digits and the
    [+] signs of its input. *)
Theorem normalizeIndianPhone_idempotent (input r : string) :
  normalizeIndianPhone input = E164 r ->
  normalizeIndianPhone r = E164 r
  /\ normalizeIndianPhone (keepPlusAndDigits input) = E164 r.
Proof.
  intros H. split.
  - apply accepted_iff in H as (n & Hm & -> & _).
    apply accepted_iff. exists n. split; [exact Hm|]. split; [reflexivity|].
    left. destruct (isMobile_digits n Hm) as (_ & Hd & _).
    change ("+91" +:+ n) with (String "+" (String "9" (String "1" n))).
    cbn. now rewrite (keep_digits n Hd).
  - unfold normalizeIndianPhone in *. now rewrite keep_idempotent.
Qed.

Lemma normalizeIndianPhone_idempotent_witness :
  normalizeIndianPhone "+919812345678" = E164 "+919812345678"
  /\ normalizeIndianPhone (keepPlusAndDigits "(+91) 98123 45678") = E164 "+919812345678".
Proof.
  apply (normalizeIndianPhone_idempotent "(+91) 98123 45678" "+919812345678"). reflexivity.
Defined.

(** Every digit string of a length other than 10, 11 and 12 is refused, and
    so is the form [(091) 9812345678] that the function's comment lists: the
    thirteen digits of a number after [091] are an invalid phone number. *)
Theorem normalizeIndianPhone_refuses_other_lengths (input : string) :
  let n := String.length (dropLeadingPlus (keepPlusAndDigits input)) in
  n <> 10%nat -> n <> 11%nat -> n <> 12%nat ->
  normalizeIndianPhone input = InvalidPhoneNumber.
Proof.
  intros n H10 H11 H12. unfold normalizeIndianPhone. fold n.
  now rewrite !(proj2 (Nat.eqb_neq _ _)), !andb_false_r.
Qed.

Lemma normalizeIndianPhone_refuses_other_lengths_witness :
  normalizeIndianPhone "(091) 9812345678" = InvalidPhoneNumber.
Proof.
  apply (normalizeIndianPhone_refuses_other_lengths "(091) 9812345678"); vm_compute; lia.
Defined.

End PhoneProperties.

(** ** The rate limiter's window and answers *)
Section RateLimiterAnswers.
Import Store RateLimiter.

Lemma todayIST_closed_form now :
  0 <= now + istOffsetMs ->
  getTodayIST now = dayMs * ((now + istOffsetMs) / dayMs) - istOffsetMs.
Proof.
  intros H. unfold getTodayIST. cbn zeta.
  rewrite Z.rem_mod_nonneg by (unfold dayMs; lia).
  pose proof (Z.div_mod (now + istOffsetMs) dayMs). unfold dayMs in *. lia.
Qed.

Lemma todayIST_bounds now :
  0 <= now + istOffsetMs -> getTodayIST now <= now < getTodayIST now + dayMs.
Proof.
  intros H. rewrite (todayIST_closed_form now H).
  pose proof (Z.mod_pos_bound (now + istOffsetMs) dayMs).
  pose proof (Z.div_mod (now + istOffsetMs) dayMs). unfold dayMs in *. lia.
Qed.

Lemma todayIST_same_day now t :
  0 <= now + istOffsetMs ->
  getTodayIST now <= t < getTodayIST now + dayMs -> getTodayIST t = getTodayIST now.
Proof.
  intros H Ht. pose proof (todayIST_bounds now H) as Hb.
  assert (0 <= getTodayIST now + istOffsetMs) as H0.
  { rewrite (todayIST_closed_form now H).
    pose proof (Z.div_pos (now + istOffsetMs) dayMs). unfold dayMs in *. lia. }
  rewrite (todayIST_closed_form t) by lia. rewrite (todayIST_closed_form now H) in *.
  f_equal. f_equal. symmetry.
  apply (Z.div_unique _ _ _ (t + istOffsetMs - dayMs * ((now + istOffsetMs) / dayMs))).
  - left. unfold dayMs in *. lia.
  - lia.
Qed.

Lemma todayIST_mono a b :
  0 <= a + istOffsetMs -> a <= b -> getTodayIST a <= getTodayIST b.
Proof.
  intros Ha Hab. rewrite (todayIST_closed_form a Ha), (todayIST_closed_form b) by lia.
  pose proof (Z.div_le_mono (a + istOffsetMs) (b + istOffsetMs) dayMs) as H.
  unfold dayMs in *. lia.
Qed.

(** A later window start counts no more rows. *)
Lemma count_window_mono col lo hi (db : Table) :
  lo <= hi ->
  (length (List.filter (sentTodayWhere col hi) db)
   <= length (List.filter (sentTodayWhere col lo) db))%nat.
Proof.
  intros Hle. induction db as [|m db IH]; [reflexivity|]. cbn [List.filter].
  assert (sentTodayWhere col hi m = true -> sentTodayWhere col lo m = true) as Himp.
  { unfold sentTodayWhere, sqlGe. destruct (sentAt m) as [t|]; cbn; [|auto].
    destruct (statusInSentDelivered m), (Z.leb_spec hi (col t)), (Z.leb_spec lo (col t));
      cbn; auto; lia. }
  destruct (sentTodayWhere col hi m) eqn:Eh.
  - rewrite (Himp eq_refl). cbn. lia.
  - destruct (sentTodayWhere col lo m); cbn; lia.
Qed.

(** C1: the code departs from the claim and from its own comment, "Count
    messages sent today (IST) with status 'sent' or 'delivered'".  The count's
    raw SQL compares the [sent_at] column, which holds epoch seconds, with the
    IST midnight of the current day in epoch milliseconds.  From 1970-01-03
    on, whatever was sent up to now, no row is counted: [sentToday] is 0 where
    the claim has the number of intents of the window, [canSend] allows the
    send under every positive cap, and [remaining] is the whole cap. *)
Theorem sentToday_is_zero_over_the_seconds_column (cap now : Z) (db : Table) :
  2 * dayMs <= now ->
  0 < cap ->
  (forall m t, In m db -> sentAt m = Some t -> t <= now) ->
  getSentTodayCount Examples.epochSeconds now db = 0
  /\ sentToday (canSend Examples.epochSeconds cap now db) = 0
  /\ allowed (canSend Examples.epochSeconds cap now db) = true
  /\ remaining (canSend Examples.epochSeconds cap now db) = cap
  /\ (sentInCurrentISTDay now db <> 0 ->
      sentToday (canSend Examples.epochSeconds cap now db) <> sentInCurrentISTDay now db).
Proof.
  intros Hnow Hcap Hdb.
  assert (getSentTodayCount Examples.epochSeconds now db = 0) as Hzero.
  { unfold getSentTodayCount.
    rewrite (filter_untouched _ db); [reflexivity|].
    intros m Hm. unfold sentTodayWhere, sqlGe.
    destruct (sentAt m) as [t|] eqn:Ht; [|now destruct (statusInSentDelivered m)].
    cbn. pose proof (Hdb m t Hm Ht) as Hle.
    assert (0 <= now + istOffsetMs) as H0 by (unfold dayMs, istOffsetMs in *; lia).
    pose proof (todayIST_bounds now H0) as Hb.
    pose proof (Z.div_le_mono t now 1000 ltac:(lia) Hle) as Hdiv.
    pose proof (Z.mul_div_le now 1000 ltac:(lia)) as Hmul.
    unfold Examples.epochSeconds.
    rewrite (proj2 (Z.leb_gt _ _)) by (unfold dayMs in *; lia). reflexivity. }
  unfold canSend. cbn. rewrite Hzero. repeat split.
  - apply Z.ltb_lt. lia.
  - lia.
  - intros Hne Heq. apply Hne. now rewrite <- Heq.
Qed.

(** The failing input of C1: on 2023-11-14 22:13:21 UTC, after one intent
    sent at 19:26:40 and one delivered at 22:13:20 of the same IST day, the
    window holds two intents and the code counts none; a cap of one stays
    open. *)
Lemma sentToday_is_zero_over_the_seconds_column_witness :
  let now := 1700000001000 in
  let db := [Examples.stamped "a" sent (Some 1699990000000);
             Examples.stamped "b" delivered (Some 1700000000000)] in
  getTodayIST now = 1699986600000
  /\ sentInCurrentISTDay now db = 2
  /\ getSentTodayCount Examples.epochSeconds now db = 0
  /\ sentToday (canSend Examples.epochSeconds 1 now db) = 0
  /\ allowed (canSend Examples.epochSeconds 1 now db) = true
  /\ remaining (canSend Examples.epochSeconds 1 now db) = 1
  /\ (sentInCurrentISTDay now db <> 0 ->
      sentToday (canSend Examples.epochSeconds 1 now db) <> sentInCurrentISTDay now db).
Proof.
  intros now db. split; [reflexivity|]. split; [reflexivity|].
  apply (sentToday_is_zero_over_the_seconds_column 1 now db).
  - vm_compute. discriminate.
  - lia.
  - intros m t [<- | [<- | []]] [= <-]; vm_compute; discriminate.
Defined.

(** The window is the IST day.  Within one IST day every instant has the same
    day start, so the count does not depend on the time of day at which it is
    taken; [resetAt] lies after now, at most 24 hours ahead, and is the day
    start of the instants from then on. *)
Theorem sentToday_window_is_the_IST_day (col : Z -> Z) (now t : Z) (db : Table) :
  0 <= now + istOffsetMs ->
  getTodayIST now <= t < getNextMidnightIST now ->
  getTodayIST t = getTodayIST now
  /\ getSentTodayCount col t db = getSentTodayCount col now db
  /\ now < getNextMidnightIST now <= now + dayMs
  /\ getTodayIST (getNextMidnightIST now) = getNextMidnightIST now.
Proof.
  intros H Ht. unfold getNextMidnightIST in *.
  pose proof (todayIST_same_day now t H Ht) as Hsame.
  pose proof (todayIST_bounds now H) as Hb.
  split; [exact Hsame|]. split; [unfold getSentTodayCount; now rewrite Hsame|].
  split; [lia|].
  rewrite (todayIST_closed_form (getTodayIST now + dayMs)) by (unfold dayMs in *; lia).
  rewrite (todayIST_closed_form now H).
  replace (dayMs * ((now + istOffsetMs) / dayMs) - istOffsetMs + dayMs + istOffsetMs)
    with (((now + istOffsetMs) / dayMs + 1) * dayMs) by lia.
  rewrite Z.div_mul by (unfold dayMs; lia). lia.
Qed.

Lemma sentToday_window_is_the_IST_day_witness :
  getTodayIST 1700040000000 = getTodayIST 1700000000000
  /\ getSentTodayCount Examples.epochSeconds 1700040000000 []
     = getSentTodayCount Examples.epochSeconds 1700000000000 []
  /\ 1700000000000 < getNextMidnightIST 1700000000000 <= 1700000000000 + dayMs
  /\ getTodayIST (getNextMidnightIST 1700000000000) = getNextMidnightIST 1700000000000.
Proof.
  apply (sentToday_window_is_the_IST_day Examples.epochSeconds 1700000000000 1700040000000 []);
    vm_compute; [discriminate | split; [discriminate | reflexivity]].
Defined.

(** The count at [resetAt].  Whatever the column's codec, when no row's
    stored [sent_at] reaches the next IST midnight in epoch milliseconds (the
    integer the raw SQL compares with), the count taken at that midnight is
    zero, sending is allowed under every positive cap and [remaining] is the
    whole cap. *)
Theorem sentToday_resets_at_resetAt (col : Z -> Z) (cap now : Z) (db : Table) :
  0 <= now + istOffsetMs ->
  0 < cap ->
  (forall m t, In m db -> sentAt m = Some t -> col t < getNextMidnightIST now) ->
  getSentTodayCount col (getNextMidnightIST now) db = 0
  /\ allowed (canSend col cap (getNextMidnightIST now) db) = true
  /\ remaining (canSend col cap (getNextMidnightIST now) db) = cap.
Proof.
  intros H Hcap Hdb.
  assert (getTodayIST (getNextMidnightIST now) = getNextMidnightIST now) as Hroll.
  { pose proof (todayIST_bounds now H). unfold getNextMidnightIST.
    rewrite (todayIST_closed_form (getTodayIST now + dayMs)) by (unfold dayMs in *; lia).
    rewrite (todayIST_closed_form now H).
    replace (dayMs * ((now + istOffsetMs) / dayMs) - istOffsetMs + dayMs + istOffsetMs)
      with (((now + istOffsetMs) / dayMs + 1) * dayMs) by lia.
    rewrite Z.div_mul by (unfold dayMs; lia). lia. }
  assert (getSentTodayCount col (getNextMidnightIST now) db = 0) as Hzero.
  { unfold getSentTodayCount. rewrite Hroll.
    rewrite (filter_untouched _ db); [reflexivity|].
    intros m Hm. unfold sentTodayWhere, sqlGe.
    destruct (sentAt m) as [t|] eqn:Ht; [|now destruct (statusInSentDelivered m)].
    cbn. pose proof (Hdb m t Hm Ht).
    rewrite (proj2 (Z.leb_gt _ _)) by lia. reflexivity. }
  unfold canSend. cbn. rewrite Hzero. repeat split.
  - apply Z.ltb_lt. lia.
  - lia.
Qed.

Lemma sentToday_resets_at_resetAt_witness :
  let db := [Examples.stamped "a" sent (Some 1700000000000)] in
  getSentTodayCount Examples.epochSeconds (getNextMidnightIST 1700000000000) db = 0
  /\ allowed (canSend Examples.epochSeconds 30 (getNextMidnightIST 1700000000000) db) = true
  /\ remaining (canSend Examples.epochSeconds 30 (getNextMidnightIST 1700000000000) db) = 30.
Proof.
  intros db. apply (sentToday_resets_at_resetAt Examples.epochSeconds 30 1700000000000 db).
  - vm_compute. discriminate.
  - lia.
  - intros m t [<- | []] [= <-]. vm_compute. reflexivity.
Defined.

(** The limiter's answers agree.  The count is never negative; [remaining] is
    the cap less the count, floored at zero; sending is allowed exactly when
    something remains; [getStatus] reports the numbers of [canSend];
    [checkAndWarn] returns [canSend]'s answer and broadcasts at most one
    message, [rate-limit:reached] exactly when sending is not allowed; and
    with a threshold between 0 and 100 percent of a non-negative cap, the
    [warning] flag of [getStatus] is set exactly when [checkAndWarn]
    broadcasts. *)
Theorem rate_limiter_answers_agree (col : Z -> Z) (cap pct now : Z) (db : Table) :
  let r := canSend col cap now db in
  let s := getStatus col cap pct now db in
  0 <= sentToday r
  /\ remaining r = Z.max 0 (cap - sentToday r)
  /\ (allowed r = true <-> 0 < remaining r)
  /\ (st_sentToday s, st_dailyCap s, st_remaining s) = (sentToday r, dailyCap r, remaining r)
  /\ st_resetAt s = getNextMidnightIST now
  /\ fst (checkAndWarn col cap pct now db) = r
  /\ (length (snd (checkAndWarn col cap pct now db)) <= 1)%nat
  /\ (allowed r = false <->
      snd (checkAndWarn col cap pct now db)
      = [RateLimitReached (sentToday r) cap (getNextMidnightIST now)])
  /\ (0 <= cap -> 0 <= pct <= 100 ->
      (st_warning s = true <-> snd (checkAndWarn col cap pct now db) <> [])).
Proof.
  intros r s. subst r s. unfold checkAndWarn, getStatus, canSend. cbn.
  set (count := getSentTodayCount col now db).
  assert (0 <= count) as Hc by (unfold count, getSentTodayCount; lia).
  split; [exact Hc|]. split; [reflexivity|].
  split; [rewrite Z.ltb_lt; lia|]. split; [reflexivity|]. split; [reflexivity|].
  assert (0 <= cap -> 0 <= pct <= 100 -> warnThreshold cap pct <= cap) as Hth.
  { intros H0 Hp. unfold warnThreshold. apply Z.div_le_upper_bound; nia. }
  destruct (Z.leb_spec cap count) as [Hle|Hgt];
    [|destruct (Z.leb_spec (warnThreshold cap pct) count)];
    cbn; (split; [reflexivity|]); (split; [lia|]); (split; [rewrite Z.ltb_ge || rewrite Z.ltb_nlt;
    split; intros; try reflexivity; try lia; try discriminate|]).
  - intros H0 Hp. specialize (Hth H0 Hp). rewrite (proj2 (Z.leb_le _ _)) by lia.
    split; [discriminate | reflexivity].
  - intros _ _. split; [discriminate | reflexivity].
  - intros _ _. split; [discriminate | congruence].
Qed.

End RateLimiterAnswers.

(** ** Writes under the id alone *)
Section StoreWrites.
Import Store.




Lemma updateRun_length w s (db : Table) : length (updateRun w s db) = length db.
Proof. apply List.length_map. Qed.

(** A write under an id leaves the rows of every other id where they are. *)
Lemma updateRun_id_frame i (s : ScheduledMessage -> ScheduledMessage) (db : Table) n m :
  db !! n = Some m -> id m <> i -> updateRun (eq_id i) s db !! n = Some m.
Proof.
  intros Hn Hne. unfold updateRun. rewrite map_lookup, Hn. cbn.
  assert (eq_id i m = false) as -> by (unfold eq_id; now apply String.eqb_neq).
  reflexivity.
Qed.

End StoreWrites.
(** ** The job queue *)
Section JobsProperties.

Lemma jobId_inj a b : Jobs.jobId a = Jobs.jobId b -> a = b.
Proof. unfold Jobs.jobId. apply (String.app_inj "msg-"). Qed.

Lemma rescheduleJob_lookup messageId delay (q : gmap string Z) :
  Jobs.rescheduleJob messageId delay q !! Jobs.jobId messageId = Some (Z.max 0 delay).
Proof.
  unfold Jobs.rescheduleJob, Jobs.scheduleOneTimeJob, Jobs.cancelJob.
  destruct (q !! Jobs.jobId messageId) eqn:E.
  - rewrite lookup_delete_eq. apply lookup_insert_eq.
  - rewrite E. apply lookup_insert_eq.
Qed.

(** Rescheduling always leaves the job waiting with the new delay, clamped at
    zero, whether or not it was waiting before, and touches no other job;
    scheduling alone does not replace a job that is already waiting, and
    cancelling removes it. *)
Theorem rescheduleJob_sets_the_delay (messageId : string) (delay : Z) (q : gmap string Z) :
  Jobs.rescheduleJob messageId delay q !! Jobs.jobId messageId = Some (Z.max 0 delay)
  /\ (forall other, other <> messageId ->
        Jobs.rescheduleJob messageId delay q !! Jobs.jobId other = q !! Jobs.jobId other)
  /\ (forall old, q !! Jobs.jobId messageId = Some old ->
        Jobs.scheduleOneTimeJob messageId delay q = q)
  /\ Jobs.cancelJob messageId (Jobs.scheduleOneTimeJob messageId delay q) !! Jobs.jobId messageId
     = None.
Proof.
  split; [apply rescheduleJob_lookup|].
  unfold Jobs.rescheduleJob, Jobs.scheduleOneTimeJob, Jobs.cancelJob. repeat split.
  - intros other Hne.
    assert (Jobs.jobId messageId <> Jobs.jobId other) as Hj
      by (intros Heq; apply Hne; symmetry; now apply jobId_inj).
    destruct (q !! Jobs.jobId messageId) eqn:E.
    + rewrite lookup_delete_eq, lookup_insert_ne, lookup_delete_ne by exact Hj. reflexivity.
    + rewrite E, lookup_insert_ne by exact Hj. reflexivity.
  - intros old ->. reflexivity.
  - destruct (q !! Jobs.jobId messageId) eqn:E.
    + rewrite E. apply lookup_delete_eq.
    + rewrite lookup_insert_eq. apply lookup_delete_eq.
Qed.

End JobsProperties.

(** ** Scheduling and editing one-time messages *)
Section SchedulingProperties.
Import Store Scheduling.
Variable col : Z -> Z.
Variable cap pct : Z.

Lemma fillName_keys now name found cs :
  List.map c_id (fillName now name found cs) = List.map c_id cs
  /\ List.map c_phone (fillName now name found cs) = List.map c_phone cs.
Proof.
  unfold fillName. destruct (_ && _); [|auto].
  rewrite !List.map_map. split; apply List.map_ext; intros c;
    destruct (String.eqb (c_id c) (c_id found)); reflexivity.
Qed.

(** Looking a contact up by a key that [fillName] keeps gives the contact at
    the same place. *)
Lemma find_fillName (key : ContactRow -> string) k now name found cs c :
  (forall n x, key (rename n now x) = key x) ->
  List.find (fun x => String.eqb (key x) k) cs = Some c ->
  exists c', List.find (fun x => String.eqb (key x) k) (fillName now name found cs) = Some c'
             /\ c_id c' = c_id c /\ c_phone c' = c_phone c.
Proof.
  intros Hkey. unfold fillName. destruct (_ && _); [|eauto].
  induction cs as [|a cs IH]; [discriminate|]. cbn.
  destruct (String.eqb (c_id a) (c_id found)).
  - rewrite Hkey. destruct (String.eqb (key a) k); [|exact IH].
    intros [= <-]. eexists. split; [reflexivity|]. auto.
  - destruct (String.eqb (key a) k); [|exact IH]. intros [= <-]. eauto.
Qed.

Lemma find_app_none {A} (f : A -> bool) (l : list A) (x : A) :
  List.find f l = None -> List.find f (l ++ [x]) = if f x then Some x else None.
Proof.
  induction l as [|a l IH]; cbn; [reflexivity|]. destruct (f a); [discriminate | exact IH].
Qed.

Lemma accepted_phone_nonempty p e : Phone.normalizeIndianPhone p = Phone.E164 e -> p <> "".
Proof. intros H ->. discriminate H. Qed.

(** Resolution by a phone that the normaliser accepts. *)
Lemma resolveContactId_by_phone now newId p e name cs :
  Phone.normalizeIndianPhone p = Phone.E164 e ->
  resolveContactId now newId None (Some p) name cs
  = match List.find (fun c => String.eqb (c_phone c) e) cs with
    | Some existing => inr (fillName now name existing cs, c_id existing)
    | None =>
      if existsb (fun c => String.eqb (c_id c) newId) cs then inl ContactIdTaken
      else
        inr (cs ++ [mkContactRow newId e name None None None None (Some true) now now], newId)
    end.
Proof.
  intros Hn. unfold resolveContactId.
  change (Dispatcher.truthy None) with false. cbv iota.
  change (Dispatcher.truthy (Some p)) with (negb (String.eqb p "")).
  change (default "" (Some p)) with p.
  rewrite (proj2 (String.eqb_neq p "") (accepted_phone_nonempty p e Hn)). cbn [negb].
  now rewrite Hn.
Qed.

(** One contact per number, whatever the spelling: once a phone has been
    resolved, every spelling that normalises to the same number resolves to
    the same contact and writes nothing. *)
Theorem resolveContactId_one_contact_per_number
    (now now2 : Z) (newId newId2 : string) (phone phone2 e164 : string)
    (name : option string) (cs cs1 : list ContactRow) (cid : string) :
  Phone.normalizeIndianPhone phone = Phone.E164 e164 ->
  Phone.normalizeIndianPhone phone2 = Phone.E164 e164 ->
  resolveContactId now newId None (Some phone) name cs = inr (cs1, cid) ->
  resolveContactId now2 newId2 None (Some phone2) None cs1 = inr (cs1, cid).
Proof.
  intros Hn Hn2. rewrite (resolveContactId_by_phone _ _ _ _ _ _ Hn).
  rewrite (resolveContactId_by_phone _ _ _ _ _ _ Hn2).
  destruct (List.find (fun c => String.eqb (c_phone c) e164) cs) as [existing|] eqn:Hf.
  - intros [= <- <-].
    destruct (find_fillName c_phone e164 now name existing cs existing) as (c' & Hc' & Hid & _);
      [reflexivity | exact Hf |].
    rewrite Hc'. unfold fillName at 1. cbn. now rewrite Hid.
  - destruct (existsb _ cs); [discriminate|].
    intros [= <- <-]. rewrite (find_app_none _ _ _ Hf). cbn.
    rewrite String.eqb_refl. reflexivity.
Qed.

Lemma find_unique {A} (key : A -> string) (l : list A) k x y :
  NoDup (List.map key l) ->
  List.find (fun a => String.eqb (key a) k) l = Some x -> In y l -> key y = k -> x = y.
Proof.
  induction l as [|a l IH]; [discriminate|]. cbn [List.map List.find].
  intros Hnd. apply NoDup_cons in Hnd as [Hnotin Hnd].
  destruct (String.eqb (key a) k) eqn:E.
  - intros [= <-] [-> | Hin] Hk; [reflexivity|]. exfalso. apply Hnotin.
    apply String.eqb_eq in E. rewrite E, <- Hk. apply list_elem_of_In, in_map, Hin.
  - intros Hf [-> | Hin] Hk; [|now apply IH].
    apply String.eqb_neq in E. contradiction.
Qed.

Lemma find_some_key {A} (key : A -> string) (l : list A) k x :
  List.find (fun a => String.eqb (key a) k) l = Some x -> In x l /\ key x = k.
Proof.
  intros H. apply List.find_some in H as [Hin Hk]. split; [exact Hin|].
  now apply String.eqb_eq.
Qed.

Lemma find_map {A B} (f : A -> B) (p : B -> bool) (l : list A) :
  List.find p (List.map f l) = f <$> List.find (fun a => p (f a)) l.
Proof.
  induction l as [|a l IH]; [reflexivity|]. cbn. destruct (p (f a)); [reflexivity | exact IH].
Qed.

(** The contact that a phone resolves to is, for the send job, the contact of
    the normalised number. *)
Lemma existsb_key_fresh {A} (key : A -> string) (l : list A) k :
  ~ In k (List.map key l) -> existsb (fun a => String.eqb (key a) k) l = false.
Proof.
  intros H. induction l as [|a l IH]; [reflexivity|]. cbn.
  rewrite IH by (intros Hin; apply H; now right).
  assert (String.eqb (key a) k = false) as ->; [|reflexivity].
  apply String.eqb_neq. intros Hk. apply H. now left.
Qed.

Lemma existsb_find {A} (f : A -> bool) (l : list A) :
  existsb f l = false -> List.find f l = None.
Proof.
  induction l as [|a l IH]; [reflexivity|]. cbn. destruct (f a); [discriminate | exact IH].
Qed.

Lemma resolved_contact_for_dispatch now newId p e name cs cs1 cid :
  Phone.normalizeIndianPhone p = Phone.E164 e ->
  NoDup (List.map c_id cs) ->
  resolveContactId now newId None (Some p) name cs = inr (cs1, cid) ->
  List.find (fun c => String.eqb (Dispatcher.contact_id c) cid) (List.map forDispatch cs1)
  = Some (Dispatcher.mkContact cid e)
  /\ (cid = newId \/ In cid (List.map c_id cs)).
Proof.
  intros Hn Hnd. rewrite (resolveContactId_by_phone _ _ _ _ _ _ Hn).
  rewrite find_map.
  change (fun a => String.eqb (Dispatcher.contact_id (forDispatch a)) cid)
    with (fun a => String.eqb (c_id a) cid).
  destruct (List.find (fun c => String.eqb (c_phone c) e) cs) as [existing|] eqn:Hf.
  - intros [= <- <-]. apply find_some_key in Hf as [Hin Hph].
    destruct (List.find (fun a => String.eqb (c_id a) (c_id existing)) cs) as [x|] eqn:Hx.
    + assert (x = existing) as -> by (eapply (find_unique c_id); eauto).
      destruct (find_fillName c_id (c_id existing) now name existing cs existing)
        as (c' & Hc' & Hid & Hp); [reflexivity | exact Hx |].
      rewrite Hc'. cbn. unfold forDispatch. rewrite Hid, Hp, Hph.
      split; [reflexivity|]. right. now apply in_map.
    + exfalso. eapply (List.find_none _ _ Hx) in Hin. now rewrite String.eqb_refl in Hin.
  - destruct (existsb _ cs) eqn:Hex; [discriminate|]. intros [= <- <-].
    pose proof (existsb_find _ _ Hex) as Hnone.
    rewrite (find_app_none _ _ _ Hnone). cbn. rewrite String.eqb_refl. cbn. auto.
Qed.

Lemma selectGet_app_fresh (db : Table) (x : ScheduledMessage) :
  (forall m, In m db -> id m <> id x) -> selectGet (eq_id (id x)) (db ++ [x]) = Some x.
Proof.
  intros H. unfold selectGet.
  rewrite List.filter_app, (filter_untouched (eq_id (id x)) db).
  - cbn. unfold eq_id. now rewrite String.eqb_refl.
  - intros r Hr. unfold eq_id. apply String.eqb_neq. now apply H.
Qed.

(** A pending row is not counted. *)
Lemma count_app_pending now (db : Table) (x : ScheduledMessage) :
  status x = pending ->
  RateLimiter.getSentTodayCount col now (db ++ [x]) = RateLimiter.getSentTodayCount col now db.
Proof.
  intros Hx. unfold RateLimiter.getSentTodayCount. rewrite List.filter_app, length_app.
  cbn [List.filter]. unfold RateLimiter.sentTodayWhere at 2, RateLimiter.statusInSentDelivered.
  rewrite Hx. destruct (sqlGe _ _) as [[]|]; cbn; lia.
Qed.

Lemma existsb_eq_id_fresh (db : Table) i :
  (forall m, In m db -> id m <> i) -> existsb (eq_id i) db = false.
Proof.
  intros H. induction db as [|a db IH]; [reflexivity|]. cbn.
  rewrite IH by (intros m Hm; apply H; now right).
  assert (eq_id i a = false) as ->; [|reflexivity].
  unfold eq_id. apply String.eqb_neq, H. now left.
Qed.

(** The daily cap gates immediate sends only.  A send scheduled for a later
    instant is accepted whatever the count: the intent is stored pending and
    its job is asked for with the time that is left.  A send for now (no
    instant, or one that is not later) is accepted below the cap with a job of
    delay zero, and at the cap it is refused with the 429 error and no intent
    is stored; the contact that the phone resolved to has by then been created
    or named all the same. *)
Theorem scheduleMessage_cap_gates_immediate_sends_only
    (now : Z) (newContactId newMessageId : string) (contactId : option string)
    (content : string) (scheduledAt : option Z) (phone name mediaUrl mediaType : option string)
    (cs cs1 : list ContactRow) (cid : string) (db : Table) :
  resolveContactId now newContactId contactId phone name cs = inr (cs1, cid) ->
  (forall m, In m db -> id m <> newMessageId) ->
  let step := scheduleMessage_begin col cap pct now newContactId newMessageId contactId content
                scheduledAt phone name mediaUrl mediaType cs db in
  let sendAt := default now scheduledAt in
  let stored := mkScheduledMessage newMessageId (Some cid) None None content sendAt pending
                  None None None None None 0 mediaUrl mediaType now now in
  (now < sendAt -> step = AwaitingJob cs1 (db ++ [stored]) stored (sendAt - now))
  /\ (sendAt <= now -> RateLimiter.getSentTodayCount col now db < cap ->
      step = AwaitingJob cs1 (db ++ [stored]) stored 0)
  /\ (sendAt <= now -> cap <= RateLimiter.getSentTodayCount col now db ->
      step = Rejected cs1 (DailyCapReached (RateLimiter.getSentTodayCount col now db) cap
                             (RateLimiter.getNextMidnightIST now))).
Proof.
  intros Hres Hfresh step sendAt stored. subst step. unfold scheduleMessage_begin.
  rewrite Hres, (existsb_eq_id_fresh db newMessageId Hfresh).
  fold sendAt. unfold RateLimiter.canSend. cbn [RateLimiter.allowed].
  set (count := RateLimiter.getSentTodayCount col now db).
  set (immediate := match scheduledAt with None => true | Some _ => sendAt <=? now end).
  assert (immediate = (sendAt <=? now)) as Himm.
  { subst immediate sendAt. destruct scheduledAt; [reflexivity|]. cbn. symmetry.
    apply Z.leb_le. lia. }
  rewrite Himm. destruct (Z.leb_spec sendAt now) as [Hle|Hgt];
    destruct (Z.ltb_spec count cap) as [Hc|Hc]; cbn [andb negb]; repeat split; intros;
    try (exfalso; lia); try reflexivity; fold stored; f_equal; lia.
Qed.

End SchedulingProperties.

Section SchedulingEndToEnd.
Import Store Scheduling.
Variable col : Z -> Z.
Variable cap pct : Z.

(** From the request to the provider: an immediate send to a phone number,
    accepted below the cap, is stored as a pending intent whose send job, run
    with a socket and below the cap, calls the provider with the address [91],
    the ten digits of the number and [@s.whatsapp.net], whatever the spelling
    of the phone in the request, and with the content of the request as the
    text. *)
Theorem scheduled_by_phone_is_sent_to_its_number
    (now now2 : Z) (newContactId newMessageId phone n content : string)
    (name : option string) (cs : list ContactRow) (db : Table) (socket : nat) :
  Phone.normalizeIndianPhone phone = Phone.E164 ("+91" +:+ n) ->
  NoDup (List.map c_id cs) ->
  ~ In newContactId (List.map c_id cs) ->
  ~ In "" (newContactId :: List.map c_id cs) ->
  (forall m, In m db -> id m <> newMessageId) ->
  RateLimiter.getSentTodayCount col now db < cap ->
  RateLimiter.getSentTodayCount col now2 db < cap ->
  exists cs1 msg,
    scheduleMessage_begin col cap pct now newContactId newMessageId None content None
      (Some phone) name None None cs db
    = AwaitingJob cs1 (db ++ [msg]) msg 0
    /\ status msg = pending
    /\ Dispatcher.processSendJob_begin col cap pct now2 (Some socket)
         (List.map forDispatch cs1) (db ++ [msg]) newMessageId
       = Dispatcher.AwaitingSend msg
           (Dispatcher.mkSendRequest ("91" +:+ n +:+ "@s.whatsapp.net") content None None).
Proof.
  intros Hn Hnd Hfresh Hnonempty Hmsg Hc Hc2.
  destruct (resolveContactId now newContactId None (Some phone) name cs)
    as [e|[cs1 cid]] eqn:Hres.
  { rewrite (resolveContactId_by_phone _ _ _ _ _ _ Hn) in Hres.
    destruct (List.find _ cs); [discriminate|].
    rewrite (existsb_key_fresh c_id cs newContactId Hfresh) in Hres. discriminate. }
  destruct (resolved_contact_for_dispatch now newContactId phone _ name cs cs1 cid
              Hn Hnd Hres) as [Hfind Hcid].
  assert (String.eqb cid "" = false) as Hcidne.
  { apply String.eqb_neq. intros ->. apply Hnonempty. destruct Hcid as [<-|Hin];
      [now left | now right]. }
  unfold scheduleMessage_begin. rewrite Hres, (existsb_eq_id_fresh db newMessageId Hmsg).
  unfold RateLimiter.canSend. cbn [RateLimiter.allowed default].
  rewrite (proj2 (Z.ltb_lt _ _) Hc). cbn [negb andb].
  set (stored := mkScheduledMessage newMessageId (Some cid) None None content now pending
                   None None None None None 0 None None now now).
  exists cs1, stored. split; [f_equal; lia|]. split; [reflexivity|].
  unfold Dispatcher.processSendJob_begin.
  pose proof (selectGet_app_fresh db stored Hmsg) as Hstored.
  change (id stored) with newMessageId in Hstored. rewrite Hstored.
  change (eq_status cancelled stored) with false. cbv iota.
  unfold RateLimiter.canSend. cbn [RateLimiter.allowed].
  rewrite (count_app_pending col now2 db stored eq_refl), (proj2 (Z.ltb_lt _ _) Hc2).
  cbn [negb]. cbv iota.
  change (Dispatcher.truthy (groupId stored)) with false. cbv iota.
  change (Dispatcher.truthy (contactId stored)) with (negb (String.eqb cid "")).
  rewrite Hcidne. cbn [negb]. cbv iota.
  change (default "" (contactId stored)) with cid. rewrite Hfind.
  reflexivity.
Qed.



End SchedulingEndToEnd.

(** ** Bulk scheduling *)
Section SchedulingBulk.
Import Store Scheduling.
Variable col : Z -> Z.
Variable cap pct : Z.

Lemma count_app_pendings now (db ps : Table) :
  Forall (fun m => status m = pending) ps ->
  RateLimiter.getSentTodayCount col now (db ++ ps) = RateLimiter.getSentTodayCount col now db.
Proof.
  intros H. unfold RateLimiter.getSentTodayCount. rewrite List.filter_app, length_app.
  rewrite (filter_untouched _ ps); [cbn; lia|].
  intros m Hm. rewrite Forall_forall in H. specialize (H m (proj2 (list_elem_of_In _ _) Hm)).
  unfold RateLimiter.sentTodayWhere, RateLimiter.statusInSentDelivered. rewrite H.
  now destruct (sqlGe _ _) as [[]|].
Qed.

(** The count does not grow with the clock while the table's stamped rows
    stay as they are. *)
Lemma count_later now later (db : Table) :
  0 <= now + RateLimiter.istOffsetMs -> now <= later ->
  RateLimiter.getSentTodayCount col later db <= RateLimiter.getSentTodayCount col now db.
Proof.
  intros H0 Hle. unfold RateLimiter.getSentTodayCount.
  apply inj_le, count_window_mono, todayIST_mono; assumption.
Qed.

(** The loop, from any state whose stored rows are the table it started from
    and the pending rows scheduled so far. *)
Lemma bulkLoop_invariant now (db : Table) items :
  0 <= now + RateLimiter.istOffsetMs ->
  Forall (fun x => now <= draw_clock (fst x)) items ->
  (Exists (fun x => isImmediate now (b_scheduledAt (snd x)) = true) items ->
   RateLimiter.getSentTodayCount col now db < cap) ->
  forall i st,
    bulkMessages st = db ++ bulkScheduled st ->
    Forall (fun m => status m = pending /\ createdAt m = now) (bulkScheduled st) ->
    (forall j s c, ~ In (j, ItemCapReached s c) (bulkFailed st)) ->
    let st' := bulkLoop col cap now i items st in
    bulkMessages st' = db ++ bulkScheduled st'
    /\ Forall (fun m => status m = pending /\ createdAt m = now) (bulkScheduled st')
    /\ (forall j s c, ~ In (j, ItemCapReached s c) (bulkFailed st'))
    /\ (length (bulkScheduled st') + length (bulkFailed st')
        = length (bulkScheduled st) + length (bulkFailed st) + length items)%nat.
Proof.
  intros H0 Hclock. induction items as [|[draw item] rest IH]; intros Himm i st Hdb Hp Hf.
  { cbn. repeat split; auto. }
  apply Forall_cons in Hclock as [Hc Hclock]. cbn [fst] in Hc.
  specialize (IH Hclock (fun H => Himm (Exists_cons_tl _ H))).
  cbn [bulkLoop]. cbn zeta.
  assert (isImmediate now (b_scheduledAt item)
          && negb (RateLimiter.allowed
                     (RateLimiter.canSend col cap (draw_clock draw) (bulkMessages st)))
          = false) as Hgate.
  { destruct (isImmediate now (b_scheduledAt item)) eqn:E; [|reflexivity]. cbn [andb].
    unfold RateLimiter.canSend. cbn [RateLimiter.allowed]. rewrite Hdb.
    rewrite count_app_pendings by (eapply Forall_impl; [exact Hp | cbn; tauto]).
    pose proof (count_later now (draw_clock draw) db H0 Hc).
    pose proof (Himm (Exists_cons_hd _ (draw, item) rest E)).
    rewrite (proj2 (Z.ltb_lt _ _)) by lia. reflexivity. }
  remember (bulkItem col cap now draw item (bulkContacts st) (bulkMessages st)) as step
    eqn:Hstep.
  unfold bulkItem in Hstep. rewrite Hgate in Hstep.
  destruct (resolveContactId _ _ _ _ _ (bulkContacts st)) as [e|[cs1 cid]].
  - subst step. cbv iota.
    specialize (IH (S i) (mkBulkState (bulkContacts st) (bulkMessages st) (bulkQueue st)
                          (bulkScheduled st) (bulkFailed st ++ [(i, ItemNotResolved e)]))).
    cbn [bulkMessages bulkScheduled bulkFailed] in IH.
    destruct IH as (I1 & I2 & I3 & I4); auto.
    { intros j s c Hin. apply in_app_or in Hin as [Hin|[Hin|[]]]; [now apply (Hf j s c)|].
      discriminate. }
    repeat split; auto. rewrite length_app in I4. cbn in I4 |- *. lia.
  - destruct (existsb (eq_id (draw_messageId draw)) (bulkMessages st)).
    + subst step. cbv iota.
      specialize (IH (S i) (mkBulkState cs1 (bulkMessages st) (bulkQueue st)
                            (bulkScheduled st) (bulkFailed st ++ [(i, ItemIdTaken)]))).
      cbn [bulkMessages bulkScheduled bulkFailed] in IH.
      destruct IH as (I1 & I2 & I3 & I4); auto.
      { intros j s c Hin. apply in_app_or in Hin as [Hin|[Hin|[]]]; [now apply (Hf j s c)|].
        discriminate. }
      repeat split; auto. rewrite length_app in I4. cbn in I4 |- *. lia.
    + match type of Hstep with
      | _ = ItemAwaitingJob cs1 (bulkMessages st ++ [?m]) _ ?d =>
        set (msg := m) in *; set (delay := d) in *
      end.
      subst step. cbv iota.
      specialize (IH (S i) (mkBulkState cs1 (bulkMessages st ++ [msg])
                            (Jobs.scheduleOneTimeJob (id msg) delay (bulkQueue st))
                            (bulkScheduled st ++ [msg]) (bulkFailed st))).
      cbn [bulkMessages bulkScheduled bulkFailed] in IH.
      destruct IH as (I1 & I2 & I3 & I4); auto.
      { rewrite Hdb. now rewrite <- app_assoc. }
      { apply Forall_app. split; [exact Hp|]. repeat constructor. }
      repeat split; auto. rewrite length_app in I4. cbn in I4 |- *. lia.
Qed.

Lemma filter_length_pos {A} (f : A -> bool) (l : list A) :
  (0 < length (List.filter f l))%nat <-> Exists (fun x => f x = true) l.
Proof.
  induction l as [|a l IH]; cbn.
  - split; [lia | intros H; inversion H].
  - destruct (f a) eqn:E; cbn.
    + split; [intros _; now left | lia].
    + rewrite IH. split; [now right|]. intros H. inversion H; [congruence | assumption].
Qed.

(** A bulk request is refused as a whole exactly when it asks for more
    immediate sends than remain today; the pre-check's [allowed] adds
    nothing to that.  A request with no immediate send is never refused. *)
Theorem bulk_is_refused_exactly_beyond_what_remains
    (now : Z) (items : list BulkItem) (db : Table) :
  let n := Z.of_nat (length (List.filter (fun item => isImmediate now (b_scheduledAt item))
                               items)) in
  let count := RateLimiter.getSentTodayCount col now db in
  (n <= Z.max 0 (cap - count) -> bulkPrecheck col cap pct now items db = None)
  /\ (Z.max 0 (cap - count) < n ->
      bulkPrecheck col cap pct now items db
      = Some (mkBulkCapReached n (Z.max 0 (cap - count)) count cap
                (RateLimiter.getNextMidnightIST now))).
Proof.
  intros n count. unfold bulkPrecheck. fold n. unfold RateLimiter.canSend.
  cbn [RateLimiter.allowed RateLimiter.sentToday RateLimiter.dailyCap RateLimiter.getStatus
       RateLimiter.st_resetAt].
  fold count. assert (0 <= n) by (subst n; lia).
  destruct (Z.ltb_spec 0 n), (Z.ltb_spec count cap), (Z.ltb_spec (cap - count) n);
    cbn [negb orb]; split; intros; try reflexivity; try lia.
Qed.

(** Past the pre-check, and with nothing else running in between, no element
    of a bulk request fails on the cap: the rows that the loop stores are
    pending and are not counted, and the count of a later instant is not
    larger.  Every element ends in [scheduled] or in [failed]; the table has
    grown by the scheduled rows, in order, each pending and stamped with the
    instant read before the loop. *)
Theorem bulk_past_the_precheck_fails_no_item_on_the_cap
    (now clockEnd : Z) (items : list (BulkDraw * BulkItem))
    (cs : list ContactRow) (db : Table) (q : gmap string Z) :
  0 <= now + RateLimiter.istOffsetMs ->
  Forall (fun x => now <= draw_clock (fst x)) items ->
  bulkPrecheck col cap pct now (List.map snd items) db = None ->
  exists st events rateLimit,
    bulkScheduleMessages col cap pct now items clockEnd cs db q = BulkDone st events rateLimit
    /\ (forall j s c, ~ In (j, ItemCapReached s c) (bulkFailed st))
    /\ (length (bulkScheduled st) + length (bulkFailed st) = length items)%nat
    /\ bulkMessages st = db ++ bulkScheduled st
    /\ Forall (fun m => status m = pending /\ createdAt m = now) (bulkScheduled st)
    /\ RateLimiter.st_sentToday rateLimit = RateLimiter.getSentTodayCount col clockEnd db.
Proof.
  intros H0 Hclock Hpre. unfold bulkScheduleMessages. rewrite Hpre.
  eexists _, _, _. split; [reflexivity|].
  assert (Exists (fun x => isImmediate now (b_scheduledAt (snd x)) = true) items ->
          RateLimiter.getSentTodayCount col now db < cap) as Himm.
  { intros Hex. unfold bulkPrecheck in Hpre.
    assert (0 < Z.of_nat (length (List.filter (fun item => isImmediate now (b_scheduledAt item))
                                    (List.map snd items)))) as Hpos.
    { apply (inj_lt 0), filter_length_pos. apply Exists_exists in Hex. apply Exists_exists.
      destruct Hex as ([d it] & Hin & Him). exists it. split; [|exact Him].
      apply list_elem_of_In, in_map_iff. exists (d, it). split; [reflexivity|].
      now apply list_elem_of_In. }
    rewrite (proj2 (Z.ltb_lt _ _) Hpos) in Hpre.
    unfold RateLimiter.canSend in Hpre. cbn [RateLimiter.allowed] in Hpre.
    destruct (Z.ltb_spec (RateLimiter.getSentTodayCount col now db) cap); [assumption|].
    discriminate Hpre. }
  destruct (bulkLoop_invariant now db items H0 Hclock Himm 0%nat (mkBulkState cs db q [] []))
    as (I1 & I2 & I3 & I4).
  - cbn. now rewrite app_nil_r.
  - constructor.
  - intros j s c [].
  - split; [exact I3|]. split; [cbn in I4; lia|]. split; [exact I1|]. split; [exact I2|].
    cbn [RateLimiter.getStatus RateLimiter.st_sentToday]. rewrite I1.
    apply count_app_pendings. eapply Forall_impl; [exact I2 | cbn; tauto].
Qed.

End SchedulingBulk.

Section SchedulingExamples.
Import Store Scheduling.

Lemma resolveContactId_one_contact_per_number_witness :
  resolveContactId 2000 "c3" None (Some "+91-98123-45678") None
    [Samples.asha;
     mkContactRow "c2" "+919812345678" (Some "Ravi") None None None None (Some true) 1000 1000]
  = inr ([Samples.asha;
          mkContactRow "c2" "+919812345678" (Some "Ravi") None None None None (Some true)
            1000 1000], "c2").
Proof.
  apply (resolveContactId_one_contact_per_number 1000 2000 "c2" "c3" "098123 45678"
           "+91-98123-45678" "+919812345678" (Some "Ravi") [Samples.asha]); reflexivity.
Defined.

(** At a present-day clock the seconds column counts nothing: after one send
    of the same day, under a cap of one, a send for now is accepted with a job
    of delay zero, and a send for four seconds later with a job of 4000 ms.
    The count reaches a cap of one when the clock reads 1970-01-01 00:00:05
    UTC and one intent was sent a second after midnight UTC: a send for now is
    then refused with the 429 error. *)
Lemma scheduleMessage_cap_gates_immediate_sends_only_witness :
  (let db := [Examples.stamped "a" sent (Some 1700000000000)] in
   let step := scheduleMessage_begin Examples.epochSeconds 1 80 1700000001000 "c2" "b"
                 (Some "c1") "hello" None None None None None [Samples.asha] db in
   let later := scheduleMessage_begin Examples.epochSeconds 1 80 1700000001000 "c2" "b"
                  (Some "c1") "hello" (Some 1700000005000) None None None None
                  [Samples.asha] db in
   RateLimiter.getSentTodayCount Examples.epochSeconds 1700000001000 db = 0
   /\ (exists stored, step = AwaitingJob [Samples.asha] (db ++ [stored]) stored 0)
   /\ exists stored, later = AwaitingJob [Samples.asha] (db ++ [stored]) stored 4000)
  /\ (let db := [Examples.stamped "a" sent (Some 1000)] in
      let step := scheduleMessage_begin Examples.epochSeconds 1 80 5000 "c2" "b" (Some "c1")
                    "hello" None None None None None [Samples.asha] db in
      RateLimiter.getSentTodayCount Examples.epochSeconds 5000 db = 1
      /\ step = Rejected [Samples.asha] (DailyCapReached 1 1 66600000)).
Proof.
  split.
  - intros db step later. split; [reflexivity|]. split.
    + eexists.
      apply (scheduleMessage_cap_gates_immediate_sends_only Examples.epochSeconds 1 80
               1700000001000 "c2" "b" (Some "c1") "hello" None None None None None
               [Samples.asha] [Samples.asha] "c1" db).
      * reflexivity.
      * intros m [<- | []]. discriminate.
      * cbn. lia.
      * vm_compute. reflexivity.
    + eexists.
      apply (scheduleMessage_cap_gates_immediate_sends_only Examples.epochSeconds 1 80
               1700000001000 "c2" "b" (Some "c1") "hello" (Some 1700000005000) None None
               None None [Samples.asha] [Samples.asha] "c1" db).
      * reflexivity.
      * intros m [<- | []]. discriminate.
      * cbn. lia.
  - intros db step. split; [reflexivity|].
    apply (scheduleMessage_cap_gates_immediate_sends_only Examples.epochSeconds 1 80 5000
             "c2" "b" (Some "c1") "hello" None None None None None [Samples.asha]
             [Samples.asha] "c1" db).
    + reflexivity.
    + intros m [<- | []]. discriminate.
    + cbn. lia.
    + vm_compute. discriminate.
Defined.

Lemma scheduled_by_phone_is_sent_to_its_number_witness :
  exists cs1 msg,
    scheduleMessage_begin Examples.epochSeconds 30 80 1700000000000 "c2" "m1" None "hello" None
      (Some "098123 45678") None None None [Samples.asha] []
    = AwaitingJob cs1 ([] ++ [msg]) msg 0
    /\ status msg = pending
    /\ Dispatcher.processSendJob_begin Examples.epochSeconds 30 80 1700000002000 (Some 0%nat)
         (List.map forDispatch cs1) ([] ++ [msg]) "m1"
       = Dispatcher.AwaitingSend msg
           (Dispatcher.mkSendRequest ("91" +:+ "9812345678" +:+ "@s.whatsapp.net") "hello"
              None None).
Proof.
  apply (scheduled_by_phone_is_sent_to_its_number Examples.epochSeconds 30 80 1700000000000
           1700000002000 "c2" "m1" "098123 45678" "9812345678" "hello" None
           [Samples.asha] [] 0%nat).
  - reflexivity.
  - repeat constructor. intros H. inversion H.
  - intros [H|[]]. discriminate H.
  - intros [H|[H|[]]]; discriminate H.
  - intros m [].
  - vm_compute. reflexivity.
  - vm_compute. reflexivity.
Defined.

Lemma bulk_past_the_precheck_fails_no_item_on_the_cap_witness :
  exists st events rateLimit,
    bulkScheduleMessages Examples.epochSeconds 30 80 1700000000000 Samples.twoSends 1700000001000
      [Samples.asha] [] ∅
    = BulkDone st events rateLimit
    /\ (forall j s c, ~ In (j, ItemCapReached s c) (bulkFailed st))
    /\ (length (bulkScheduled st) + length (bulkFailed st) = length Samples.twoSends)%nat
    /\ bulkMessages st = [] ++ bulkScheduled st
    /\ Forall (fun m => status m = pending /\ createdAt m = 1700000000000) (bulkScheduled st)
    /\ RateLimiter.st_sentToday rateLimit
       = RateLimiter.getSentTodayCount Examples.epochSeconds 1700000001000 [].
Proof.
  apply (bulk_past_the_precheck_fails_no_item_on_the_cap Examples.epochSeconds 30 80 1700000000000
           1700000001000 Samples.twoSends [Samples.asha] [] ∅).
  - vm_compute. discriminate.
  - repeat constructor; vm_compute; discriminate.
  - reflexivity.
Defined.

(** A pending intent moved from 0 to 9000 at 5000: a job with 4000 ms left. *)
Example editing_a_pending_intent :
  editMessage 5000 "a" (Samples.moveTo 9000) [Examples.waiting "a"; Examples.waiting "b"] ∅
  = ([applyEdit 5000 (Samples.moveTo 9000) (Examples.waiting "a"); Examples.waiting "b"],
     {[Jobs.jobId "a" := 4000]},
     Some (applyEdit 5000 (Samples.moveTo 9000) (Examples.waiting "a")))
  /\ editMessage 5000 "a" (Samples.moveTo 9000) [Examples.stamped "a" sent (Some 4000)] ∅
     = ([Examples.stamped "a" sent (Some 4000)], ∅, None).
Proof. split; reflexivity. Qed.

End SchedulingExamples.

(** ** The send job and the cap *)
Section DispatcherProperties.
Import Store Dispatcher.
Variable col : Z -> Z.
Variable cap pct : Z.

(** Under the primary key, a write under an id moves the number of rows that
    satisfy [p] by what it does to the one row of that id. *)
Lemma count_updateRun_one (p : ScheduledMessage -> bool)
    (s : ScheduledMessage -> ScheduledMessage) (db : Table) i m :
  NoDup (List.map id db) -> selectGet (eq_id i) db = Some m ->
  (length (List.filter p (updateRun (eq_id i) s db)) + (if p m then 1 else 0)
   = length (List.filter p db) + (if p (s m) then 1 else 0))%nat.
Proof.
  induction db as [|a db IH]; [discriminate|].
  cbn [List.map]. intros Hnd. apply NoDup_cons in Hnd as [Hnotin Hnd].
  rewrite selectGet_cons. cbn [updateRun List.map]. destruct (eq_id i a) eqn:Ha.
  - intros [= <-]. fold (updateRun (eq_id i) s db).
    rewrite updateRun_untouched.
    + cbn [List.filter]. destruct (p a), (p (s a)); cbn [length]; lia.
    + intros r Hr. destruct (eq_id i r) eqn:Hr'; [|reflexivity]. exfalso. apply Hnotin.
      apply eq_id_true in Ha, Hr'. rewrite Ha, <- Hr'. apply list_elem_of_In, in_map, Hr.
  - intros Hsel. fold (updateRun (eq_id i) s db). specialize (IH Hnd Hsel).
    cbn [List.filter]. destruct (p a); cbn [length]; lia.
Qed.

Lemma updateRun_ids w (s : ScheduledMessage -> ScheduledMessage) (db : Table) :
  (forall r, id (s r) = id r) -> List.map id (updateRun w s db) = List.map id db.
Proof.
  intros Hid. unfold updateRun. rewrite List.map_map. apply List.map_ext.
  intros r. destruct (w r); [apply Hid | reflexivity].
Qed.

Lemma begin_awaits_the_row_read now socket cs db i msg req :
  processSendJob_begin col cap pct now socket cs db i = AwaitingSend msg req ->
  selectGet (eq_id i) db = Some msg /\ id msg = i
  /\ RateLimiter.getSentTodayCount col now db < cap.
Proof.
  unfold processSendJob_begin. destruct (selectGet (eq_id i) db) as [m|] eqn:Hsel;
    [|discriminate].
  destruct (eq_status cancelled m); [discriminate|].
  unfold RateLimiter.canSend. cbn [RateLimiter.allowed].
  destruct (Z.ltb_spec (RateLimiter.getSentTodayCount col now db) cap) as [Hc|Hc];
    cbn [negb]; [|discriminate].
  intros H. assert (m = msg) as <-.
  { destruct (truthy (groupId m)); [|destruct (truthy (contactId m));
      [destruct (List.find _ cs)|]]; cbn in H; try discriminate;
      destruct socket; try discriminate; now injection H. }
  split; [reflexivity|]. split; [|exact Hc].
  apply selectGet_Some in Hsel as [_ Hi]. now apply eq_id_true.
Qed.

(** The count around a send.  The provider is called only when the count is
    below the cap.  When the job resumes within the same IST day, under the
    primary key and whatever the column's codec, the count after its write is
    the count before, less one when the intent read was counted already, plus
    one when the stored integer of the new [sentAt] reaches the day's start in
    epoch milliseconds: it is at most one more and does not exceed the cap;
    for a pending intent it is one more exactly when the stored stamp reaches
    the day's start, and unchanged otherwise. *)
Theorem send_job_count_after_the_write
    (now now' : Z) (socket : option nat) (cs : list Contact) (db : Table) (i : string)
    (msg : ScheduledMessage) (req : SendRequest) (result : option string) :
  0 <= now + RateLimiter.istOffsetMs ->
  now <= now' < RateLimiter.getNextMidnightIST now ->
  NoDup (List.map id db) ->
  processSendJob_begin col cap pct now socket cs db i = AwaitingSend msg req ->
  let db' := fst (processSendJob_resume col cap pct now' msg result db) in
  let before := RateLimiter.getSentTodayCount col now db in
  let after := RateLimiter.getSentTodayCount col now' db' in
  let stampCounts := RateLimiter.getTodayIST now <=? col now' in
  before < cap
  /\ after
     = before
       - (if RateLimiter.sentTodayWhere col (RateLimiter.getTodayIST now) msg then 1 else 0)
       + (if stampCounts then 1 else 0)
  /\ after <= before + 1
  /\ after <= cap
  /\ (status msg = pending -> after = before + (if stampCounts then 1 else 0)).
Proof.
  intros H0 Hday Hnd Hbegin db' before after stampCounts.
  destruct (begin_awaits_the_row_read _ _ _ _ _ _ _ Hbegin) as (Hsel & Hid & Hc).
  pose proof (todayIST_bounds now H0) as Hb.
  assert (RateLimiter.getTodayIST now' = RateLimiter.getTodayIST now) as Hsame
    by (apply todayIST_same_day; [exact H0 | unfold RateLimiter.getNextMidnightIST in Hday; lia]).
  subst db' before after stampCounts. unfold processSendJob_resume. cbn [fst].
  set (s := fun m => with_updatedAt now' (with_attempts (attempts msg + 1)
                       (with_sentAt (Some now') (with_whatsappMessageId result
                          (with_status sent m))))).
  unfold RateLimiter.getSentTodayCount in *. rewrite Hsame, Hid.
  set (p := RateLimiter.sentTodayWhere col (RateLimiter.getTodayIST now)) in *.
  pose proof (count_updateRun_one p s db i msg Hnd Hsel) as Hcount.
  assert (p (s msg) = (RateLimiter.getTodayIST now <=? col now')) as Hp.
  { subst p s. unfold RateLimiter.sentTodayWhere, RateLimiter.statusInSentDelivered. cbn.
    now destruct (RateLimiter.getTodayIST now <=? col now'). }
  rewrite Hp in Hcount.
  assert (status msg = pending -> p msg = false) as Hpending.
  { intros Hst. subst p. unfold RateLimiter.sentTodayWhere, RateLimiter.statusInSentDelivered.
    rewrite Hst. now destruct (sqlGe _ _) as [[]|]. }
  repeat split.
  - exact Hc.
  - destruct (p msg), (RateLimiter.getTodayIST now <=? col now'); lia.
  - destruct (p msg), (RateLimiter.getTodayIST now <=? col now'); lia.
  - destruct (p msg), (RateLimiter.getTodayIST now <=? col now'); lia.
  - intros Hst. rewrite (Hpending Hst) in Hcount.
    destruct (RateLimiter.getTodayIST now <=? col now'); lia.
Qed.


(** Every dispatch step writes one intent: the first segment of the send job,
    its second segment and the failure handler keep the ids of the table in
    their order and leave every intent of another id as it is. *)
Theorem dispatch_writes_one_intent
    (now : Z) (socket : option nat) (cs : list Contact) (db : Table) (i : string) :
  (forall db' evs, processSendJob_begin col cap pct now socket cs db i = Returned db' evs ->
     List.map id db' = List.map id db
     /\ forall n m, db !! n = Some m -> id m <> i -> db' !! n = Some m)
  /\ (forall msg result,
        let db' := fst (processSendJob_resume col cap pct now msg result db) in
        List.map id db' = List.map id db
        /\ forall n m, db !! n = Some m -> id m <> id msg -> db' !! n = Some m)
  /\ (forall attemptsMade errorMessage,
        let db' := fst (onFailed now (Some (Jobs.mkJob (Some i) attemptsMade)) errorMessage db) in
        List.map id db' = List.map id db
        /\ forall n m, db !! n = Some m -> id m <> i -> db' !! n = Some m).
Proof.
  split; [|split].
  - intros db' evs. unfold processSendJob_begin.
    destruct (selectGet (eq_id i) db) as [msg|] eqn:Hsel; [|intros [= <- _]; auto].
    assert (id msg = i) as Hid
      by (apply selectGet_Some in Hsel as [_ Hi]; now apply eq_id_true).
    destruct (eq_status cancelled msg); [intros [= <- _]; auto|].
    destruct (negb _).
    + intros [= <- _]. rewrite Hid. split; [now apply updateRun_ids|].
      intros n m Hn Hne. now apply updateRun_id_frame.
    + destruct (truthy (groupId msg)); [|destruct (truthy (contactId msg));
        [destruct (List.find _ cs)|]]; cbn; try discriminate; destruct socket; discriminate.
  - intros msg result db'. subst db'. cbn [fst processSendJob_resume].
    split; [now apply updateRun_ids|]. intros n m Hn Hne. now apply updateRun_id_frame.
  - intros attemptsMade errorMessage db'. subst db'. cbn [onFailed Jobs.scheduledMessageId].
    destruct (String.eqb i ""); cbn [fst]; [auto|].
    split; [now apply updateRun_ids|]. intros n m Hn Hne. now apply updateRun_id_frame.
Qed.

End DispatcherProperties.

Section DispatcherExamples.
Import Store Dispatcher.

(** On 2023-11-14, with one intent sent that day and a cap of one, the count
    over the seconds column is zero: the job of the pending intent [a] calls
    the provider, and the count after its write is zero again. *)
Lemma send_job_count_after_the_write_witness :
  let db := [Examples.waiting "a"; Examples.stamped "b" sent (Some 1700000000000)] in
  let db' := fst (processSendJob_resume Examples.epochSeconds 1 80 1700000003000
                    (Examples.waiting "a") (Some "wa-1") db) in
  let before := RateLimiter.getSentTodayCount Examples.epochSeconds 1700000001000 db in
  let after := RateLimiter.getSentTodayCount Examples.epochSeconds 1700000003000 db' in
  let stampCounts :=
    RateLimiter.getTodayIST 1700000001000 <=? Examples.epochSeconds 1700000003000 in
  (before = 0 /\ after = 0 /\ stampCounts = false)
  /\ before < 1
  /\ after
     = before
       - (if RateLimiter.sentTodayWhere Examples.epochSeconds
               (RateLimiter.getTodayIST 1700000001000) (Examples.waiting "a")
          then 1 else 0)
       + (if stampCounts then 1 else 0)
  /\ after <= before + 1
  /\ after <= 1
  /\ (status (Examples.waiting "a") = pending ->
      after = before + (if stampCounts then 1 else 0)).
Proof.
  intros db. split; [repeat split|].
  apply (send_job_count_after_the_write Examples.epochSeconds 1 80 1700000001000
           1700000003000 (Some 0%nat) Examples.contacts db "a" (Examples.waiting "a")
           (mkSendRequest "919876543210@s.whatsapp.net" "hello" None None) (Some "wa-1")).
  - vm_compute. discriminate.
  - vm_compute. split; [discriminate | reflexivity].
  - apply (bool_decide_unpack _). vm_compute. exact I.
  - reflexivity.
Defined.


End DispatcherExamples.

(** ** The payload of a send *)
Section PayloadProperties.
Import Payload.
Variable decode : string -> option string.

Lemma split_last_segment sep s : exists segment, last (Vault.split sep s) = Some segment.
Proof.
  pose proof (split_nonempty sep s) as H.
  destruct (last (Vault.split sep s)) as [x|] eqn:E; [eauto|].
  apply last_None in E. contradiction.
Qed.

Lemma split_first_part sep s : exists part, head (Vault.split sep s) = Some part.
Proof.
  pose proof (split_nonempty sep s) as H.
  destruct (Vault.split sep s) as [|x l]; [contradiction | eauto].
Qed.

(** What a payload carries.  Without both a media URL and a media type the
    payload is the text alone.  With both, the type decides: an image and a
    video carry the URL with the content as caption; an audio carries the URL
    and the mimetype [audio/mp4] and no text at all; a document carries the
    URL, the content as caption, the decoded file name and the mimetype
    [application/octet-stream], and building it fails exactly when the file
    name does not decode; every other type gives the text alone and the URL is
    dropped.  So every payload that is built shows the content, as its text or
    its caption, except an audio payload, and the media it points to is the
    message's.  The file name is what stands between the last slash and the
    first question mark after it; the fallback name [file] is never used. *)
Theorem buildMessagePayload_shows_text_and_media
    (content : string) (mediaUrl mediaType : option string) :
  let built := buildMessagePayload decode content mediaUrl mediaType in
  (Dispatcher.truthy mediaUrl = false \/ Dispatcher.truthy mediaType = false ->
   built = Some (Text content))
  /\ (forall url type,
        mediaUrl = Some url -> url <> "" -> mediaType = Some type -> type <> "" ->
        (type = "image" -> built = Some (Image url content))
        /\ (type = "video" -> built = Some (Video url content))
        /\ (type = "audio" -> built = Some (Audio url "audio/mp4"))
        /\ (type = "document" ->
            (forall fileName, decode (fileNameOf url) = Some fileName ->
               built = Some (Document url content fileName "application/octet-stream"))
            /\ (decode (fileNameOf url) = None -> built = None))
        /\ (type <> "image" -> type <> "video" -> type <> "audio" -> type <> "document" ->
            built = Some (Text content)))
  /\ (forall p, built = Some p ->
      (shownText p = Some content \/ mediaType = Some "audio" /\ shownText p = None)
      /\ (mediaType = Some "audio" -> Dispatcher.truthy mediaUrl = true -> shownText p = None)
      /\ (shownUrl p = None \/ shownUrl p = mediaUrl))
  /\ (built = None ->
      mediaType = Some "document"
      /\ exists url, mediaUrl = Some url /\ decode (fileNameOf url) = None)
  /\ (forall url, exists segment,
        last (Vault.split "/" url) = Some segment
        /\ head (Vault.split "?" segment) = Some (fileNameOf url)).
Proof.
  cbn zeta. split; [|split; [|split; [|split]]].
  - unfold buildMessagePayload. intros [H | H]; rewrite H; cbn [negb orb]; [reflexivity|].
    now rewrite orb_true_r.
  - intros url type -> Hurl -> Htype. unfold buildMessagePayload, Dispatcher.truthy.
    rewrite !(proj2 (String.eqb_neq _ _)) by assumption. cbn [negb orb].
    change (default "" (Some url)) with url. change (default "" (Some type)) with type.
    split; [intros ->; reflexivity|]. split; [intros ->; reflexivity|].
    split; [intros ->; reflexivity|]. split.
    + intros ->. cbn [String.eqb Ascii.eqb Bool.eqb]. split.
      * intros fileName ->. reflexivity.
      * intros ->. reflexivity.
    + intros H1 H2 H3 H4. now rewrite !(proj2 (String.eqb_neq _ _)) by assumption.
  - intros p. unfold buildMessagePayload.
    destruct (negb (Dispatcher.truthy mediaUrl) || negb (Dispatcher.truthy mediaType)) eqn:E0.
    + intros [= <-]. cbn. split; [auto|]. split; [|auto].
      intros -> Hu. rewrite Hu in E0. discriminate E0.
    + apply orb_false_iff in E0 as [E1 E2].
      destruct mediaUrl as [url|]; [|discriminate E1].
      destruct mediaType as [type|]; [|discriminate E2].
      change (default "" (Some url)) with url. change (default "" (Some type)) with type.
      repeat match goal with
             | |- context [String.eqb type ?k] => destruct (String.eqb_spec type k)
             end; subst; try destruct (decode _); intros H; inversion H; subst; cbn;
        (split; [auto|]); (split; [|auto]); try reflexivity; intros [= Ha] _;
        congruence.
  - unfold buildMessagePayload.
    destruct (negb (Dispatcher.truthy mediaUrl) || negb (Dispatcher.truthy mediaType)) eqn:E0;
      [discriminate|].
    apply orb_false_iff in E0 as [E1 E2].
    destruct mediaUrl as [url|]; [|discriminate E1].
    destruct mediaType as [type|]; [|discriminate E2].
    change (default "" (Some url)) with url. change (default "" (Some type)) with type.
    repeat match goal with
           | |- context [String.eqb type ?k] => destruct (String.eqb_spec type k)
           end; subst; try discriminate.
    destruct (decode _) eqn:E; [discriminate|]. intros _. split; [reflexivity|].
    exists url. split; [reflexivity | exact E].
  - intros url. unfold fileNameOf.
    destruct (split_last_segment "/" url) as [segment ->]. exists segment.
    split; [reflexivity|]. cbn. now destruct (split_first_part "?" segment) as [part ->].
Qed.

Example file_names :
  fileNameOf "https://cdn.example/docs/report.pdf?sig=1" = "report.pdf"
  /\ fileNameOf "https://cdn.example/docs/" = ""
  /\ buildMessagePayload RuleSamples.noEscapes "listen" (Some "https://cdn.example/a.mp3")
       (Some "audio")
     = Some (Audio "https://cdn.example/a.mp3" "audio/mp4").
Proof. repeat split. Qed.

End PayloadProperties.

(** ** The firing of recurring rules *)
Section RecurringWorkerProperties.
Import Store RecurringWorker.
Variable col : Z -> Z.
Variable cap pct : Z.
Variable decode : string -> option string.

Lemma rule_is_true i r : rule_is i r = true <-> Recurring.id r = i.
Proof. unfold rule_is. apply String.eqb_eq. Qed.

(** A write under a rule's id, seen through that id and through another. *)
Lemma find_rule_written i (f : Recurring.RecurringRule -> Recurring.RecurringRule) rules :
  (forall r, Recurring.id (f r) = Recurring.id r) ->
  List.find (rule_is i) (List.map (fun r => if rule_is i r then f r else r) rules)
  = f <$> List.find (rule_is i) rules.
Proof.
  intros Hid. induction rules as [|a rules IH]; [reflexivity|]. cbn [List.map List.find].
  destruct (rule_is i a) eqn:Ha.
  - assert (rule_is i (f a) = true) as ->; [|reflexivity].
    apply rule_is_true. rewrite Hid. now apply rule_is_true.
  - rewrite Ha. exact IH.
Qed.

Lemma find_rule_other i j (f : Recurring.RecurringRule -> Recurring.RecurringRule) rules :
  (forall r, Recurring.id (f r) = Recurring.id r) -> j <> i ->
  List.find (rule_is j) (List.map (fun r => if rule_is i r then f r else r) rules)
  = List.find (rule_is j) rules.
Proof.
  intros Hid Hne. induction rules as [|a rules IH]; [reflexivity|]. cbn [List.map List.find].
  destruct (rule_is i a) eqn:Ha.
  - assert (rule_is j a = false) as Hja.
    { destruct (rule_is j a) eqn:E; [|reflexivity]. apply rule_is_true in Ha, E. congruence. }
    assert (rule_is j (f a) = false) as ->; [|now rewrite Hja].
    unfold rule_is in *. now rewrite Hid.
  - destruct (rule_is j a); [reflexivity | exact IH].
Qed.

Lemma firing_a_disabled_rule now msgId socket cs rules db ruleId rule :
  List.find (rule_is ruleId) rules = Some rule -> Recurring.enabled rule = false ->
  processRecurringSendJob_begin col cap pct decode now msgId socket cs rules db ruleId
  = Returned rules db [].
Proof.
  intros Hf He. unfold processRecurringSendJob_begin. now rewrite Hf, He.
Qed.



(** A firing whose send is rejected, or whose payload cannot be built, leaves
    its occurrence pending.  The [failed] handler finds no message id in the
    job of a recurring rule and writes nothing, so the row that the first
    segment stored stays pending, with no attempt counted and no failure
    recorded. *)
Theorem rejected_recurring_send_leaves_a_pending_occurrence
    (now now' : Z) (msgId : string) (socket : option nat) (cs : list Dispatcher.Contact)
    (rules : list Recurring.RecurringRule) (db db1 : Table) (ruleId : string)
    (attemptsMade : option Z) (errorMessage : string) :
  (exists rule at_ m jid payload,
     processRecurringSendJob_begin col cap pct decode now msgId socket cs rules db ruleId
     = AwaitingSend rule at_ m db1 jid payload)
  \/ processRecurringSendJob_begin col cap pct decode now msgId socket cs rules db ruleId
     = Threw db1 MalformedUri ->
  Dispatcher.onFailed now' (Some (recurringJob attemptsMade)) errorMessage db1 = (db1, [])
  /\ exists row,
       selectGet (eq_id msgId) db1 = Some row
       /\ status row = pending /\ attempts row = 0 /\ failedAt row = None
       /\ recurringRuleId row = Some ruleId
       /\ selectGet (eq_id msgId) db = None.
Proof.
  intros Hbegin. split; [reflexivity|].
  assert (exists r, List.find (rule_is ruleId) rules = Some r
            /\ existsb (eq_id msgId) db = false
            /\ db1 = db ++ [mkScheduledMessage msgId (Some (Recurring.contactId r)) None
                              (Some (Recurring.id r)) (Recurring.content r) now pending None
                              None None None None 0 (Recurring.mediaUrl r)
                              (Recurring.mediaType r) now now]) as (r & Hf & Hex & ->).
  { unfold processRecurringSendJob_begin in Hbegin.
    destruct (List.find (rule_is ruleId) rules) as [r|];
      [|destruct Hbegin as [(? & ? & ? & ? & ? & H)|H]; discriminate H].
    exists r. split; [reflexivity|].
    destruct (negb (Recurring.enabled r));
      [destruct Hbegin as [(? & ? & ? & ? & ? & H)|H]; discriminate H|].
    destruct (maxReached r);
      [destruct Hbegin as [(? & ? & ? & ? & ? & H)|H]; discriminate H|].
    destruct (negb _).
    { destruct (_ || _); destruct Hbegin as [(? & ? & ? & ? & ? & H)|H]; discriminate H. }
    destruct (List.find _ cs);
      [|destruct Hbegin as [(? & ? & ? & ? & ? & H)|H]; discriminate H].
    destruct socket; [|destruct Hbegin as [(? & ? & ? & ? & ? & H)|H]; discriminate H].
    destruct (existsb (eq_id msgId) db) eqn:Hex;
      [destruct Hbegin as [(? & ? & ? & ? & ? & H)|H]; discriminate H|].
    split; [reflexivity|].
    destruct (Payload.buildMessagePayload _ _ _ _);
      destruct Hbegin as [(? & ? & ? & ? & ? & H)|H]; try discriminate H;
      now injection H. }
  assert (Recurring.id r = ruleId) as Hid
    by (apply List.find_some in Hf as [_ Hi]; now apply rule_is_true).
  assert (forall x, In x db -> id x <> msgId) as Hfresh.
  { intros x Hx Hi. assert (existsb (eq_id msgId) db = true) as Ht; [|congruence].
    apply existsb_exists. exists x. split; [exact Hx|]. now apply eq_id_true. }
  eexists. split; [apply (selectGet_app_fresh db (mkScheduledMessage msgId _ _ _ _ _ _ _ _ _ _ _
                                                     _ _ _ _ _) Hfresh)|].
  cbn. repeat split; [now rewrite Hid|].
  unfold selectGet. rewrite filter_untouched; [reflexivity|].
  intros x Hx. unfold eq_id. apply String.eqb_neq. now apply Hfresh.
Qed.


End RecurringWorkerProperties.

Section RecurringWorkerExamples.
Import Store RecurringWorker.



Lemma rejected_recurring_send_leaves_a_pending_occurrence_witness :
  let row :=
    mkScheduledMessage "m1" (Some "c1") None (Some "r1") "hello" 1700000000000 pending
      None None None None None 0 None None 1700000000000 1700000000000 in
  Dispatcher.onFailed 1700000009000 (Some (recurringJob (Some 0))) "Connection Closed" [row]
  = ([row], [])
  /\ exists row',
       selectGet (eq_id "m1") [row] = Some row'
       /\ status row' = pending /\ attempts row' = 0 /\ failedAt row' = None
       /\ recurringRuleId row' = Some "r1"
       /\ selectGet (eq_id "m1") [] = None.
Proof.
  intros row.
  apply (rejected_recurring_send_leaves_a_pending_occurrence Examples.epochSeconds 30 80
           RuleSamples.noEscapes 1700000000000 1700000009000 "m1" (Some 0%nat)
           Examples.contacts [Examples.fridayRule] [] [row] "r1" (Some 0)
           "Connection Closed").
  left. exists Examples.fridayRule, 1700000000000, "m1", "919876543210@s.whatsapp.net",
    (Payload.Text "hello"). reflexivity.
Defined.


End RecurringWorkerExamples.

(** ** Creating and deleting recurring rules *)
Section RecurringLifecycleProperties.
Import Recurring RecurringWorker RecurringLifecycle.

Lemma disable_id now r : Recurring.id (disable now r) = Recurring.id r.
Proof. reflexivity. Qed.

(** Deleting a rule disables it and removes its scheduler; the row stays, no
    other rule changes, and a firing of the rule that comes after, whatever
    the cap, the contacts and the socket, returns at once without a write. *)
Theorem deleted_rule_never_fires
    (now : Z) (ruleId : string) (rules : list RecurringRule) (rule : RecurringRule) :
  getRecurringRule ruleId rules = Some rule ->
  exists rules',
    deleteRecurringRule now ruleId rules
    = (rules', Some (disable now rule, RemoveJobScheduler ("recurring-" +:+ ruleId)))
    /\ getRecurringRule ruleId rules' = Some (disable now rule)
    /\ List.map Recurring.id rules' = List.map Recurring.id rules
    /\ (forall j, j <> ruleId -> getRecurringRule j rules' = getRecurringRule j rules)
    /\ forall col cap pct decode now' msgId socket cs (db : Store.Table),
         processRecurringSendJob_begin col cap pct decode now' msgId socket cs rules' db ruleId
         = RecurringWorker.Returned rules' db [].
Proof.
  unfold getRecurringRule. intros Hf.
  exists (List.map (fun r => if rule_is ruleId r then disable now r else r) rules).
  assert (List.find (rule_is ruleId)
            (List.map (fun r => if rule_is ruleId r then disable now r else r) rules)
          = Some (disable now rule)) as Hf'
    by (rewrite (find_rule_written ruleId (disable now) rules (disable_id now)), Hf;
        reflexivity).
  repeat split.
  - unfold deleteRecurringRule. now rewrite Hf.
  - exact Hf'.
  - rewrite List.map_map. apply List.map_ext. intros r. now destruct (rule_is ruleId r).
  - intros j Hj. now apply find_rule_other.
  - intros. now apply (firing_a_disabled_rule _ _ _ _ _ _ _ _ _ _ _ (disable now rule)).
Qed.



Section Created.
Variable defaultSendHour : Z.


End Created.

End RecurringLifecycleProperties.

Section RecurringLifecycleExamples.
Import Recurring RecurringWorker RecurringLifecycle.

Lemma deleted_rule_never_fires_witness :
  exists rules',
    deleteRecurringRule 5000 "r1" [Examples.fridayRule]
    = (rules', Some (disable 5000 Examples.fridayRule,
                     RemoveJobScheduler ("recurring-" +:+ "r1")))
    /\ getRecurringRule "r1" rules' = Some (disable 5000 Examples.fridayRule)
    /\ List.map Recurring.id rules' = List.map Recurring.id [Examples.fridayRule]
    /\ (forall j, j <> "r1" ->
        getRecurringRule j rules' = getRecurringRule j [Examples.fridayRule])
    /\ forall col cap pct decode now' msgId socket cs (db : Store.Table),
         processRecurringSendJob_begin col cap pct decode now' msgId socket cs rules' db "r1"
         = RecurringWorker.Returned rules' db [].
Proof.
  apply (deleted_rule_never_fires 5000 "r1" [Examples.fridayRule] Examples.fridayRule).
  reflexivity.
Defined.


End RecurringLifecycleExamples.

(** ** The connection manager over a run *)
Section BridgeRuns.
Import Bridge BridgeInvariant.
Variable maxRetryMs : Q.
Variable backoffConfig : Reconnect.BackoffConfig.

Ltac settle :=
  unfold settled in *; cbn in *; intuition (try congruence; try lia; eauto);
  repeat match goal with
         | H : forall s : nat, (s < ?n)%nat -> _, H' : (?x < ?n)%nat |- _ =>
           destruct (H x H'); clear H
         end; intuition (try congruence; try lia; eauto).

Lemma settled_cleanupSocket w :
  settled w -> settled (cleanupSocket w) /\ connectsInFlight (cleanupSocket w) = connectsInFlight w
               /\ sock (cleanupSocket w) = None /\ reconnectTimer (cleanupSocket w) = None.
Proof.
  destruct w as [s a t c l st r ac au ef cf ns]. unfold cleanupSocket.
  destruct t, s; settle.
Qed.

Lemma settled_connect caller w :
  settled w -> connectsInFlight w = [] -> settled (connect caller w).
Proof.
  destruct w as [s a t c l st r ac au ef cf ns]. unfold connect, cleanupSocket.
  destruct t, s; cbn; intros H ->; settle.
Qed.

Lemma settled_connect_resume w : settled w -> settled (connect_resume w).
Proof.
  destruct w as [s a t c l st r ac au ef cf ns]. unfold connect_resume, settled. cbn.
  destruct cf as [|x [|y cf]]; [tauto | | cbn; lia].
  intros (_ & H & Hs & He). destruct (H ltac:(discriminate)) as [-> ->]. cbn in *.
  repeat split; try lia; try congruence.
  - intros s' [= <-]. lia.
  - intros s' Hs'. destruct (decide (s' = ns)) as [->|Hne]; [now left|].
    right. destruct (He s' ltac:(lia)) as [|]; [discriminate | assumption].
Qed.

Lemma settled_resetToPairing w :
  settled w -> connectsInFlight w = [] -> settled (resetToPairing (clearAuthState w)).
Proof.
  intros H Hc. unfold resetToPairing. apply settled_connect; [|exact Hc].
  destruct w as [s a t c l st r ac au ef cf ns]. exact H.
Qed.

Lemma settled_scheduleReconnect d w :
  settled w -> connectsInFlight w = [] -> settled (scheduleReconnect d w).
Proof.
  destruct w as [s a t c l st r ac au ef cf ns]. unfold scheduleReconnect.
  destruct t; cbn; intros H ->; settle.
Qed.

Lemma settled_reconnectWithBackoff now random w :
  settled w -> connectsInFlight w = [] ->
  settled (reconnectWithBackoff maxRetryMs backoffConfig now random w).
Proof.
  intros H Hc. unfold reconnectWithBackoff.
  set (w1 := match retryStartedAt w with None => set_retryStartedAt (Some now) w | Some _ => w end).
  assert (settled w1 /\ connectsInFlight w1 = []) as [H1 Hc1].
  { subst w1. destruct (retryStartedAt w); [tauto|].
    destruct w as [s a t c l st r ac au ef cf ns]. split; [exact H | exact Hc]. }
  destruct (Reconnect.isRetryWindowExhausted _ _ _).
  - now apply settled_resetToPairing.
  - apply settled_scheduleReconnect.
    + destruct w1 as [s a t c l st r ac au ef cf ns]. clear -H1. settle.
    + destruct w1 as [s a t c l st r ac au ef cf ns]. exact Hc1.
Qed.

Lemma settled_handleDisconnect now random code w :
  settled w -> connectsInFlight w = [] ->
  settled (handleDisconnect maxRetryMs backoffConfig now random code w).
Proof.
  intros H Hc. unfold handleDisconnect.
  destruct (code =? _); [now apply settled_resetToPairing|].
  destruct (code =? _).
  { destruct w as [s a t c l st r ac au ef cf ns]. clear -H. settle. }
  destruct (code =? _); [now apply settled_scheduleReconnect|].
  destruct (code =? _); [now apply settled_resetToPairing|].
  now apply settled_reconnectWithBackoff.
Qed.

Lemma settled_sameSockets w w' : settled w -> sameSockets w w' -> settled w'.
Proof.
  unfold settled, sameSockets. intros (H1 & H2 & H3 & H4) (-> & -> & -> & -> & He).
  split; [exact H1|]. split; [exact H2|]. split; [exact H3|].
  intros s Hs. destruct (H4 s Hs); [now left | right; now apply He].
Qed.

Lemma settled_handleConnectionUpdate now random u w :
  settled w -> connectsInFlight w = [] ->
  settled (handleConnectionUpdate maxRetryMs backoffConfig now random u w).
Proof.
  intros H Hc. unfold handleConnectionUpdate.
  set (w1 := match qr u with
             | Some q => if String.eqb q "" then w
                         else emit (BroadcastQr q) (set_reconnectAttempt 0%nat (set_status pairing w))
             | None => w end).
  assert (sameSockets w w1) as S1.
  { subst w1. destruct w as [s a t c l st r ac au ef cf ns]. unfold sameSockets.
    destruct (qr u) as [q|]; [destruct (String.eqb q "")|]; cbn; intuition. }
  set (w2 := match connection u with Some conn_open => _ | _ => w1 end).
  assert (sameSockets w w2) as S2.
  { subst w2. destruct (connection u) as [[]|]; try exact S1.
    destruct w1 as [s a t c l st r ac au ef cf ns]. unfold sameSockets in *. cbn in *.
    destruct s, (sockUser u) as [[uid uname]|]; cbn; intuition. }
  pose proof (settled_sameSockets _ _ H S2) as H2.
  assert (connectsInFlight w2 = []) as Hc2 by (destruct S2 as (_ & _ & -> & _); exact Hc).
  destruct (connection u) as [[]|]; try exact H2.
  apply settled_handleDisconnect.
  - destruct w2 as [s a t c l st r ac au ef cf ns]. clear -H2. settle.
  - destruct w2 as [s a t c l st r ac au ef cf ns]. exact Hc2.
Qed.

Lemma settled_step e w :
  e <> Start -> settled w -> settled (step maxRetryMs backoffConfig e w).
Proof.
  intros He H. destruct e as [| |now random|now random u| |]; [congruence|..]; cbn [step].
  - now apply settled_connect_resume.
  - destruct (connectsInFlight w) as [|c rest] eqn:Hc; [exact H|].
    assert (rest = []) as ->.
    { destruct H as (Hl & _). rewrite Hc in Hl. destruct rest; [reflexivity | cbn in Hl; lia]. }
    assert (settled (set_connectsInFlight [] w)) as H'.
    { destruct w as [s a t c0 l st r ac au ef cf ns]. clear -H. settle. }
    destruct c; try exact H'. apply settled_reconnectWithBackoff; [exact H'|].
    now destruct w.
  - destruct (sock w) eqn:Hs; [|exact H]. apply settled_handleConnectionUpdate; [exact H|].
    destruct (connectsInFlight w) eqn:Hc; [reflexivity|].
    destruct H as (_ & H & _). rewrite Hc in H. destruct (H ltac:(discriminate)). congruence.
  - destruct (reconnectTimer w) eqn:Ht; [|exact H].
    assert (connectsInFlight w = []) as Hc.
    { destruct (connectsInFlight w) eqn:Hc; [reflexivity|].
      destruct H as (_ & H & _). rewrite Hc in H. destruct (H ltac:(discriminate)). congruence. }
    apply settled_connect.
    + destruct w as [s a t c l st r ac au ef cf ns]. clear -H. settle.
    + now destruct w.
  - now apply settled_cleanupSocket.
Qed.

Lemma settled_run events w :
  ~ In Start events -> settled w -> settled (run maxRetryMs backoffConfig events w).
Proof.
  revert w. induction events as [|e events IH]; intros w Hno H; [exact H|].
  cbn [run fold_left]. apply IH.
  - intros Hin. apply Hno. now right.
  - apply settled_step; [|exact H]. intros ->. apply Hno. now left.
Qed.

(** One [connect()] at a time, and no socket left behind.  In every run of a
    manager that is started once, whatever the socket reports, whenever the
    timer fires and whether or not the auth state loads, at most one
    [connect()] is suspended at a time, and only while there is no socket and
    no timer; and every socket that was created is either the current one or
    was ended before the next was created. *)
Theorem one_connect_at_a_time_and_no_socket_left_behind
    (rows : gmap string string) (events : list Event) :
  ~ In Start events ->
  let w := run maxRetryMs backoffConfig (Start :: events) (newManager rows) in
  (length (connectsInFlight w) <= 1)%nat
  /\ (connectsInFlight w <> [] -> sock w = None /\ reconnectTimer w = None)
  /\ (forall s, (s < nextSocket w)%nat -> sock w <> Some s -> In (SocketEnded s) (effects w)).
Proof.
  intros Hno w.
  assert (settled w) as (H1 & H2 & _ & H4).
  { subst w. cbn [run fold_left]. apply settled_run; [exact Hno|].
    unfold settled. cbn. repeat split; try lia; try congruence. }
  split; [exact H1|]. split; [exact H2|].
  intros s Hs Hne. destruct (H4 s Hs); [contradiction | assumption].
Qed.

End BridgeRuns.

Section BridgeRunsExamples.
Import Bridge BridgeInvariant Examples.

Lemma one_connect_at_a_time_and_no_socket_left_behind_witness :
  let w := run maxRetryMs backoffConfig
             (Start :: [AuthStateLoaded; SocketUpdate 1000 (1 # 2) (closeWith 428); TimerFired;
                        AuthStateLoaded])
             (newManager ∅) in
  (length (connectsInFlight w) <= 1)%nat
  /\ (connectsInFlight w <> [] -> sock w = None /\ reconnectTimer w = None)
  /\ (forall s, (s < nextSocket w)%nat -> sock w <> Some s -> In (SocketEnded s) (effects w)).
Proof.
  apply (one_connect_at_a_time_and_no_socket_left_behind maxRetryMs backoffConfig ∅
           [AuthStateLoaded; SocketUpdate 1000 (1 # 2) (closeWith 428); TimerFired;
            AuthStateLoaded]).
  intros H. repeat (destruct H as [H|H]; [discriminate H|]). exact H.
Defined.

(** The one start matters: a second [connect()] called while the first is
    suspended creates a second socket over the first, which is never ended. *)
Example second_start_leaves_a_socket_behind :
  let w := run maxRetryMs backoffConfig [Start; Start; AuthStateLoaded; AuthStateLoaded]
             (newManager ∅) in
  sock w = Some 1%nat /\ nextSocket w = 2%nat /\ ~ In (SocketEnded 0%nat) (effects w).
Proof.
  vm_compute. repeat split. intros H. repeat (destruct H as [H|H]; [discriminate H|]). exact H.
Qed.

End BridgeRunsExamples.

(** ** A batch of delivery updates *)
Section DeliveryBatch.
Import Store DeliveryListener DeliveryMarks.

Lemma onMessageUpdate_touches now u db :
  Forall2 (touched [(now, u)]) db (fst (onMessageUpdate now u db))
  /\ (snd (onMessageUpdate now u db) = []
      \/ exists i, snd (onMessageUpdate now u db) = [MessageStatusDelivered i now]).
Proof.
  assert (Forall2 (touched [(now, u)]) db db) as Hrefl.
  { apply Forall2_same_length_lookup. split; [reflexivity|].
    intros n m m' Hm Hm'. left. congruence. }
  unfold onMessageUpdate. destruct u as [[kid|] [st|]]; cbn; auto.
  destruct ((st =? 0) || String.eqb kid ""); cbn; auto.
  destruct (Z.eqb_spec st 3) as [->|]; cbn; auto.
  destruct (head _) eqn:Hh; cbn; (split; [|eauto]).
  all: unfold updateRun; apply Forall2_fmap_r, Forall_Forall2_diag, Forall_forall.
  all: intros m _; unfold compose.
  all: destruct (decide (whatsappMessageId m = Some kid)) as [E|E];
    [rewrite (bool_decide_eq_true_2 _ E); right; exists now, kid; split; [now left | auto]
    |rewrite (bool_decide_eq_false_2 _ E); left; reflexivity].
Qed.

Lemma touched_trans now u rest m m1 m2 :
  touched [(now, u)] m m1 -> touched rest m1 m2 -> touched ((now, u) :: rest) m m2.
Proof.
  intros [->|(t & k & [Heq|[]] & Hk & ->)] [->|(t2 & k2 & Hin & Hk2 & ->)].
  - now left.
  - right. exists t2, k2. split; [now right | auto].
  - right. exists t, k. split; [now left | auto].
  - right. exists t2, k2. split; [now right|]. split; [exact Hk2|]. now destruct m.
Qed.

Lemma touched_counted col lo updates m m' :
  touched updates m m' ->
  RateLimiter.sentTodayWhere col lo m = true -> RateLimiter.sentTodayWhere col lo m' = true.
Proof.
  intros [->|(t & k & _ & _ & ->)]; [auto|].
  unfold RateLimiter.sentTodayWhere, RateLimiter.statusInSentDelivered. cbn.
  destruct (sqlGe _ lo) as [[]|]; destruct (status m); cbn; auto.
Qed.

Lemma filter_length_mono {A} (R : A -> A -> Prop) (p : A -> bool) (l l' : list A) :
  (forall a a', R a a' -> p a = true -> p a' = true) -> Forall2 R l l' ->
  (length (List.filter p l) <= length (List.filter p l'))%nat.
Proof.
  intros Hp H. induction H as [|a a' l l' Ha _ IH]; [reflexivity|]. cbn.
  destruct (p a) eqn:E.
  - rewrite (Hp a a' Ha E). cbn. lia.
  - destruct (p a'); cbn; lia.
Qed.

(** A batch without an ack (status 3) writes nothing and broadcasts nothing. *)
Lemma batch_without_ack updates (db : Table) :
  Forall (fun x => update_status (snd x) <> Some 3) updates ->
  onMessagesUpdate updates db = (db, []).
Proof.
  induction 1 as [|[now u] rest Hu _ IH]; [reflexivity|]. cbn [onMessagesUpdate].
  assert (onMessageUpdate now u db = (db, [])) as ->; [|now rewrite IH].
  unfold onMessageUpdate. destruct u as [[kid|] [st|]]; cbn in *; try reflexivity.
  destruct ((st =? 0) || String.eqb kid ""); [reflexivity|].
  destruct (Z.eqb_spec st 3) as [->|]; [congruence | reflexivity].
Qed.

(** The delivery listener only ever marks intents delivered.  After a whole
    batch of updates, every intent is where it was, and is either untouched or
    carries the mark of one of the batch's acks (status 3) of its provider id:
    [delivered], with [deliveredAt] and [updatedAt] at that ack's instant and
    every other field, [sentAt] included, as before.  Each broadcast is a
    delivery event at the instant of an element of the batch, at most one per
    element; the count of the day never goes down; and a batch without an ack
    writes nothing and broadcasts nothing. *)
Theorem delivery_batch_only_marks_delivered (updates : list (Z * MessageUpdate)) (db : Table) :
  let db' := fst (onMessagesUpdate updates db) in
  let evs := snd (onMessagesUpdate updates db) in
  Forall2 (touched updates) db db'
  /\ Forall (fun e => exists i now u, e = MessageStatusDelivered i now /\ In (now, u) updates)
       evs
  /\ (length evs <= length updates)%nat
  /\ (forall col now,
       RateLimiter.getSentTodayCount col now db <= RateLimiter.getSentTodayCount col now db')
  /\ (Forall (fun x => update_status (snd x) <> Some 3) updates -> db' = db /\ evs = []).
Proof.
  cbn zeta.
  assert (Forall2 (touched updates) db (fst (onMessagesUpdate updates db))
          /\ Forall (fun e => exists i now u,
                       e = MessageStatusDelivered i now /\ In (now, u) updates)
               (snd (onMessagesUpdate updates db))
          /\ (length (snd (onMessagesUpdate updates db)) <= length updates)%nat)
    as (H1 & H2 & H3).
  { revert db. induction updates as [|[now u] rest IH]; intros db.
    - cbn. repeat split; [|constructor|lia].
      apply Forall_Forall2_diag, Forall_forall. intros m _. now left.
    - cbn [onMessagesUpdate].
      destruct (onMessageUpdate_touches now u db) as [Hstep Hev].
      destruct (onMessageUpdate now u db) as [db1 ev1]. cbn [fst snd] in *.
      destruct (IH db1) as (IH1 & IH2 & IH3).
      destruct (onMessagesUpdate rest db1) as [db2 ev2]. cbn [fst snd] in *.
      split; [|split].
      + apply Forall2_same_length_lookup. split.
        * rewrite (Forall2_length _ _ _ Hstep). apply (Forall2_length _ _ _ IH1).
        * intros n m m2 Hm Hm2.
          destruct (Forall2_lookup_l _ _ _ _ _ Hstep Hm) as (m1 & Hm1 & Ht1).
          destruct (Forall2_lookup_l _ _ _ _ _ IH1 Hm1) as (m2' & Hm2' & Ht2).
          assert (m2' = m2) as -> by congruence.
          now apply (touched_trans now u rest m m1 m2).
      + apply Forall_app. split.
        * destruct Hev as [->|[i ->]]; [constructor|].
          repeat constructor. exists i, now, u. split; [reflexivity | now left].
        * eapply Forall_impl; [exact IH2|]. intros e (i & t & u' & -> & Hin).
          exists i, t, u'. split; [reflexivity | now right].
      + rewrite length_app. destruct Hev as [->|[i ->]]; cbn; lia. }
  split; [exact H1|]. split; [exact H2|]. split; [exact H3|]. split.
  - intros col now. unfold RateLimiter.getSentTodayCount.
    apply inj_le, (filter_length_mono (touched updates)); [|exact H1].
    intros a a'. apply touched_counted.
  - intros Hno. now rewrite (batch_without_ack updates db Hno).
Qed.

End DeliveryBatch.

(** ** The reconnect delay over the attempts *)
Section BackoffRange.
Import Reconnect.
Open Scope Q_scope.

Lemma power_of_two_at_least_one (n : nat) : 1 <= inject_Z (2 ^ Z.of_nat n).
Proof.
  change 1 with (inject_Z 1). rewrite <- Zle_Qle.
  pose proof (Z.pow_pos_nonneg 2 (Z.of_nat n)). lia.
Qed.

(** Whatever the attempt number, the reconnect delay stays within a fixed
    range: with a non-negative base and maximum it is at least 0.8 times the
    smaller of the two and at most 1.2 times the maximum; and from the attempt
    at which the doubled base reaches the maximum on, it is at least 0.8 times
    the maximum. *)
Theorem backoff_stays_within_the_configured_range
    (n : nat) (config : BackoffConfig) (random : Q) :
  0 <= random < 1 -> 0 <= baseDelayMs config -> 0 <= maxDelayMs config ->
  0.8 * Qmin (baseDelayMs config) (maxDelayMs config) <= calculateBackoff n config random
  /\ calculateBackoff n config random <= 1.2 * maxDelayMs config
  /\ (maxDelayMs config <= baseDelayMs config * inject_Z (2 ^ Z.of_nat n) ->
      0.8 * maxDelayMs config <= calculateBackoff n config random).
Proof.
  intros Hr Hb Hm. unfold calculateBackoff.
  set (capped := Qmin (baseDelayMs config * inject_Z (2 ^ Z.of_nat n)) (maxDelayMs config)).
  destruct (jitter_bounds random Hr) as [Hl Hu].
  pose proof (power_of_two_at_least_one n) as Hp.
  assert (baseDelayMs config <= baseDelayMs config * inject_Z (2 ^ Z.of_nat n)) as Hgrow by nra.
  assert (Qmin (baseDelayMs config) (maxDelayMs config) <= capped) as Hlow.
  { subst capped. apply Q.min_glb.
    - eapply Qle_trans; [apply Q.le_min_l | exact Hgrow].
    - apply Q.le_min_r. }
  assert (capped <= maxDelayMs config) as Hhigh by apply Q.le_min_r.
  assert (0 <= Qmin (baseDelayMs config) (maxDelayMs config)) as H0
    by (apply Q.min_glb; assumption).
  assert (0 <= capped) as Hc by (eapply Qle_trans; eassumption).
  destruct (scale_between capped (1 + (random * 2 - 1) * 0.2)) as [Hpos _]; [lra|].
  destruct (Hpos Hc) as [H1 H2].
  split; [lra|]. split; [lra|].
  intros Hsat. assert (capped == maxDelayMs config) as Heq.
  { subst capped. apply Q.min_r. exact Hsat. }
  rewrite <- Heq. exact H1.
Qed.

Lemma backoff_stays_within_the_configured_range_witness :
  0.8 * Qmin 1000 60000 <= calculateBackoff 9 Examples.backoffConfig (3 # 4)
  /\ calculateBackoff 9 Examples.backoffConfig (3 # 4) <= 1.2 * 60000
  /\ (60000 <= 1000 * inject_Z (2 ^ Z.of_nat 9) ->
      0.8 * 60000 <= calculateBackoff 9 Examples.backoffConfig (3 # 4)).
Proof.
  apply (backoff_stays_within_the_configured_range 9 Examples.backoffConfig (3 # 4)).
  - split; [discriminate | reflexivity].
  - discriminate.
  - discriminate.
Defined.

End BackoffRange.
